(** * Cluster identity, cluster listener and request forwarding of vault/cluster.go

    A shallow embedding of [vault/cluster.go].  Every method of [Core] is a
    computation in a small monad that threads the [Core] value, returns
    either a value or a Go [error], and records the calls made to the
    outside world (storage barrier, random sources, x509, network, locks,
    goroutines) in a list of events.

    What the file takes as given, because it is not part of cluster.go:
    the JSON codec, [x509.ParseCertificate], [http2.ConfigureTransport],
    [requestutil.GenerateForwardedRequest] and the network round trip of
    [http.Client.Do] are fields of [Externals]; the values drawn from random
    sources and from the clock during one call of [setupCluster] are fields
    of [Env].  Calls to the logger are left out.

    The helpers of [vault/testing.go] that can be told without the rest of
    the package come after the methods: [GenerateRandBytes],
    [AddTestLogicalBackend], and the configurations that [TestCoreWithSeal]
    and [TestCluster] hand to [NewCore]. *)

From Stdlib Require Import ZArith NArith String Ascii List Bool Lia.
From Stdlib Require Strings.Byte.
From Stdlib Require DecimalString.
From stdpp Require Import base option gmap strings list.

Local Open Scope string_scope.
Local Open Scope list_scope.

(** ** Data *)

(** The contents of a Go [[]byte]. *)
Abbreviation bytes := (list Init.Byte.byte).

#[global] Instance byte_eq_dec : EqDecision Init.Byte.byte := Strings.Byte.byte_eq_dec.

(** A Go slice value: [None] is the nil slice. *)
Definition len {A : Type} (s : option (list A)) : nat :=
  match s with
  | None => 0
  | Some l => length l
  end.

(** [s == ""] on Go strings. *)
Definition is_empty (s : string) : bool := String.eqb s "".

(** Errors.  [ErrCannotForward] is the package variable; [Errorf] is a value
    built by [fmt.Errorf] in this file, identified by its text; [Foreign] is
    an error handed back by a collaborator and returned unchanged. *)
Inductive error : Type :=
| ErrCannotForward
| Errorf (msg : string)
| Foreign (msg : string).

#[global] Instance error_eq_dec : EqDecision error.
Proof. solve_decision. Defined.

Inductive result (A : Type) : Type :=
| Ok (a : A)
| Err (e : error).
Arguments Ok {A} a.
Arguments Err {A} e.

(** What a collaborator returns: a value or the text of its error. *)
Abbreviation fallible A := (string + A)%type.

Definition is_Ok {A : Type} (r : result A) : bool :=
  match r with
  | Ok _ => true
  | Err _ => false
  end.

(** Constants of the file. *)
Definition coreLocalClusterInfoPath : string := "core/cluster/local/info".
Definition coreLocalClusterKeyPath : string := "core/cluster/local/key".
Definition corePrivateKeyTypeP521 : string := "p521".

(** [privKeyParams]: the [big.Int] fields are pointers, [None] is nil. *)
Record privKeyParams : Type := {
  Type_ : string;
  X : option Z;
  Y : option Z;
  D : option Z
}.

(** [Cluster], the storage entry that holds the cluster information. *)
Record Cluster : Type := {
  Name : string;
  ID : string;
  Certificate : option bytes
}.

Definition zero_Cluster : Cluster :=
  {| Name := ""; ID := ""; Certificate := None |}.

(** crypto/elliptic and crypto/ecdsa, as far as the file uses them. *)
Inductive elliptic_Curve : Type := P521.

Record ecdsa_PublicKey : Type := {
  pub_Curve : elliptic_Curve;
  pub_X : Z;
  pub_Y : Z
}.

Record ecdsa_PrivateKey : Type := {
  PublicKey : ecdsa_PublicKey;
  priv_D : Z
}.

(** crypto/x509: the fields of [x509.Certificate] that the template sets. *)
Inductive x509_ExtKeyUsage : Type :=
| ExtKeyUsageAny
| ExtKeyUsageServerAuth
| ExtKeyUsageClientAuth
| ExtKeyUsageCodeSigning
| ExtKeyUsageEmailProtection.

Definition KeyUsageDigitalSignature : Z := Z.shiftl 1 0.
Definition KeyUsageContentCommitment : Z := Z.shiftl 1 1.
Definition KeyUsageKeyEncipherment : Z := Z.shiftl 1 2.
Definition KeyUsageDataEncipherment : Z := Z.shiftl 1 3.
Definition KeyUsageKeyAgreement : Z := Z.shiftl 1 4.
Definition KeyUsageCertSign : Z := Z.shiftl 1 5.
Definition KeyUsageCRLSign : Z := Z.shiftl 1 6.
Definition KeyUsageEncipherOnly : Z := Z.shiftl 1 7.
Definition KeyUsageDecipherOnly : Z := Z.shiftl 1 8.

Record pkix_Name : Type := { CommonName : string }.

(** Times are nanoseconds since the epoch, durations are nanoseconds. *)
Definition time_Second : Z := 1000000000.
Definition time_Hour : Z := 3600 * time_Second.

Record x509_Certificate : Type := {
  Subject : pkix_Name;
  DNSNames : list string;
  ExtKeyUsage : list x509_ExtKeyUsage;
  KeyUsage : Z;
  SerialNumber : Z;
  NotBefore : Z;
  NotAfter : Z;
  BasicConstraintsValid : bool;
  IsCA : bool
}.

#[global] Instance x509_ExtKeyUsage_eq_dec : EqDecision x509_ExtKeyUsage.
Proof. solve_decision. Defined.
#[global] Instance pkix_Name_eq_dec : EqDecision pkix_Name.
Proof. solve_decision. Defined.
#[global] Instance x509_Certificate_eq_dec : EqDecision x509_Certificate.
Proof. solve_decision. Defined.

(** [x509.CertPool]; [AddCert] skips a certificate the pool already has. *)
Definition CertPool_AddCert (pool : list x509_Certificate) (cert : x509_Certificate)
  : list x509_Certificate :=
  if bool_decide (cert ∈ pool) then pool else pool ++ [cert].

(** crypto/tls. *)
Inductive tls_ClientAuthType : Type :=
| NoClientCert
| RequestClientCert
| RequireAnyClientCert
| VerifyClientCertIfGiven
| RequireAndVerifyClientCert.

Record tls_Certificate : Type := {
  chain : list (option bytes);
  PrivateKey : option ecdsa_PrivateKey
}.

Record tls_Config : Type := {
  Certificates : list tls_Certificate;
  RootCAs : option (list x509_Certificate);
  ServerName : string;
  ClientAuth : tls_ClientAuthType;
  ClientCAs : option (list x509_Certificate);
  NextProtos : list string
}.

(** net and net/http.  A raw listener is known by its address; requests,
    responses and handlers are opaque texts. *)
Record net_Listener : Type := { Addr : string }.

Record tls_Listener : Type := {
  inner : net_Listener;
  config : tls_Config
}.

Record http_Handler : Type := { handler_id : string }.
Record http_Request : Type := { request_text : string }.
Record http_Response : Type := { response_text : string }.

Record http_Transport : Type := { TLSClientConfig : tls_Config }.
Record http_Client : Type := { Transport : http_Transport }.

(** [activeConnection]: the embedded [http.Client] and the address. *)
Record activeConnection : Type := {
  Client : http_Client;
  clusterAddr : string
}.

(** Modelled from the spec: the encrypted storage barrier behind
    [c.barrier] (vault/barrier.go), which the spec gives as
    [get(key) -> bytes|absent] and [put(key, bytes)], inaccessible when the
    vault is sealed. *)
Record Barrier : Type := {
  sealed : bool;
  entries : gmap string bytes
}.

Definition ErrBarrierSealed : string := "Vault is sealed".

(** Channels of type [chan struct{}] are references into a table that holds,
    for each channel made so far, whether it has been closed. *)
Abbreviation chan := nat (only parsing).

(** The goroutine that [startClusterListener] leaves waiting. *)
Record coordinator : Type := {
  waits_on : chan;
  listeners : list tls_Listener;
  signals : chan
}.

(** The fields of [Core] that cluster.go reads or writes, followed by the
    part of the Go runtime its goroutines live in. *)
Record Core : Type := {
  barrier : Barrier;
  clusterName : string;
  advertiseAddr : string;
  localClusterPrivateKey : option ecdsa_PrivateKey;
  localClusterCertPool : option (list x509_Certificate);
  clusterListenerSetupFunc : option (fallible (list net_Listener * http_Handler));
  clusterListenerShutdownCh : option chan;
  clusterListenerShutdownSuccessCh : option chan;
  requestForwardingConnection : option activeConnection;
  channels : list bool;
  serving : list (tls_Listener * http_Handler);
  waiting : list coordinator
}.

(** Field updates of [Core]. *)
Definition set_barrier (b : Barrier) (c : Core) : Core :=
  {| barrier := b; clusterName := clusterName c; advertiseAddr := advertiseAddr c;
     localClusterPrivateKey := localClusterPrivateKey c;
     localClusterCertPool := localClusterCertPool c;
     clusterListenerSetupFunc := clusterListenerSetupFunc c;
     clusterListenerShutdownCh := clusterListenerShutdownCh c;
     clusterListenerShutdownSuccessCh := clusterListenerShutdownSuccessCh c;
     requestForwardingConnection := requestForwardingConnection c;
     channels := channels c; serving := serving c; waiting := waiting c |}.

Definition set_clusterName (s : string) (c : Core) : Core :=
  {| barrier := barrier c; clusterName := s; advertiseAddr := advertiseAddr c;
     localClusterPrivateKey := localClusterPrivateKey c;
     localClusterCertPool := localClusterCertPool c;
     clusterListenerSetupFunc := clusterListenerSetupFunc c;
     clusterListenerShutdownCh := clusterListenerShutdownCh c;
     clusterListenerShutdownSuccessCh := clusterListenerShutdownSuccessCh c;
     requestForwardingConnection := requestForwardingConnection c;
     channels := channels c; serving := serving c; waiting := waiting c |}.

Definition set_localClusterPrivateKey (k : option ecdsa_PrivateKey) (c : Core) : Core :=
  {| barrier := barrier c; clusterName := clusterName c; advertiseAddr := advertiseAddr c;
     localClusterPrivateKey := k;
     localClusterCertPool := localClusterCertPool c;
     clusterListenerSetupFunc := clusterListenerSetupFunc c;
     clusterListenerShutdownCh := clusterListenerShutdownCh c;
     clusterListenerShutdownSuccessCh := clusterListenerShutdownSuccessCh c;
     requestForwardingConnection := requestForwardingConnection c;
     channels := channels c; serving := serving c; waiting := waiting c |}.

Definition set_localClusterCertPool (p : option (list x509_Certificate)) (c : Core) : Core :=
  {| barrier := barrier c; clusterName := clusterName c; advertiseAddr := advertiseAddr c;
     localClusterPrivateKey := localClusterPrivateKey c;
     localClusterCertPool := p;
     clusterListenerSetupFunc := clusterListenerSetupFunc c;
     clusterListenerShutdownCh := clusterListenerShutdownCh c;
     clusterListenerShutdownSuccessCh := clusterListenerShutdownSuccessCh c;
     requestForwardingConnection := requestForwardingConnection c;
     channels := channels c; serving := serving c; waiting := waiting c |}.

Definition set_clusterListenerSetupFunc
    (f : option (fallible (list net_Listener * http_Handler))) (c : Core) : Core :=
  {| barrier := barrier c; clusterName := clusterName c; advertiseAddr := advertiseAddr c;
     localClusterPrivateKey := localClusterPrivateKey c;
     localClusterCertPool := localClusterCertPool c;
     clusterListenerSetupFunc := f;
     clusterListenerShutdownCh := clusterListenerShutdownCh c;
     clusterListenerShutdownSuccessCh := clusterListenerShutdownSuccessCh c;
     requestForwardingConnection := requestForwardingConnection c;
     channels := channels c; serving := serving c; waiting := waiting c |}.

Definition set_clusterListenerShutdownCh (ch : option chan) (c : Core) : Core :=
  {| barrier := barrier c; clusterName := clusterName c; advertiseAddr := advertiseAddr c;
     localClusterPrivateKey := localClusterPrivateKey c;
     localClusterCertPool := localClusterCertPool c;
     clusterListenerSetupFunc := clusterListenerSetupFunc c;
     clusterListenerShutdownCh := ch;
     clusterListenerShutdownSuccessCh := clusterListenerShutdownSuccessCh c;
     requestForwardingConnection := requestForwardingConnection c;
     channels := channels c; serving := serving c; waiting := waiting c |}.

Definition set_clusterListenerShutdownSuccessCh (ch : option chan) (c : Core) : Core :=
  {| barrier := barrier c; clusterName := clusterName c; advertiseAddr := advertiseAddr c;
     localClusterPrivateKey := localClusterPrivateKey c;
     localClusterCertPool := localClusterCertPool c;
     clusterListenerSetupFunc := clusterListenerSetupFunc c;
     clusterListenerShutdownCh := clusterListenerShutdownCh c;
     clusterListenerShutdownSuccessCh := ch;
     requestForwardingConnection := requestForwardingConnection c;
     channels := channels c; serving := serving c; waiting := waiting c |}.

Definition set_requestForwardingConnection (ac : option activeConnection) (c : Core) : Core :=
  {| barrier := barrier c; clusterName := clusterName c; advertiseAddr := advertiseAddr c;
     localClusterPrivateKey := localClusterPrivateKey c;
     localClusterCertPool := localClusterCertPool c;
     clusterListenerSetupFunc := clusterListenerSetupFunc c;
     clusterListenerShutdownCh := clusterListenerShutdownCh c;
     clusterListenerShutdownSuccessCh := clusterListenerShutdownSuccessCh c;
     requestForwardingConnection := ac;
     channels := channels c; serving := serving c; waiting := waiting c |}.

Definition set_channels (h : list bool) (c : Core) : Core :=
  {| barrier := barrier c; clusterName := clusterName c; advertiseAddr := advertiseAddr c;
     localClusterPrivateKey := localClusterPrivateKey c;
     localClusterCertPool := localClusterCertPool c;
     clusterListenerSetupFunc := clusterListenerSetupFunc c;
     clusterListenerShutdownCh := clusterListenerShutdownCh c;
     clusterListenerShutdownSuccessCh := clusterListenerShutdownSuccessCh c;
     requestForwardingConnection := requestForwardingConnection c;
     channels := h; serving := serving c; waiting := waiting c |}.

Definition set_serving (s : list (tls_Listener * http_Handler)) (c : Core) : Core :=
  {| barrier := barrier c; clusterName := clusterName c; advertiseAddr := advertiseAddr c;
     localClusterPrivateKey := localClusterPrivateKey c;
     localClusterCertPool := localClusterCertPool c;
     clusterListenerSetupFunc := clusterListenerSetupFunc c;
     clusterListenerShutdownCh := clusterListenerShutdownCh c;
     clusterListenerShutdownSuccessCh := clusterListenerShutdownSuccessCh c;
     requestForwardingConnection := requestForwardingConnection c;
     channels := channels c; serving := s; waiting := waiting c |}.

Definition set_waiting (w : list coordinator) (c : Core) : Core :=
  {| barrier := barrier c; clusterName := clusterName c; advertiseAddr := advertiseAddr c;
     localClusterPrivateKey := localClusterPrivateKey c;
     localClusterCertPool := localClusterCertPool c;
     clusterListenerSetupFunc := clusterListenerSetupFunc c;
     clusterListenerShutdownCh := clusterListenerShutdownCh c;
     clusterListenerShutdownSuccessCh := clusterListenerShutdownSuccessCh c;
     requestForwardingConnection := requestForwardingConnection c;
     channels := channels c; serving := serving c; waiting := w |}.

(** ** Collaborators *)

(** The functions cluster.go calls in other packages and whose result is a
    function of their arguments. *)
Record Externals : Type := {
  json_Marshal_Cluster : Cluster → fallible bytes;
  jsonutil_DecodeJSON_Cluster : bytes → fallible Cluster;
  json_Marshal_privKeyParams : privKeyParams → fallible bytes;
  jsonutil_DecodeJSON_privKeyParams : bytes → fallible privKeyParams;
  x509_ParseCertificate : bytes → fallible x509_Certificate;
  http2_ConfigureTransport : http_Transport → fallible http_Transport;
  requestutil_GenerateForwardedRequest : http_Request → string → fallible http_Request;
  http_Client_Do : http_Client → http_Request → fallible http_Response
}.

(** What the random sources and the clock hand out during one call of
    [setupCluster], named after the place that asks. *)
Record Env : Type := {
  uuid_GenerateRandomBytes : nat → fallible bytes;
  uuid_GenerateUUID_id : fallible string;
  ecdsa_GenerateKey : elliptic_Curve → fallible ecdsa_PrivateKey;
  uuid_GenerateUUID_host : fallible string;
  mathrand_Int63 : Z;
  time_Now_NotBefore : Z;
  time_Now_NotAfter : Z;
  x509_CreateCertificate :
    x509_Certificate → x509_Certificate → ecdsa_PublicKey → ecdsa_PrivateKey → fallible bytes
}.

(** ** Events and the monad *)

Inductive event : Type :=
| EvGet (key : string)
| EvPut (key : string) (value : bytes)
| EvGenerateRandomBytes (n : nat)
| EvGenerateUUID
| EvGenerateKey (curve : elliptic_Curve)
| EvCreateCertificate (template parent : x509_Certificate)
    (pub : ecdsa_PublicKey) (priv : ecdsa_PrivateKey)
| EvSetupFunc
| EvServe (ln : tls_Listener) (handler : http_Handler)
| EvMakeChan (ch : chan)
| EvGo (co : coordinator)
| EvCloseChan (ch : chan)
| EvCloseListener (ln : tls_Listener)
| EvRLock
| EvRUnlock
| EvLock
| EvUnlock
| EvDo (client : http_Client) (req : http_Request).

Definition M (A : Type) : Type := Core → result A * Core * list event.

#[global] Instance M_ret : MRet M := λ A a c, (Ok a, c, []).

#[global] Instance M_bind : MBind M := λ A B f m c,
  match m c with
  | (Ok a, c1, t1) =>
      match f a c1 with
      | (r, c2, t2) => (r, c2, t1 ++ t2)
      end
  | (Err e, c1, t1) => (Err e, c1, t1)
  end.

Definition fail {A : Type} (e : error) : M A := λ c, (Err e, c, []).
Definition gets {A : Type} (f : Core → A) : M A := λ c, (Ok (f c), c, []).
Definition modify (f : Core → Core) : M unit := λ c, (Ok tt, f c, []).
Definition emit (ev : event) : M unit := λ c, (Ok tt, c, [ev]).

(** [v, err := f(...); if err != nil { return err }] *)
Definition try {A : Type} (r : fallible A) : M A :=
  match r with
  | inl msg => fail (Foreign msg)
  | inr a => mret a
  end.

(** [v, err := f(...); if err != nil { return fmt.Errorf("<prefix>%v", err) }] *)
Definition try_Errorf {A : Type} (prefix : string) (r : fallible A) : M A :=
  match r with
  | inl msg => fail (Errorf (prefix ++ msg))
  | inr a => mret a
  end.

Definition result_of {A : Type} (x : result A * Core * list event) : result A := x.1.1.
Definition core_of {A : Type} (x : result A * Core * list event) : Core := x.1.2.
Definition events_of {A : Type} (x : result A * Core * list event) : list event := x.2.

(** ** The barrier *)

Definition barrier_Get (key : string) : M (option bytes) := λ c,
  if sealed (barrier c)
  then (Err (Foreign ErrBarrierSealed), c, [EvGet key])
  else (Ok (entries (barrier c) !! key), c, [EvGet key]).

Definition barrier_Put (key : string) (value : bytes) : M unit := λ c,
  if sealed (barrier c)
  then (Err (Foreign ErrBarrierSealed), c, [EvPut key value])
  else (Ok tt,
        set_barrier {| sealed := sealed (barrier c); entries := <[key := value]> (entries (barrier c)) |} c,
        [EvPut key value]).

(** ** fmt.Sprintf("vault-cluster-%08x", b) *)

Definition hex_digit (n : N) : ascii :=
  match n with
  | 0 => "0" | 1 => "1" | 2 => "2" | 3 => "3" | 4 => "4" | 5 => "5" | 6 => "6" | 7 => "7"
  | 8 => "8" | 9 => "9" | 10 => "a" | 11 => "b" | 12 => "c" | 13 => "d" | 14 => "e"
  | _ => "f"
  end%N%char.

Fixpoint hex_of_bytes (b : bytes) : string :=
  match b with
  | [] => ""
  | x :: rest =>
      let n := Strings.Byte.to_N x in
      String (hex_digit (n / 16)) (String (hex_digit (n mod 16)) (hex_of_bytes rest))
  end.

Fixpoint zeros (n : nat) : string :=
  match n with
  | O => ""
  | S n' => String "0" (zeros n')
  end.

(** [%08x] on a byte slice: the hexadecimal text, zero-padded on the left to
    eight characters. *)
Definition sprintf_08x (b : bytes) : string :=
  let h := hex_of_bytes b in
  zeros (8 - String.length h) ++ h.

Definition sprintf_cluster_name (b : bytes) : string :=
  "vault-cluster-" ++ sprintf_08x b.

(** ** The methods of [Core] *)

Definition is_nil {A : Type} (s : option A) : bool :=
  match s with
  | None => true
  | Some _ => false
  end.

(** [cluster.Certificate == nil || len(cluster.Certificate) == 0] *)
Definition no_certificate (cluster : Cluster) : bool :=
  is_nil (Certificate cluster) || (len (Certificate cluster) =? 0)%nat.

Definition with_Name (s : string) (cluster : Cluster) : Cluster :=
  {| Name := s; ID := ID cluster; Certificate := Certificate cluster |}.

Definition with_ID (s : string) (cluster : Cluster) : Cluster :=
  {| Name := Name cluster; ID := s; Certificate := Certificate cluster |}.

Definition with_Certificate (b : option bytes) (cluster : Cluster) : Cluster :=
  {| Name := Name cluster; ID := ID cluster; Certificate := b |}.

Definition Public (key : ecdsa_PrivateKey) : ecdsa_PublicKey := PublicKey key.

(** The template of lines 229-244. *)
Definition certificate_template (host : string) (serial now1 now2 : Z) : x509_Certificate :=
  {| Subject := {| CommonName := host |};
     DNSNames := [host];
     ExtKeyUsage := [ExtKeyUsageServerAuth; ExtKeyUsageClientAuth];
     KeyUsage :=
       Z.lor (Z.lor (Z.lor KeyUsageDigitalSignature KeyUsageKeyEncipherment)
                    KeyUsageKeyAgreement)
             KeyUsageCertSign;
     SerialNumber := serial;
     NotBefore := now1 + (-30) * time_Second;
     NotAfter := now2 + 262980 * time_Hour;
     BasicConstraintsValid := true;
     IsCA := true |}.

Section Methods.

Context (E : Externals).

(** The method [Cluster] of [Core].  Its first result is a pointer: [None] is
    nil, and every return without an error hands back the address of the
    local variable. *)
Definition Core_Cluster : M (option Cluster) :=
  entry ← barrier_Get coreLocalClusterInfoPath;
  match entry with
  | None => mret (Some zero_Cluster)
  | Some value =>
      cluster ← try_Errorf "failed to decode cluster details: "
                  (jsonutil_DecodeJSON_Cluster E value);
      name ← gets clusterName;
      let cluster := if negb (is_empty name) then with_Name name cluster else cluster in
      pool ← gets localClusterCertPool;
      (if is_nil pool then modify (set_localClusterCertPool (Some [])) else mret tt);;
      match Certificate cluster with
      | Some der =>
          if negb (len (Certificate cluster) =? 0)%nat then
            cert ← try_Errorf "error parsing local cluster certificate: "
                     (x509_ParseCertificate E der);
            pool ← gets localClusterCertPool;
            modify (set_localClusterCertPool
                      (Some (CertPool_AddCert (default [] pool) cert)));;
            mret (Some cluster)
          else mret (Some cluster)
      | None => mret (Some cluster)
      end
  end.

(** Lines 120-136 of [setupCluster]: the name. *)
Definition setup_name (env : Env) (cluster : Cluster) (modified : bool) : M (Cluster * bool) :=
  if is_empty (Name cluster) then
    name ← gets clusterName;
    (if is_empty name then
       _ ← emit (EvGenerateRandomBytes 4);
       clusterNameBytes ← try (uuid_GenerateRandomBytes env 4);
       modify (set_clusterName (sprintf_cluster_name clusterNameBytes))
     else mret tt);;
    name ← gets clusterName;
    mret (with_Name name cluster, true)
  else mret (cluster, modified).

(** Lines 138-148: the identifier. *)
Definition setup_id (env : Env) (cluster : Cluster) (modified : bool) : M (Cluster * bool) :=
  if is_empty (ID cluster) then
    _ ← emit EvGenerateUUID;
    id ← try (uuid_GenerateUUID_id env);
    mret (with_ID id cluster, true)
  else mret (cluster, modified).

(** Lines 151-215: the private key; the result is [needNewCert]. *)
Definition setup_key (env : Env) : M bool :=
  loaded ← gets localClusterPrivateKey;
  if is_nil loaded then
    entry ← barrier_Get coreLocalClusterKeyPath;
    match entry with
    | None =>
        _ ← emit (EvGenerateKey P521);
        key ← try (ecdsa_GenerateKey env P521);
        rawPrivKeyParams ← try (json_Marshal_privKeyParams E
            {| Type_ := corePrivateKeyTypeP521;
               X := Some (pub_X (PublicKey key));
               Y := Some (pub_Y (PublicKey key));
               D := Some (priv_D key) |});
        barrier_Put coreLocalClusterKeyPath rawPrivKeyParams;;
        modify (set_localClusterPrivateKey (Some key));;
        mret true
    | Some value =>
        params ← try (jsonutil_DecodeJSON_privKeyParams E value);
        match X params, Y params, D params with
        | Some x, Some y, Some d =>
            if String.eqb (Type_ params) corePrivateKeyTypeP521 then
              modify (set_localClusterPrivateKey
                        (Some {| PublicKey := {| pub_Curve := P521; pub_X := x; pub_Y := y |};
                                 priv_D := d |}));;
              mret false
            else fail (Errorf "failed to find valid local cluster key type")
        | _, _, _ => fail (Errorf "failed to parse local cluster key")
        end
    end
  else mret false.

(** Lines 217-260: the certificate. *)
Definition setup_certificate (env : Env) (needNewCert : bool)
    (cluster : Cluster) (modified : bool) : M (Cluster * bool) :=
  addr ← gets advertiseAddr;
  if (needNewCert || no_certificate cluster) && negb (is_empty addr) then
    loaded ← gets localClusterPrivateKey;
    match loaded with
    | None =>
        fail (Errorf "failed to find private key when generating new local cluster certificate")
    | Some key =>
        _ ← emit EvGenerateUUID;
        host ← try (uuid_GenerateUUID_host env);
        let template :=
          certificate_template host (mathrand_Int63 env)
            (time_Now_NotBefore env) (time_Now_NotAfter env) in
        _ ← emit (EvCreateCertificate template template (Public key) key);
        certBytes ← try_Errorf "unable to generate local cluster certificate: "
                      (x509_CreateCertificate env template template (Public key) key);
        _ ← try_Errorf "error parsing generated certificate: "
              (x509_ParseCertificate E certBytes);
        mret (with_Certificate (Some certBytes) cluster, true)
    end
  else mret (cluster, modified).

(** Lines 262-279: the write. *)
Definition setup_store (cluster : Cluster) (modified : bool) : M unit :=
  if modified then
    rawCluster ← try (json_Marshal_Cluster E cluster);
    barrier_Put coreLocalClusterInfoPath rawCluster
  else mret tt.

(** The method [setupCluster] of [Core]. *)
Definition setupCluster (env : Env) : M unit :=
  cluster ← Core_Cluster;
  let cluster := default zero_Cluster cluster in
  '(cluster, modified) ← setup_name env cluster false;
  '(cluster, modified) ← setup_id env cluster modified;
  needNewCert ← setup_key env;
  '(cluster, modified) ← setup_certificate env needNewCert cluster modified;
  setup_store cluster modified.

(** The method [ClusterTLSConfig]. *)
Definition ClusterTLSConfig : M tls_Config :=
  cluster ← Core_Cluster;
  match cluster with
  | None => fail (Errorf "cluster information is nil")
  | Some cluster =>
      if no_certificate cluster then fail (Errorf "cluster certificate is nil")
      else
        parsedCert ← try_Errorf "error parsing local cluster certificate: "
                       (x509_ParseCertificate E (default [] (Certificate cluster)));
        key ← gets localClusterPrivateKey;
        pool ← gets localClusterCertPool;
        mret {| Certificates :=
                  [ {| chain := [Certificate cluster]; PrivateKey := key |} ];
                RootCAs := pool;
                ServerName := CommonName (Subject parsedCert);
                ClientAuth := RequireAndVerifyClientCert;
                ClientCAs := pool;
                NextProtos := ["h2"] |}
  end.

(** The method [SetClusterListenerSetupFunc]; [None] is a nil function, and
    a function is known by what it returns. *)
Definition SetClusterListenerSetupFunc
    (setupFunc : option (fallible (list net_Listener * http_Handler))) : M unit :=
  modify (set_clusterListenerSetupFunc setupFunc).

(** [make(chan struct{})] *)
Definition make_chan : M chan := λ c,
  let ch := length (channels c) in
  (Ok ch, set_channels (channels c ++ [false]) c, [EvMakeChan ch]).

(** The loop of lines 315-324; [tlsLns] is the slice built so far. *)
Fixpoint serve_each (lns : list net_Listener) (handler : http_Handler)
    (tlsConfig : tls_Config) (tlsLns : list tls_Listener) : M (list tls_Listener) :=
  match lns with
  | [] => mret tlsLns
  | ln :: rest =>
      let tlsLn := {| inner := ln; config := tlsConfig |} in
      let tlsLns := tlsLns ++ [tlsLn] in
      emit (EvServe tlsLn handler);;
      modify (λ c, set_serving (serving c ++ [(tlsLn, handler)]) c);;
      serve_each rest handler tlsConfig tlsLns
  end.

(** [go func() { ... }()] of lines 329-336.  The goroutine reads the two
    channel fields while the [stopClusterListener] that wakes it has not
    returned, so they are the channels made just before. *)
Definition go_coordinator (co : coordinator) : M unit := λ c,
  (Ok tt, set_waiting (waiting c ++ [co]) c, [EvGo co]).

(** The method [startClusterListener]. *)
Definition startClusterListener : M unit :=
  shutdownCh ← gets clusterListenerShutdownCh;
  if negb (is_nil shutdownCh) then fail (Errorf "cluster listeners already setup")
  else
    setupFunc ← gets clusterListenerSetupFunc;
    match setupFunc with
    | None => fail (Errorf "cluster listener setup function has not been set")
    | Some f =>
        _ ← emit EvSetupFunc;
        '(lns, handler) ← try f;
        tlsConfig ← ClusterTLSConfig;
        tlsLns ← serve_each lns handler tlsConfig [];
        shutdownCh ← make_chan;
        modify (set_clusterListenerShutdownCh (Some shutdownCh));;
        successCh ← make_chan;
        modify (set_clusterListenerShutdownSuccessCh (Some successCh));;
        go_coordinator {| waits_on := shutdownCh; listeners := tlsLns; signals := successCh |}
    end.

(** [defer d] around a body: [d] runs at every return of the body. *)
Definition defer {A : Type} (d : M unit) (body : M A) : M A := λ c,
  match body c with
  | (r, c1, t1) =>
      match d c1 with
      | (_, c2, t2) => (r, c2, t1 ++ t2)
      end
  end.

Definition addr_is (ac : option activeConnection) (addr : string) : bool :=
  match ac with
  | Some conn => String.eqb (clusterAddr conn) addr
  | None => false
  end.

(** The method [refreshRequestForwardingConnection]. *)
Definition refreshRequestForwardingConnection (addr : string) : M unit :=
  emit EvRLock;;
  conn ← gets requestForwardingConnection;
  if is_nil conn && is_empty addr then emit EvRUnlock
  else if addr_is conn addr then emit EvRUnlock
  else
    emit EvRUnlock;;
    emit EvLock;;
    defer (emit EvUnlock)
      (conn ← gets requestForwardingConnection;
       if addr_is conn addr then mret tt
       else if is_empty addr then modify (set_requestForwardingConnection None)
       else
         (if is_nil conn then
            tlsConfig ← ClusterTLSConfig;
            tp ← try (http2_ConfigureTransport E {| TLSClientConfig := tlsConfig |});
            modify (set_requestForwardingConnection
                      (Some {| Client := {| Transport := tp |}; clusterAddr := "" |}))
          else mret tt);;
         conn ← gets requestForwardingConnection;
         match conn with
         | Some ac =>
             if negb (String.eqb (clusterAddr ac) addr)
             then modify (set_requestForwardingConnection
                            (Some {| Client := Client ac; clusterAddr := addr |}))
             else mret tt
         | None => mret tt
         end).

(** The method [ForwardRequest]. *)
Definition ForwardRequest (req : http_Request) : M http_Response :=
  emit EvRLock;;
  defer (emit EvRUnlock)
    (conn ← gets requestForwardingConnection;
     match conn with
     | None => fail ErrCannotForward
     | Some ac =>
         if is_empty (clusterAddr ac) then fail ErrCannotForward
         else
           freq ← try (requestutil_GenerateForwardedRequest E req (clusterAddr ac));
           emit (EvDo (Client ac) freq);;
           try (http_Client_Do E (Client ac) freq)
     end).

End Methods.

(** ** [stopClusterListener] and the goroutines it waits for *)

(** [close(ch)]: [None] is the panic of closing a closed channel; a
    reference outside the table, which no call makes, counts as closed. *)
Definition close_chan (ch : chan) (c : Core) : option Core :=
  match channels c !! ch with
  | Some false => Some (set_channels (<[ch := true]> (channels c)) c)
  | _ => None
  end.

Definition is_closed (ch : chan) (c : Core) : bool :=
  match channels c !! ch with
  | Some b => b
  | None => false
  end.

Definition tls_Listener_eqb (a b : tls_Listener) : bool :=
  String.eqb (Addr (inner a)) (Addr (inner b)).

(** [tlsLn.Close()]: the serving loop on that listener ends. *)
Definition close_listeners (lns : list tls_Listener) (c : Core) : Core :=
  set_serving
    (filter (λ s, negb (existsb (tls_Listener_eqb s.1) lns)) (serving c)) c.

(** Splits off the first coordinator whose channel has been closed. *)
Fixpoint pick_ready (c : Core) (ws : list coordinator)
  : option (coordinator * list coordinator) :=
  match ws with
  | [] => None
  | co :: rest =>
      if is_closed (waits_on co) c then Some (co, rest)
      else
        match pick_ready c rest with
        | Some (r, others) => Some (r, co :: others)
        | None => None
        end
  end.

(** Runs the body of every coordinator that can go on, until none can;
    [None] is a panic in one of them. *)
Fixpoint run_coordinators (fuel : nat) (c : Core) (t : list event)
  : option (Core * list event) :=
  match fuel with
  | O => Some (c, t)
  | S fuel' =>
      match pick_ready c (waiting c) with
      | None => Some (c, t)
      | Some (co, others) =>
          let c1 := close_listeners (listeners co) (set_waiting others c) in
          match close_chan (signals co) c1 with
          | None => None
          | Some c2 =>
              run_coordinators fuel' c2
                (t ++ map EvCloseListener (listeners co) ++ [EvCloseChan (signals co)])
          end
      end
  end.

(** How a call without results can end. *)
Inductive outcome : Type :=
| Returns (c : Core) (t : list event)
| Panics
| Blocks.

(** The method [stopClusterListener].  The deferred assignments run when the
    function returns, last one first. *)
Definition stopClusterListener (c : Core) : outcome :=
  let closed :=
    match clusterListenerShutdownCh c with
    | Some ch =>
        match close_chan ch c with
        | Some c1 => Some (c1, [EvCloseChan ch], set_clusterListenerShutdownCh None)
        | None => None
        end
    | None => Some (c, [], λ c, c)
    end in
  match closed with
  | None => Panics
  | Some (c1, t1, deferred1) =>
      match clusterListenerShutdownSuccessCh c1 with
      | None => Returns (deferred1 c1) t1
      | Some successCh =>
          match run_coordinators (length (waiting c1)) c1 t1 with
          | None => Panics
          | Some (c2, t2) =>
              if is_closed successCh c2
              then Returns (deferred1 (set_clusterListenerShutdownSuccessCh None c2)) t2
              else Blocks
          end
      end
  end.

(** ** Vocabulary of the statements *)

(** The name as [Cluster] reports it: the configured one wins. *)
Definition reported (name : string) (r : Cluster) : Cluster :=
  if negb (is_empty name) then with_Name name r else r.

(** What [Cluster] returns, as a function of the storage and the name. *)
Definition read_identity (E : Externals) (b : Barrier) (name : string) : result Cluster :=
  if sealed b then Err (Foreign ErrBarrierSealed)
  else
    match entries b !! coreLocalClusterInfoPath with
    | None => Ok zero_Cluster
    | Some value =>
        match jsonutil_DecodeJSON_Cluster E value with
        | inl msg => Err (Errorf ("failed to decode cluster details: " ++ msg))
        | inr r =>
            if no_certificate r then Ok (reported name r)
            else
              match x509_ParseCertificate E (default [] (Certificate r)) with
              | inl msg => Err (Errorf ("error parsing local cluster certificate: " ++ msg))
              | inr _ => Ok (reported name r)
              end
        end
    end.

(** The key a node rebuilds from stored parameters. *)
Definition key_of_params (x y d : Z) : ecdsa_PrivateKey :=
  {| PublicKey := {| pub_Curve := P521; pub_X := x; pub_Y := y |}; priv_D := d |}.

Definition params_of_key (key : ecdsa_PrivateKey) : privKeyParams :=
  {| Type_ := corePrivateKeyTypeP521;
     X := Some (pub_X (PublicKey key));
     Y := Some (pub_Y (PublicKey key));
     D := Some (priv_D key) |}.

(** The entry kept under a storage key. *)
Definition stored_at (key : string) (c : Core) : option bytes := entries (barrier c) !! key.

(** The identity record as it is stored, when it is there and decodes. *)
Definition stored_identity (E : Externals) (c : Core) : option Cluster :=
  match stored_at coreLocalClusterInfoPath c with
  | Some value =>
      match jsonutil_DecodeJSON_Cluster E value with
      | inr r => Some r
      | inl _ => None
      end
  | None => None
  end.

(** [later E names c c']: [c'] comes after [c] through calls of [Cluster] and
    [setupCluster], made by cores whose configured name satisfies [names],
    with restarts and other nodes on the same storage in between. *)
Inductive later (E : Externals) (names : string → Prop) : Core → Core → Prop :=
| later_here (c : Core) : later E names c c
| later_Cluster (c c' : Core) :
    later E names c c' → names (clusterName c') →
    later E names c (core_of (Core_Cluster E c'))
| later_setupCluster (env : Env) (c c' : Core) :
    later E names c c' → names (clusterName c') →
    later E names c (core_of (setupCluster E env c'))
| later_elsewhere (c c' c'' : Core) :
    later E names c c' → barrier c'' = barrier c' →
    later E names c c''.

(** What a trace shows: the arguments of the calls of
    [x509.CreateCertificate], the entries handed to the barrier's [Put], the
    keys generated, the requests sent. *)
Definition created (t : list event)
  : list (x509_Certificate * x509_Certificate * ecdsa_PublicKey * ecdsa_PrivateKey) :=
  omap (λ ev, match ev with
              | EvCreateCertificate template parent pub priv =>
                  Some (template, parent, pub, priv)
              | _ => None
              end) t.

Definition writes (t : list event) : list (string * bytes) :=
  omap (λ ev, match ev with EvPut key value => Some (key, value) | _ => None end) t.

Definition generated_keys (t : list event) : list elliptic_Curve :=
  omap (λ ev, match ev with EvGenerateKey curve => Some curve | _ => None end) t.

(** A key was generated during the trace. *)
Definition key_generated (t : list event) : bool :=
  match generated_keys t with
  | [] => false
  | _ :: _ => true
  end.

Definition sent (t : list event) : list (http_Client * http_Request) :=
  omap (λ ev, match ev with EvDo client req => Some (client, req) | _ => None end) t.

(** No certificate is stored: the record is absent, or its field is empty. *)
Definition no_stored_certificate (E : Externals) (c : Core) : bool :=
  match stored_identity E c with
  | Some r => no_certificate r
  | None => true
  end.

(** The key usages a certificate has and has not. *)
Definition has_usage (cert : x509_Certificate) (usage : Z) : bool :=
  negb (Z.land (KeyUsage cert) usage =? 0)%Z.

(** The two errors of [setupCluster] about stored key material. *)
Definition InvalidKeyMaterial (e : error) : Prop :=
  e = Errorf "failed to parse local cluster key" ∨
  e = Errorf "failed to find valid local cluster key type".

(** The steps of [setupCluster] that come before the key have what they
    need: the identity can be read, and the random source answers where a
    name or an identifier has to be made. *)
Definition identity_in_reach (E : Externals) (env : Env) (c : Core) : Prop :=
  ∃ cl0,
    read_identity E (barrier c) (clusterName c) = Ok cl0 ∧
    (Name cl0 = "" → clusterName c = "" → ∃ b, uuid_GenerateRandomBytes env 4 = inr b) ∧
    (ID cl0 = "" → ∃ id, uuid_GenerateUUID_id env = inr id).

(** The two errors of [ClusterTLSConfig] about a missing identity. *)
Definition NoIdentity (e : error) : Prop :=
  e = Errorf "cluster information is nil" ∨ e = Errorf "cluster certificate is nil".

(** The configuration lines 378-392 build. *)
Definition cluster_tls_config (der : option bytes) (key : option ecdsa_PrivateKey)
    (pool : option (list x509_Certificate)) (parsedCert : x509_Certificate) : tls_Config :=
  {| Certificates := [ {| chain := [der]; PrivateKey := key |} ];
     RootCAs := pool;
     ServerName := CommonName (Subject parsedCert);
     ClientAuth := RequireAndVerifyClientCert;
     ClientCAs := pool;
     NextProtos := ["h2"] |}.


(** The two errors of [startClusterListener] about its own state. *)
Definition AlreadyRunning : error := Errorf "cluster listeners already setup".
Definition NotConfigured : error :=
  Errorf "cluster listener setup function has not been set".

(** The exclusive lock was taken during the trace. *)
Definition took_write_lock (t : list event) : bool :=
  existsb (λ ev, match ev with EvLock => true | _ => false end) t.

(** [n] rounds of starting the cluster listener and stopping it again;
    [None] when a start fails or a stop does not return. *)
Fixpoint cycles (E : Externals) (n : nat) (c : Core) : option Core :=
  match n with
  | O => Some c
  | S n' =>
      match startClusterListener E c with
      | (Ok _, c1, _) =>
          match stopClusterListener c1 with
          | Returns c2 _ => cycles E n' c2
          | _ => None
          end
      | _ => None
      end
  end.

(** The certificate is stored and parses, so [ClusterTLSConfig] succeeds. *)
Definition tls_ready (E : Externals) (c : Core) : Prop :=
  sealed (barrier c) = false ∧
  ∃ r der parsedCert,
    stored_identity E c = Some r ∧ Certificate r = Some der ∧ der ≠ [] ∧
    x509_ParseCertificate E der = inr parsedCert.

(** The listener is not running and can be started. *)
Definition listener_idle (E : Externals) (c : Core) : Prop :=
  clusterListenerShutdownCh c = None ∧
  clusterListenerShutdownSuccessCh c = None ∧
  waiting c = [] ∧
  (∃ lns handler, clusterListenerSetupFunc c = Some (inr (lns, handler))) ∧
  tls_ready E c.

(** The record and the flag between two steps of a run that goes on. *)
Definition on_track (E : Externals) (c : Core) (cluster : Cluster) (modified : bool) : Prop :=
  sealed (barrier c) = false ∧
  Name cluster ≠ "" ∧
  (clusterName c ≠ "" → Name cluster = clusterName c) ∧
  (no_certificate cluster = false →
   ∃ cert, x509_ParseCertificate E (default [] (Certificate cluster)) = inr cert) ∧
  (modified = false → read_identity E (barrier c) (clusterName c) = Ok cluster).

(** The random sources, the encoders and the certificate functions answer
    without error during a call of [setupCluster]. *)
Definition cooperative (E : Externals) (env : Env) : Prop :=
  (∃ b, uuid_GenerateRandomBytes env 4 = inr b) ∧
  (∃ id, uuid_GenerateUUID_id env = inr id) ∧
  (∃ key, ecdsa_GenerateKey env P521 = inr key) ∧
  (∃ host, uuid_GenerateUUID_host env = inr host) ∧
  (∀ template parent pub priv,
     ∃ der cert,
       x509_CreateCertificate env template parent pub priv = inr der ∧
       x509_ParseCertificate E der = inr cert) ∧
  (∀ params, ∃ raw, json_Marshal_privKeyParams E params = inr raw) ∧
  (∀ cluster, ∃ raw, json_Marshal_Cluster E cluster = inr raw).

(** The stored key material cannot be used: the key is not loaded, and the
    key entry does not decode, lacks a component or has another tag. *)
Definition key_rejected (E : Externals) (c : Core) : Prop :=
  localClusterPrivateKey c = None ∧
  sealed (barrier c) = false ∧
  ∃ value,
    stored_at coreLocalClusterKeyPath c = Some value ∧
    match jsonutil_DecodeJSON_privKeyParams E value with
    | inl _ => True
    | inr params =>
        X params = None ∨ Y params = None ∨ D params = None ∨
        Type_ params ≠ corePrivateKeyTypeP521
    end.

(** A core on which [setupCluster] has nothing left to do. *)
Definition settled (E : Externals) (c : Core) : Prop :=
  sealed (barrier c) = false ∧
  is_Some (localClusterPrivateKey c) ∧
  ∃ cluster,
    read_identity E (barrier c) (clusterName c) = Ok cluster ∧
    Name cluster ≠ "" ∧ ID cluster ≠ "" ∧
    (advertiseAddr c ≠ "" → no_certificate cluster = false).

(** ** What is assumed of the collaborators *)

(** Decoding what [json.Marshal] produced for a [Cluster] gives it back. *)
Definition codec_roundtrip (E : Externals) : Prop :=
  ∀ cluster raw,
    json_Marshal_Cluster E cluster = inr raw →
    jsonutil_DecodeJSON_Cluster E raw = inr cluster.

(** [x509.ParseCertificate] rejects an empty input. *)
Definition parse_rejects_empty (E : Externals) : Prop :=
  ∀ cert, x509_ParseCertificate E [] ≠ inr cert.

(** ** A sample instance of the collaborators *)

Module Sample.

Import Init.Byte.

(** A length-prefixed framing: the length in unary, a zero byte, the data. *)
Definition frame (l : bytes) : bytes := repeat x01 (length l) ++ x00 :: l.

Fixpoint unframe_count (b : bytes) : option (nat * bytes) :=
  match b with
  | x00 :: rest => Some (O, rest)
  | x01 :: rest =>
      match unframe_count rest with
      | Some (n, r) => Some (S n, r)
      | None => None
      end
  | _ => None
  end.

Definition unframe (b : bytes) : option (bytes * bytes) :=
  match unframe_count b with
  | Some (n, rest) =>
      if (n <=? length rest)%nat then Some (firstn n rest, skipn n rest) else None
  | None => None
  end.

Definition marshal_Cluster (cluster : Cluster) : fallible bytes :=
  inr (frame (list_byte_of_string (Name cluster))
       ++ frame (list_byte_of_string (ID cluster))
       ++ match Certificate cluster with
          | None => [x00]
          | Some der => x01 :: frame der
          end).

Definition decode_certificate (b : bytes) : option (option bytes) :=
  match b with
  | [x00] => Some None
  | x01 :: rest =>
      match unframe rest with
      | Some (der, []) => Some (Some der)
      | _ => None
      end
  | _ => None
  end.

Definition decode_Cluster (b : bytes) : fallible Cluster :=
  match unframe b with
  | Some (name, rest) =>
      match unframe rest with
      | Some (id, rest') =>
          match decode_certificate rest' with
          | Some cert =>
              inr {| Name := string_of_list_byte name;
                     ID := string_of_list_byte id;
                     Certificate := cert |}
          | None => inl "unexpected end of JSON input"
          end
      | None => inl "unexpected end of JSON input"
      end
  | None => inl "unexpected end of JSON input"
  end.

(** Key material is kept as the three numbers, each below 256, after the
    tag; a missing number is the byte [xff]. *)
Definition byte_of_component (z : option Z) : byte :=
  match z with
  | Some v => default xff (Strings.Byte.of_N (Z.to_N v))
  | None => xff
  end.

Definition component_of_byte (b : byte) : option Z :=
  match b with
  | xff => None
  | _ => Some (Z.of_N (Strings.Byte.to_N b))
  end.

Definition marshal_privKeyParams (p : privKeyParams) : fallible bytes :=
  inr (byte_of_component (X p) :: byte_of_component (Y p) :: byte_of_component (D p)
       :: list_byte_of_string (Type_ p)).

Definition decode_privKeyParams (b : bytes) : fallible privKeyParams :=
  match b with
  | x :: y :: d :: tag =>
      inr {| Type_ := string_of_list_byte tag;
             X := component_of_byte x;
             Y := component_of_byte y;
             D := component_of_byte d |}
  | _ => inl "unexpected end of JSON input"
  end.

(** The sample DER form of a certificate is the sequence tag followed by the
    text of its common name. *)
Definition create_certificate (template : x509_Certificate) : fallible bytes :=
  inr (x30 :: list_byte_of_string (CommonName (Subject template))).

Definition parse_certificate (der : bytes) : fallible x509_Certificate :=
  match der with
  | x30 :: rest => inr (certificate_template (string_of_list_byte rest) 0 0 0)
  | _ => inl "asn1: syntax error: sequence truncated"
  end.

Definition E : Externals :=
  {| json_Marshal_Cluster := marshal_Cluster;
     jsonutil_DecodeJSON_Cluster := decode_Cluster;
     json_Marshal_privKeyParams := marshal_privKeyParams;
     jsonutil_DecodeJSON_privKeyParams := decode_privKeyParams;
     x509_ParseCertificate := parse_certificate;
     http2_ConfigureTransport := λ tp, inr tp;
     requestutil_GenerateForwardedRequest :=
       λ req addr, inr {| request_text := addr ++ " " ++ request_text req |};
     http_Client_Do := λ _ req, inr {| response_text := "200 " ++ request_text req |} |}.

Definition key : ecdsa_PrivateKey :=
  {| PublicKey := {| pub_Curve := P521; pub_X := 11; pub_Y := 22 |}; priv_D := 33 |}.

Definition env : Env :=
  {| uuid_GenerateRandomBytes := λ n, inr (repeat xab n);
     uuid_GenerateUUID_id := inr "6ba7b810-9dad-11d1-80b4-00c04fd430c8";
     ecdsa_GenerateKey := λ _, inr key;
     uuid_GenerateUUID_host := inr "f81d4fae-7dec-11d0-a765-00a0c91e6bf6";
     mathrand_Int63 := 5577006791947779410;
     time_Now_NotBefore := 1477872000000000000;
     time_Now_NotAfter := 1477872000000000001;
     x509_CreateCertificate := λ template _ _ _, create_certificate template |}.

(** A core that has just been unsealed over an empty storage. *)
Definition fresh (name addr : string) : Core :=
  {| barrier := {| sealed := false; entries := ∅ |};
     clusterName := name;
     advertiseAddr := addr;
     localClusterPrivateKey := None;
     localClusterCertPool := None;
     clusterListenerSetupFunc := None;
     clusterListenerShutdownCh := None;
     clusterListenerShutdownSuccessCh := None;
     requestForwardingConnection := None;
     channels := [];
     serving := [];
     waiting := [] |}.

(** The storage that holds one identity record and nothing else. *)
Definition storage_with (cluster : Cluster) : Barrier :=
  {| sealed := false;
     entries :=
       match marshal_Cluster cluster with
       | inr raw => {[ coreLocalClusterInfoPath := raw ]}
       | inl _ => ∅
       end |}.

Definition named : Cluster :=
  {| Name := "vault-cluster-abababab";
     ID := "6ba7b810-9dad-11d1-80b4-00c04fd430c8";
     Certificate := None |}.

(** A node that starts on the storage of [named] with [cluster_name] set in
    its configuration file and an advertise address. *)
Definition renamed : Core :=
  {| barrier := storage_with named;
     clusterName := "testcluster";
     advertiseAddr := "https://127.0.0.1:8201";
     localClusterPrivateKey := None;
     localClusterCertPool := None;
     clusterListenerSetupFunc := None;
     clusterListenerShutdownCh := None;
     clusterListenerShutdownSuccessCh := None;
     requestForwardingConnection := None;
     channels := [];
     serving := [];
     waiting := [] |}.

(** The storage after a first node, advertising an address, has set up the
    cluster: name, id, key and certificate are stored. *)
Definition booted : Core :=
  core_of (setupCluster E env (fresh "" "https://127.0.0.1:8201")).

(** The same node once the host has registered its setup function. *)
Definition ready : Core :=
  core_of (SetClusterListenerSetupFunc
             (Some (inr ([ {| Addr := "127.0.0.1:8201" |} ], {| handler_id := "mux" |})))
             booted).

(** A standby that has learnt the cluster address of the active node. *)
Definition connected : Core :=
  core_of (refreshRequestForwardingConnection E "https://127.0.0.1:8202" booted).

(** A second node that starts on the storage the first one left. *)
Definition joining : Core :=
  {| barrier := barrier booted;
     clusterName := "";
     advertiseAddr := "https://127.0.0.1:8205";
     localClusterPrivateKey := None;
     localClusterCertPool := None;
     clusterListenerSetupFunc := None;
     clusterListenerShutdownCh := None;
     clusterListenerShutdownSuccessCh := None;
     requestForwardingConnection := None;
     channels := [];
     serving := [];
     waiting := [] |}.





End Sample.

(** ** Vocabulary of the further statements *)

(** The storage keys a trace asks the barrier for, the serving loops it
    starts and the listeners it closes. *)
Definition reads (t : list event) : list string :=
  omap (λ ev, match ev with EvGet key => Some key | _ => None end) t.

Definition served (t : list event) : list (tls_Listener * http_Handler) :=
  omap (λ ev, match ev with EvServe ln handler => Some (ln, handler) | _ => None end) t.

Definition closed_listeners (t : list event) : list tls_Listener :=
  omap (λ ev, match ev with EvCloseListener ln => Some ln | _ => None end) t.

(** The storage once a list of entries has been put, the first one first. *)
Definition apply_writes (b : Barrier) (ws : list (string * bytes)) : Barrier :=
  {| sealed := sealed b;
     entries := foldl (λ m w, <[w.1 := w.2]> m) (entries b) ws |}.

(** The certificate pool as [Cluster] leaves it: untouched when the record
    cannot be fetched or decoded, otherwise created if it was nil, with the
    stored certificate added when that parses. *)
Definition pool_after (E : Externals) (c : Core) : option (list x509_Certificate) :=
  if sealed (barrier c) then localClusterCertPool c
  else
    match stored_identity E c with
    | None => localClusterCertPool c
    | Some r =>
        let pool := default [] (localClusterCertPool c) in
        if no_certificate r then Some pool
        else
          match x509_ParseCertificate E (default [] (Certificate r)) with
          | inl _ => Some pool
          | inr cert => Some (CertPool_AddCert pool cert)
          end
    end.

(** The stored key material [value] decodes to the parameters it was encoded
    from. *)
Definition key_decodes_back (E : Externals) (value : bytes) : Prop :=
  ∀ params,
    json_Marshal_privKeyParams E params = inr value →
    jsonutil_DecodeJSON_privKeyParams E value = inr params.

(** The errors a call of [setupCluster] or of [ClusterTLSConfig] can end in:
    an error of a collaborator handed on as it is, an error about the stored
    key material, or the error of a collaborator under one of four
    headings. *)
Definition error_heading (e : error) : Prop :=
  ∃ msg,
    e = Errorf ("failed to decode cluster details: " ++ msg) ∨
    e = Errorf ("error parsing local cluster certificate: " ++ msg) ∨
    e = Errorf ("unable to generate local cluster certificate: " ++ msg) ∨
    e = Errorf ("error parsing generated certificate: " ++ msg).

Definition handed_on (e : error) : Prop := ∃ msg, e = Foreign msg.

(** The error of line 221 and the error of line 367. *)
Definition MissingPrivateKey : error :=
  Errorf "failed to find private key when generating new local cluster certificate".
Definition NilInformation : error := Errorf "cluster information is nil".

(** The value of a hexadecimal digit in lower case: the number below
    sixteen that [hex_digit] writes as this character. *)
Definition unhex_digit (a : ascii) : option N :=
  List.find (λ n, Ascii.eqb (hex_digit n) a) (map N.of_nat (seq 0 16)).

(** Reads a text of hexadecimal digit pairs back into bytes. *)
Fixpoint bytes_of_hex (s : string) : option bytes :=
  match s with
  | "" => Some []
  | String hi (String lo rest) =>
      match unhex_digit hi, unhex_digit lo, bytes_of_hex rest with
      | Some h, Some l, Some b =>
          match Strings.Byte.of_N (16 * h + l) with
          | Some x => Some (x :: b)
          | None => None
          end
      | _, _, _ => None
      end
  | String _ "" => None
  end.

(** What one goroutine holds of [requestForwardingConnectionWriteLock]. *)
Inductive held : Type :=
| Unlocked
| ReadLocked
| WriteLocked.

(** One event against the lock: [None] when the goroutine unlocks what it
    does not hold, or locks again what it holds (which blocks for ever on a
    [sync.RWMutex] once a writer waits). *)
Definition lock_step (h : held) (ev : event) : option held :=
  match ev with
  | EvRLock => match h with Unlocked => Some ReadLocked | _ => None end
  | EvRUnlock => match h with ReadLocked => Some Unlocked | _ => None end
  | EvLock => match h with Unlocked => Some WriteLocked | _ => None end
  | EvUnlock => match h with WriteLocked => Some Unlocked | _ => None end
  | _ => Some h
  end.

Fixpoint locking (h : held) (t : list event) : option held :=
  match t with
  | [] => Some h
  | ev :: rest =>
      match lock_step h ev with
      | Some h' => locking h' rest
      | None => None
      end
  end.

(** The lock held at each request sent during a trace. *)
Fixpoint held_at_Do (h : held) (t : list event) : list held :=
  match t with
  | [] => []
  | ev :: rest =>
      let here := match ev with EvDo _ _ => [h] | _ => [] end in
      here ++ held_at_Do (default h (lock_step h ev)) rest
  end.

(** Calls of [refreshRequestForwardingConnection] one after the other, as
    the addresses of the active node come in; stops at the first error. *)
Fixpoint refresh_each (E : Externals) (addrs : list string) : M unit :=
  match addrs with
  | [] => mret tt
  | addr :: rest =>
      refreshRequestForwardingConnection E addr;;
      refresh_each E rest
  end.

(** The key the generator hands out is encoded to something that decodes to
    its parameters again. *)
Definition generated_key_decodes (E : Externals) (env : Env) : Prop :=
  ∀ key raw,
    ecdsa_GenerateKey env P521 = inr key →
    json_Marshal_privKeyParams E (params_of_key key) = inr raw →
    jsonutil_DecodeJSON_privKeyParams E raw = inr (params_of_key key).

(** ** vault/testing.go *)

(** How a test helper ends: it returns, or the test is stopped by
    [t.Fatal], or the goroutine panics. *)
Inductive ending (A : Type) : Type :=
| Returned (a : A)
| Fatal (msg : string)
| Panicked (why : string).
Arguments Returned {A} a.
Arguments Fatal {A} msg.
Arguments Panicked {A} why.

Definition nil_dereference : string :=
  "runtime error: invalid memory address or nil pointer dereference".

(** [fmt.Sprintf("%d", n)] *)
Definition sprintf_d (n : Z) : string :=
  DecimalString.NilZero.string_of_int (Z.to_int n).

(** A buffer after [data] has been written at its start. *)
Definition written (buf data : bytes) : bytes :=
  take (List.length buf) data ++ drop (List.length data) buf.

(** [make([]byte, n)] *)
Definition make_bytes (n : Z) : bytes := repeat Byte.x00 (Z.to_nat n).

(** [GenerateRandBytes].  [rand_Read], for a buffer of the given length,
    tells the bytes that [crypto/rand.Read] wrote into it, the count it
    returned and its error; the second result lists the lengths of the
    buffers handed to it. *)
Definition GenerateRandBytes (rand_Read : nat → bytes * Z * option string) (length : Z)
  : result bytes * list nat :=
  if (length <? 0)%Z then (Err (Errorf "length must be >= 0"), [])
  else
    let buf := make_bytes length in
    if (length =? 0)%Z then (Ok buf, [])
    else
      match rand_Read (List.length buf) with
      | (_, _, Some msg) => (Err (Foreign msg), [List.length buf])
      | (data, n, None) =>
          if negb (n =? length)%Z then
            (Err (Errorf ("unable to read " ++ sprintf_d length
                          ++ " bytes; only read " ++ sprintf_d n)),
             [List.length buf])
          else (Ok (written buf data), [List.length buf])
      end.

(** [for k, v := range src { dst[k] = v }] *)
Definition copy_into {V : Type} (src dst : gmap string V) : gmap string V :=
  map_fold (λ k v acc, <[k := v]> acc) dst src.

(** The backend factories the file names; [GivenFactory] is one that comes
    from a caller. *)
Inductive logical_Factory : Type :=
| NoopBackendFactory
| RawHTTPFactory
| LeasedPassthroughBackendFactory
| PassthroughBackendFactory
| GivenFactory (id : string).

Inductive audit_Factory : Type :=
| NoopAuditFactory
| GivenAuditFactory (id : string).

Inductive physical_Backend : Type :=
| NewInmem
| NewInmemHA.

(** [AddTestLogicalBackend]; the package variable [testLogicalBackends] is
    passed in and handed back, a nil factory is [None]. *)
Definition AddTestLogicalBackend (name : string) (factory : option logical_Factory)
    (testLogicalBackends : gmap string logical_Factory)
  : result unit * gmap string logical_Factory :=
  if is_empty name then (Err (Errorf "Missing backend name"), testLogicalBackends)
  else
    match factory with
    | None => (Err (Errorf "Missing backend factory function"), testLogicalBackends)
    | Some f => (Ok tt, <[name := f]> testLogicalBackends)
    end.

(** [CoreConfig], the fields the file sets; a nil map is [None]. *)
Record CoreConfig : Type := {
  Physical : option physical_Backend;
  HAPhysical : option physical_Backend;
  AuditBackends : option (gmap string audit_Factory);
  LogicalBackends : option (gmap string logical_Factory);
  CredentialBackends : option (gmap string logical_Factory);
  AdvertiseAddr : string;
  ClusterAddr : string;
  DisableMlock : bool;
  Seal : option string
}.

(** The configuration [TestCoreWithSeal] hands to [NewCore] (lines 72 to
    122); the package variable [testLogicalBackends] is passed in. *)
Definition TestCoreWithSeal_config (testSeal : option string)
    (testLogicalBackends : gmap string logical_Factory) : CoreConfig :=
  let noopAudits : gmap string audit_Factory := {[ "noop" := NoopAuditFactory ]} in
  let noopBackends : gmap string logical_Factory :=
    <["http" := RawHTTPFactory]> (<["noop" := NoopBackendFactory]> ∅) in
  let logicalBackends := copy_into noopBackends ∅ in
  let logicalBackends := <["generic" := LeasedPassthroughBackendFactory]> logicalBackends in
  let logicalBackends := copy_into testLogicalBackends logicalBackends in
  {| Physical := Some NewInmem;
     HAPhysical := None;
     AuditBackends := Some noopAudits;
     LogicalBackends := Some logicalBackends;
     CredentialBackends := Some noopBackends;
     AdvertiseAddr := "";
     ClusterAddr := "";
     DisableMlock := true;
     Seal := testSeal |}.

(** [TestCluster] up to the third call of [NewCore] (lines 427 to 486):
    the cores made, and the configurations [NewCore] was called with.  The
    configuration is one object whose addresses are reassigned between the
    calls; [handlers] and [base] may be nil. *)
Definition TestCluster_cores {C : Type} (NewCore : CoreConfig → fallible C)
    (handlers : option (list (option http_Handler))) (base : option CoreConfig)
  : ending (C * C * C) * list CoreConfig :=
  if negb (len handlers =? 3)%nat then (Fatal "handlers must be size 3", [])
  else
    match base with
    | None => (Panicked nil_dereference, [])
    | Some b =>
        let clusterAddr :=
          if negb (is_empty (ClusterAddr b)) then ClusterAddr b else "https://127.0.0.1:8203" in
        let logical := <["generic" := PassthroughBackendFactory]> ∅ in
        let logical := copy_into (default ∅ (LogicalBackends b)) logical in
        let credential := copy_into (default ∅ (CredentialBackends b)) ∅ in
        let audits := copy_into (default ∅ (AuditBackends b)) ∅ in
        let coreConfig advertise cluster :=
          {| Physical := Some NewInmem;
             HAPhysical := Some NewInmemHA;
             AuditBackends := Some audits;
             LogicalBackends := Some logical;
             CredentialBackends := Some credential;
             AdvertiseAddr := advertise;
             ClusterAddr := cluster;
             DisableMlock := true;
             Seal := None |} in
        let config1 := coreConfig "http://127.0.0.1:8202" clusterAddr in
        let config2 := coreConfig "http://127.0.0.1:8206" "https://127.0.0.1:8207" in
        let config3 := coreConfig "http://127.0.0.1:8208" "https://127.0.0.1:8209" in
        match NewCore config1 with
        | inl err => (Fatal ("err: " ++ err), [config1])
        | inr c1 =>
            match NewCore config2 with
            | inl err => (Fatal ("err: " ++ err), [config1; config2])
            | inr c2 =>
                match NewCore config3 with
                | inl err => (Fatal ("err: " ++ err), [config1; config2; config3])
                | inr c3 => (Returned (c1, c2, c3), [config1; config2; config3])
                end
            end
        end
    end.

(** * Properties *)

(** ** The definitions at work *)

Example sprintf_cluster_name_deadbeef :
  sprintf_cluster_name [Byte.xde; Byte.xad; Byte.xbe; Byte.xef] = "vault-cluster-deadbeef".
Proof. reflexivity. Qed.

Example sprintf_08x_pads : sprintf_08x [Byte.x0a; Byte.xff] = "00000aff".
Proof. reflexivity. Qed.

Example template_KeyUsage : KeyUsage (certificate_template "host" 1 0 0) = 53%Z.
Proof. reflexivity. Qed.

Example first_boot_stores :
  stored_identity Sample.E Sample.booted =
    Some {| Name := "vault-cluster-abababab";
            ID := "6ba7b810-9dad-11d1-80b4-00c04fd430c8";
            Certificate :=
              Some (Byte.x30 :: list_byte_of_string "f81d4fae-7dec-11d0-a765-00a0c91e6bf6") |}.
Proof. vm_compute. reflexivity. Qed.

Example first_boot_events :
  writes (events_of (setupCluster Sample.E Sample.env
                       (Sample.fresh "" "https://127.0.0.1:8201")))
  = [ (coreLocalClusterKeyPath,
       [Byte.x0b; Byte.x16; Byte.x21; Byte.x70; Byte.x35; Byte.x32; Byte.x31]);
      (coreLocalClusterInfoPath,
       default [] (stored_at coreLocalClusterInfoPath Sample.booted)) ].
Proof. vm_compute. reflexivity. Qed.

Example sealed_core_fails :
  result_of (setupCluster Sample.E Sample.env
               (set_barrier {| sealed := true; entries := ∅ |} (Sample.fresh "" "")))
  = Err (Foreign ErrBarrierSealed).
Proof. reflexivity. Qed.

(** ** The monad *)

Lemma bind_inv {A B : Type} (m : M A) (f : A → M B) (c : Core) r c2 t :
  (m ≫= f) c = (r, c2, t) →
  (∃ e, m c = (Err e, c2, t) ∧ r = Err e) ∨
  (∃ a c1 t1 t2, m c = (Ok a, c1, t1) ∧ f a c1 = (r, c2, t2) ∧ t = t1 ++ t2).
Proof.
  unfold mbind, M_bind. destruct (m c) as [[[a|e] c1] t1].
  - destruct (f a c1) as [[r' c2'] t2] eqn:Hf. intros [= <- <- <-].
    right. exists a, c1, t1, t2. auto.
  - intros [= <- <- <-]. left. exists e. auto.
Qed.

Lemma bind_Ok {A B : Type} (m : M A) (f : A → M B) (c : Core) a c1 t1 :
  m c = (Ok a, c1, t1) →
  (m ≫= f) c = (result_of (f a c1), core_of (f a c1), t1 ++ events_of (f a c1)).
Proof.
  intros Hm. unfold mbind, M_bind. rewrite Hm.
  destruct (f a c1) as [[r c2] t2]. reflexivity.
Qed.

Lemma bind_Err {A B : Type} (m : M A) (f : A → M B) (c : Core) e c1 t1 :
  m c = (Err e, c1, t1) → (m ≫= f) c = (Err e, c1, t1).
Proof. intros Hm. unfold mbind, M_bind. rewrite Hm. reflexivity. Qed.

Lemma triple_eta {A : Type} (x : result A * Core * list event) :
  x = (result_of x, core_of x, events_of x).
Proof. destruct x as [[r c] t]. reflexivity. Qed.

Lemma is_empty_true (s : string) : is_empty s = true ↔ s = "".
Proof. unfold is_empty. apply String.eqb_eq. Qed.

Lemma is_empty_false (s : string) : is_empty s = false ↔ s ≠ "".
Proof. unfold is_empty. apply String.eqb_neq. Qed.

Lemma set_pool_same (c : Core) : set_localClusterCertPool (localClusterCertPool c) c = c.
Proof. destruct c. reflexivity. Qed.

Lemma paths_differ : coreLocalClusterKeyPath ≠ coreLocalClusterInfoPath.
Proof. discriminate. Qed.

(** ** Reading the identity *)

Section Reading.

Context (E : Externals).

Lemma reported_ID name r : ID (reported name r) = ID r.
Proof. unfold reported. destruct (negb (is_empty name)); reflexivity. Qed.

Lemma reported_Certificate name r : Certificate (reported name r) = Certificate r.
Proof. unfold reported. destruct (negb (is_empty name)); reflexivity. Qed.

Lemma reported_no_certificate name r : no_certificate (reported name r) = no_certificate r.
Proof. unfold no_certificate. rewrite reported_Certificate. reflexivity. Qed.

Lemma reported_Name name r :
  Name (reported name r) = if is_empty name then Name r else name.
Proof. unfold reported. destruct (is_empty name); reflexivity. Qed.

(** [Cluster] touches nothing but the certificate pool, asks the barrier
    once, and returns what [read_identity] says. *)
Lemma Core_Cluster_spec (c : Core) :
  ∃ pool,
    Core_Cluster E c =
      (match read_identity E (barrier c) (clusterName c) with
       | Ok cl => Ok (Some cl)
       | Err e => Err e
       end,
       set_localClusterCertPool pool c,
       [EvGet coreLocalClusterInfoPath]).
Proof.
  unfold Core_Cluster, read_identity, reported, no_certificate, mbind, M_bind, barrier_Get.
  destruct c as [[sl en] name addr key pool f ch1 ch2 conn chs sv wt]; simpl.
  destruct sl; [eexists; reflexivity|].
  destruct (en !! coreLocalClusterInfoPath) as [value|]; [|eexists; reflexivity].
  destruct (jsonutil_DecodeJSON_Cluster E value) as [msg|[n i cert]]; simpl;
    [eexists; reflexivity|].
  destruct (is_empty name), pool as [p|], cert as [der|]; simpl;
    try (eexists; reflexivity);
    destruct (length der =? 0)%nat; simpl; try (eexists; reflexivity);
    destruct (x509_ParseCertificate E der); simpl; eexists; reflexivity.
Qed.

End Reading.

(** ** The steps of [setupCluster], case by case *)

Section Steps.

Context (E : Externals) (env : Env).

Lemma setup_name_eq (cluster : Cluster) (modified : bool) (c : Core) :
  setup_name env cluster modified c =
    if is_empty (Name cluster) then
      if is_empty (clusterName c) then
        match uuid_GenerateRandomBytes env 4 with
        | inl msg => (Err (Foreign msg), c, [EvGenerateRandomBytes 4])
        | inr b =>
            (Ok (with_Name (sprintf_cluster_name b) cluster, true),
             set_clusterName (sprintf_cluster_name b) c,
             [EvGenerateRandomBytes 4])
        end
      else (Ok (with_Name (clusterName c) cluster, true), c, [])
    else (Ok (cluster, modified), c, []).
Proof.
  unfold setup_name, mbind, M_bind.
  destruct (is_empty (Name cluster)); [|reflexivity].
  simpl. destruct (is_empty (clusterName c)); [|reflexivity].
  simpl. destruct (uuid_GenerateRandomBytes env 4); reflexivity.
Qed.

Lemma setup_id_eq (cluster : Cluster) (modified : bool) (c : Core) :
  setup_id env cluster modified c =
    if is_empty (ID cluster) then
      match uuid_GenerateUUID_id env with
      | inl msg => (Err (Foreign msg), c, [EvGenerateUUID])
      | inr id => (Ok (with_ID id cluster, true), c, [EvGenerateUUID])
      end
    else (Ok (cluster, modified), c, []).
Proof.
  unfold setup_id, mbind, M_bind.
  destruct (is_empty (ID cluster)); [|reflexivity].
  simpl. destruct (uuid_GenerateUUID_id env); reflexivity.
Qed.

Lemma setup_key_eq (c : Core) :
  setup_key E env c =
    match localClusterPrivateKey c with
    | Some _ => (Ok false, c, [])
    | None =>
        if sealed (barrier c)
        then (Err (Foreign ErrBarrierSealed), c, [EvGet coreLocalClusterKeyPath])
        else
          match entries (barrier c) !! coreLocalClusterKeyPath with
          | None =>
              match ecdsa_GenerateKey env P521 with
              | inl msg =>
                  (Err (Foreign msg), c, [EvGet coreLocalClusterKeyPath; EvGenerateKey P521])
              | inr key =>
                  match json_Marshal_privKeyParams E (params_of_key key) with
                  | inl msg =>
                      (Err (Foreign msg), c,
                       [EvGet coreLocalClusterKeyPath; EvGenerateKey P521])
                  | inr raw =>
                      (Ok true,
                       set_localClusterPrivateKey (Some key)
                         (set_barrier
                            {| sealed := sealed (barrier c);
                               entries := <[coreLocalClusterKeyPath := raw]>
                                            (entries (barrier c)) |} c),
                       [EvGet coreLocalClusterKeyPath; EvGenerateKey P521;
                        EvPut coreLocalClusterKeyPath raw])
                  end
              end
          | Some value =>
              match jsonutil_DecodeJSON_privKeyParams E value with
              | inl msg => (Err (Foreign msg), c, [EvGet coreLocalClusterKeyPath])
              | inr params =>
                  match X params, Y params, D params with
                  | Some x, Some y, Some d =>
                      if String.eqb (Type_ params) corePrivateKeyTypeP521
                      then (Ok false,
                            set_localClusterPrivateKey (Some (key_of_params x y d)) c,
                            [EvGet coreLocalClusterKeyPath])
                      else (Err (Errorf "failed to find valid local cluster key type"), c,
                            [EvGet coreLocalClusterKeyPath])
                  | _, _, _ =>
                      (Err (Errorf "failed to parse local cluster key"), c,
                       [EvGet coreLocalClusterKeyPath])
                  end
              end
          end
    end.
Proof.
  unfold setup_key, params_of_key, key_of_params, mbind, M_bind, barrier_Get, barrier_Put.
  destruct c as [[sl en] name addr key pool f ch1 ch2 conn chs sv wt]; simpl.
  destruct key; [reflexivity|]. simpl.
  destruct sl; [reflexivity|].
  destruct (en !! coreLocalClusterKeyPath) as [value|].
  - destruct (jsonutil_DecodeJSON_privKeyParams E value) as [msg|[ty x y d]];
      [reflexivity|]. simpl.
    destruct x, y, d; try reflexivity.
    destruct (String.eqb ty corePrivateKeyTypeP521); reflexivity.
  - simpl. destruct (ecdsa_GenerateKey env P521) as [msg|k]; [reflexivity|]. simpl.
    destruct (json_Marshal_privKeyParams E _) as [msg|raw]; reflexivity.
Qed.

Lemma setup_certificate_eq (needNewCert : bool) (cluster : Cluster) (modified : bool)
    (c : Core) :
  setup_certificate E env needNewCert cluster modified c =
    if (needNewCert || no_certificate cluster) && negb (is_empty (advertiseAddr c)) then
      match localClusterPrivateKey c with
      | None =>
          (Err (Errorf
             "failed to find private key when generating new local cluster certificate"),
           c, [])
      | Some key =>
          match uuid_GenerateUUID_host env with
          | inl msg => (Err (Foreign msg), c, [EvGenerateUUID])
          | inr host =>
              let template :=
                certificate_template host (mathrand_Int63 env)
                  (time_Now_NotBefore env) (time_Now_NotAfter env) in
              let t := [EvGenerateUUID;
                        EvCreateCertificate template template (Public key) key] in
              match x509_CreateCertificate env template template (Public key) key with
              | inl msg =>
                  (Err (Errorf ("unable to generate local cluster certificate: " ++ msg)),
                   c, t)
              | inr certBytes =>
                  match x509_ParseCertificate E certBytes with
                  | inl msg =>
                      (Err (Errorf ("error parsing generated certificate: " ++ msg)), c, t)
                  | inr _ => (Ok (with_Certificate (Some certBytes) cluster, true), c, t)
                  end
              end
          end
      end
    else (Ok (cluster, modified), c, []).
Proof.
  unfold setup_certificate, mbind, M_bind. simpl.
  destruct ((needNewCert || no_certificate cluster) && negb (is_empty (advertiseAddr c)));
    [|reflexivity].
  destruct (localClusterPrivateKey c) as [key|]; [|reflexivity]. simpl.
  destruct (uuid_GenerateUUID_host env) as [msg|host]; [reflexivity|]. simpl.
  destruct (x509_CreateCertificate env _ _ _ _) as [msg|certBytes]; [reflexivity|]. simpl.
  destruct (x509_ParseCertificate E certBytes); reflexivity.
Qed.

Lemma setup_store_eq (cluster : Cluster) (modified : bool) (c : Core) :
  setup_store E cluster modified c =
    if modified then
      match json_Marshal_Cluster E cluster with
      | inl msg => (Err (Foreign msg), c, [])
      | inr raw =>
          if sealed (barrier c)
          then (Err (Foreign ErrBarrierSealed), c, [EvPut coreLocalClusterInfoPath raw])
          else (Ok tt,
                set_barrier
                  {| sealed := sealed (barrier c);
                     entries := <[coreLocalClusterInfoPath := raw]> (entries (barrier c)) |}
                  c,
                [EvPut coreLocalClusterInfoPath raw])
      end
    else (Ok tt, c, []).
Proof.
  unfold setup_store, mbind, M_bind, barrier_Put.
  destruct modified; [|reflexivity].
  destruct (json_Marshal_Cluster E cluster) as [msg|raw]; [reflexivity|]. simpl.
  destruct (sealed (barrier c)); reflexivity.
Qed.

End Steps.

(** ** What a successful [setupCluster] leaves behind *)

Section Settling.

Context (E : Externals).

Lemma with_Name_same (cluster : Cluster) : with_Name (Name cluster) cluster = cluster.
Proof. destruct cluster. reflexivity. Qed.

Lemma reported_fixed (name : string) (cluster : Cluster) :
  (name ≠ "" → Name cluster = name) → reported name cluster = cluster.
Proof.
  intros H. unfold reported. destruct (is_empty name) eqn:Hn; simpl; [reflexivity|].
  apply is_empty_false in Hn. rewrite <- (H Hn). apply with_Name_same.
Qed.

Lemma read_identity_unsealed b name cluster :
  read_identity E b name = Ok cluster → sealed b = false.
Proof. unfold read_identity. destruct (sealed b); [discriminate|reflexivity]. Qed.

Lemma read_identity_Name b name cluster :
  read_identity E b name = Ok cluster → Name cluster ≠ "" → name ≠ "" → Name cluster = name.
Proof.
  unfold read_identity. intros H Hc Hn.
  destruct (sealed b); [discriminate|].
  destruct (entries b !! coreLocalClusterInfoPath) as [value|].
  2:{ injection H as <-. contradiction Hc. reflexivity. }
  apply is_empty_false in Hn.
  destruct (jsonutil_DecodeJSON_Cluster E value) as [msg|r]; [discriminate|].
  destruct (no_certificate r).
  - injection H as <-. rewrite reported_Name, Hn. reflexivity.
  - destruct (x509_ParseCertificate E _); [discriminate|].
    injection H as <-. rewrite reported_Name, Hn. reflexivity.
Qed.

Lemma read_identity_parses b name cluster :
  read_identity E b name = Ok cluster →
  no_certificate cluster = false →
  ∃ cert, x509_ParseCertificate E (default [] (Certificate cluster)) = inr cert.
Proof.
  unfold read_identity. intros H Hc.
  destruct (sealed b); [discriminate|].
  destruct (entries b !! coreLocalClusterInfoPath) as [value|].
  2:{ injection H as <-. discriminate Hc. }
  destruct (jsonutil_DecodeJSON_Cluster E value) as [msg|r]; [discriminate|].
  destruct (no_certificate r) eqn:Hr.
  - injection H as <-. rewrite reported_no_certificate in Hc. congruence.
  - destruct (x509_ParseCertificate E _) as [|cert] eqn:Hp; [discriminate|].
    injection H as <-. rewrite reported_Certificate. eauto.
Qed.

(** Reading back a record that has just been written. *)
Lemma read_identity_written b name cluster raw :
  codec_roundtrip E →
  json_Marshal_Cluster E cluster = inr raw →
  (name ≠ "" → Name cluster = name) →
  (no_certificate cluster = false →
   ∃ cert, x509_ParseCertificate E (default [] (Certificate cluster)) = inr cert) →
  read_identity E
    {| sealed := false; entries := <[coreLocalClusterInfoPath := raw]> (entries b) |} name
  = Ok cluster.
Proof.
  intros Hrt Hm Hname Hparse. unfold read_identity. simpl.
  rewrite lookup_insert_eq, (Hrt _ _ Hm).
  rewrite (reported_fixed _ _ Hname).
  destruct (no_certificate cluster); [reflexivity|].
  destruct Hparse as [cert ->]; reflexivity.
Qed.

(** The key entry is not the identity entry. *)
Lemma read_identity_key_written b name raw :
  read_identity E
    {| sealed := sealed b; entries := <[coreLocalClusterKeyPath := raw]> (entries b) |} name
  = read_identity E b name.
Proof.
  unfold read_identity. simpl.
  rewrite lookup_insert_ne by apply paths_differ. reflexivity.
Qed.

Lemma sprintf_cluster_name_nonempty b : sprintf_cluster_name b ≠ "".
Proof. discriminate. Qed.

Lemma on_track_name env c cl0 cl1 m1 c1 t1 :
  read_identity E (barrier c) (clusterName c) = Ok cl0 →
  setup_name env cl0 false c = (Ok (cl1, m1), c1, t1) →
  on_track E c1 cl1 m1 ∧ barrier c1 = barrier c ∧
  advertiseAddr c1 = advertiseAddr c ∧
  localClusterPrivateKey c1 = localClusterPrivateKey c ∧
  ID cl1 = ID cl0 ∧ Certificate cl1 = Certificate cl0 ∧
  (m1 = false → clusterName c1 = clusterName c).
Proof.
  intros Hread Hstep. rewrite setup_name_eq in Hstep.
  pose proof (read_identity_unsealed _ _ _ Hread) as Hs.
  assert (Hp : ∀ n, no_certificate (with_Name n cl0) = false →
    ∃ cert, x509_ParseCertificate E (default [] (Certificate (with_Name n cl0))) = inr cert).
  { intros n Hn. apply (read_identity_parses _ _ _ Hread Hn). }
  destruct (is_empty (Name cl0)) eqn:Hn.
  - destruct (is_empty (clusterName c)) eqn:Hc.
    + destruct (uuid_GenerateRandomBytes env 4) as [msg|b]; [discriminate|].
      injection Hstep as <- <- <- <-. unfold on_track. simpl.
      repeat split; auto using sprintf_cluster_name_nonempty; try apply Hp; discriminate.
    + injection Hstep as <- <- <- <-. apply is_empty_false in Hc.
      unfold on_track. simpl. repeat split; auto; try apply Hp; discriminate.
  - injection Hstep as <- <- <- <-. apply is_empty_false in Hn.
    unfold on_track. repeat split; auto.
    + intros Hc. apply (read_identity_Name _ _ _ Hread Hn Hc).
    + apply (read_identity_parses _ _ _ Hread).
Qed.

Lemma on_track_id env c cl1 m1 cl2 m2 c2 t2 :
  (∀ id, uuid_GenerateUUID_id env = inr id → id ≠ "") →
  on_track E c cl1 m1 →
  setup_id env cl1 m1 c = (Ok (cl2, m2), c2, t2) →
  on_track E c2 cl2 m2 ∧ c2 = c ∧ ID cl2 ≠ "" ∧
  Certificate cl2 = Certificate cl1 ∧ (m2 = false → m1 = false) ∧ writes t2 = [].
Proof.
  intros Hid (Hs & Hn & Hc & Hp & Hr) Hstep. rewrite setup_id_eq in Hstep.
  destruct (is_empty (ID cl1)) eqn:Hi.
  - destruct (uuid_GenerateUUID_id env) as [msg|id] eqn:Hu; [discriminate|].
    injection Hstep as <- <- <- <-. unfold on_track. simpl.
    repeat split; auto. discriminate. discriminate.
  - injection Hstep as <- <- <- <-. apply is_empty_false in Hi.
    unfold on_track. repeat split; auto.
Qed.

Lemma on_track_key env c cl m need c3 t3 :
  on_track E c cl m →
  setup_key E env c = (Ok need, c3, t3) →
  on_track E c3 cl m ∧ is_Some (localClusterPrivateKey c3) ∧
  advertiseAddr c3 = advertiseAddr c ∧ clusterName c3 = clusterName c ∧
  stored_at coreLocalClusterInfoPath c3 = stored_at coreLocalClusterInfoPath c.
Proof.
  intros (Hs & Hn & Hc & Hp & Hr) Hstep. rewrite setup_key_eq in Hstep.
  destruct (localClusterPrivateKey c) as [key|] eqn:Hk.
  { injection Hstep as <- <- <-. rewrite Hk. unfold on_track. repeat split; eauto. }
  rewrite Hs in Hstep.
  destruct (entries (barrier c) !! coreLocalClusterKeyPath) as [value|].
  - destruct (jsonutil_DecodeJSON_privKeyParams E value) as [msg|params]; [discriminate|].
    destruct (X params), (Y params), (D params); try discriminate.
    destruct (String.eqb _ _); [|discriminate].
    injection Hstep as <- <- <-. unfold on_track. simpl. repeat split; eauto.
  - destruct (ecdsa_GenerateKey env P521) as [msg|k]; [discriminate|].
    destruct (json_Marshal_privKeyParams E _) as [msg|raw]; [discriminate|].
    injection Hstep as <- <- <-. unfold on_track, stored_at. simpl.
    rewrite lookup_insert_ne by apply paths_differ.
    repeat split; eauto.
    intros Hm. rewrite <- Hs at 1. rewrite read_identity_key_written. auto.
Qed.

Lemma on_track_certificate env c need cl m cl4 m4 c4 t4 :
  parse_rejects_empty E →
  on_track E c cl m →
  setup_certificate E env need cl m c = (Ok (cl4, m4), c4, t4) →
  on_track E c4 cl4 m4 ∧ c4 = c ∧ ID cl4 = ID cl ∧
  (advertiseAddr c ≠ "" → no_certificate cl4 = false) ∧ (m4 = false → m = false) ∧
  (advertiseAddr c = "" → cl4 = cl ∧ m4 = m).
Proof.
  intros Hempty (Hs & Hn & Hc & Hp & Hr) Hstep. rewrite setup_certificate_eq in Hstep.
  destruct ((need || no_certificate cl) && negb (is_empty (advertiseAddr c))) eqn:Hcond.
  - assert (Hadv : advertiseAddr c ≠ "").
    { intros Ha. rewrite Ha in Hcond. simpl in Hcond. rewrite andb_false_r in Hcond.
      discriminate. }
    destruct (localClusterPrivateKey c) as [key|]; [|discriminate].
    destruct (uuid_GenerateUUID_host env) as [msg|host]; [discriminate|].
    simpl in Hstep.
    destruct (x509_CreateCertificate env _ _ _ _) as [msg|der]; [discriminate|].
    destruct (x509_ParseCertificate E der) as [msg|cert] eqn:Hparse; [discriminate|].
    injection Hstep as <- <- <- <-.
    assert (Hder : no_certificate (with_Certificate (Some der) cl) = false).
    { unfold no_certificate. simpl. destruct der; [|reflexivity].
      exfalso. apply (Hempty cert Hparse). }
    unfold on_track. simpl. repeat split; eauto; try discriminate; contradiction.
  - injection Hstep as <- <- <- <-. unfold on_track. repeat split; auto.
    intros Ha. apply is_empty_false in Ha. rewrite Ha in Hcond. simpl in Hcond.
    rewrite andb_true_r in Hcond. apply orb_false_elim in Hcond. tauto.
Qed.

End Settling.

(** ** Taking a run of [setupCluster] apart *)

Section Runs.

Context (E : Externals).

(** A run that returns no error went through every step. *)
Lemma setupCluster_Ok_inv env c c' t :
  setupCluster E env c = (Ok tt, c', t) →
  ∃ pool cl0 cl1 m1 c1 t1 cl2 m2 c2 t2 need c3 t3 cl4 m4 c4 t4 t5,
    read_identity E (barrier c) (clusterName c) = Ok cl0 ∧
    setup_name env cl0 false (set_localClusterCertPool pool c) = (Ok (cl1, m1), c1, t1) ∧
    setup_id env cl1 m1 c1 = (Ok (cl2, m2), c2, t2) ∧
    setup_key E env c2 = (Ok need, c3, t3) ∧
    setup_certificate E env need cl2 m2 c3 = (Ok (cl4, m4), c4, t4) ∧
    setup_store E cl4 m4 c4 = (Ok tt, c', t5) ∧
    t = [EvGet coreLocalClusterInfoPath] ++ t1 ++ t2 ++ t3 ++ t4 ++ t5.
Proof.
  unfold setupCluster. intros H.
  destruct (Core_Cluster_spec E c) as [pool Hcl].
  apply bind_inv in H as [(e & H & [=]) | (cl & c0 & t0 & ta & H0 & H & ->)].
  rewrite Hcl in H0.
  destruct (read_identity E (barrier c) (clusterName c)) as [cl0|e] eqn:Hread;
    [|discriminate].
  injection H0 as <- <- <-. simpl in H.
  apply bind_inv in H as [(e & H & [=]) | ([cl1 m1] & c1 & t1 & tb & H1 & H & ->)].
  apply bind_inv in H as [(e & H & [=]) | ([cl2 m2] & c2 & t2 & tc & H2 & H & ->)].
  apply bind_inv in H as [(e & H & [=]) | (need & c3 & t3 & td & H3 & H & ->)].
  apply bind_inv in H as [(e & H & [=]) | ([cl4 m4] & c4 & t4 & t5 & H4 & H & ->)].
  exists pool, cl0, cl1, m1, c1, t1, cl2, m2, c2, t2, need, c3, t3, cl4, m4, c4, t4, t5.
  repeat split; assumption.
Qed.

(** The other way round: the steps, put together. *)
Lemma setupCluster_steps env c pool cl0 cl1 m1 c1 t1 cl2 m2 c2 t2 need c3 t3 cl4 m4 c4 t4 r c5 t5 :
  Core_Cluster E c =
    (Ok (Some cl0), set_localClusterCertPool pool c, [EvGet coreLocalClusterInfoPath]) →
  setup_name env cl0 false (set_localClusterCertPool pool c) = (Ok (cl1, m1), c1, t1) →
  setup_id env cl1 m1 c1 = (Ok (cl2, m2), c2, t2) →
  setup_key E env c2 = (Ok need, c3, t3) →
  setup_certificate E env need cl2 m2 c3 = (Ok (cl4, m4), c4, t4) →
  setup_store E cl4 m4 c4 = (r, c5, t5) →
  setupCluster E env c =
    (r, c5, [EvGet coreLocalClusterInfoPath] ++ t1 ++ t2 ++ t3 ++ t4 ++ t5).
Proof.
  intros H0 H1 H2 H3 H4 H5. unfold setupCluster.
  rewrite (bind_Ok _ _ _ _ _ _ H0). simpl.
  rewrite (bind_Ok _ _ _ _ _ _ H1). simpl.
  rewrite (bind_Ok _ _ _ _ _ _ H2). simpl.
  rewrite (bind_Ok _ _ _ _ _ _ H3). simpl.
  rewrite (bind_Ok _ _ _ _ _ _ H4). simpl.
  rewrite H5. reflexivity.
Qed.

Lemma Core_Cluster_Ok c cl0 :
  read_identity E (barrier c) (clusterName c) = Ok cl0 →
  ∃ pool, Core_Cluster E c =
    (Ok (Some cl0), set_localClusterCertPool pool c, [EvGet coreLocalClusterInfoPath]).
Proof.
  intros H. destruct (Core_Cluster_spec E c) as [pool Hcl].
  exists pool. rewrite Hcl, H. reflexivity.
Qed.

(** What a successful run leaves: the identity as it is read afterwards,
    whether the record was written, and the certificate it carries. *)
Lemma setupCluster_Ok_summary env c c' t :
  codec_roundtrip E → parse_rejects_empty E →
  (∀ id, uuid_GenerateUUID_id env = inr id → id ≠ "") →
  setupCluster E env c = (Ok tt, c', t) →
  ∃ cl0 cl (modified : bool),
    read_identity E (barrier c) (clusterName c) = Ok cl0 ∧
    read_identity E (barrier c') (clusterName c') = Ok cl ∧
    sealed (barrier c') = false ∧
    is_Some (localClusterPrivateKey c') ∧
    advertiseAddr c' = advertiseAddr c ∧
    Name cl ≠ "" ∧ ID cl ≠ "" ∧
    (advertiseAddr c ≠ "" → no_certificate cl = false) ∧
    (if modified then stored_identity E c' = Some cl
     else stored_at coreLocalClusterInfoPath c' = stored_at coreLocalClusterInfoPath c
          ∧ clusterName c' = clusterName c) ∧
    (advertiseAddr c = "" → Certificate cl = Certificate cl0).
Proof.
  intros Hrt Hempty Hid H.
  apply setupCluster_Ok_inv in H
    as (pool & cl0 & cl1 & m1 & c1 & t1 & cl2 & m2 & c2 & t2 & need & c3 & t3
        & cl4 & m4 & c4 & t4 & t5 & Hread & H1 & H2 & H3 & H4 & H5 & ->).
  apply (on_track_name E) in H1 as (T1 & Hb1 & Ha1 & Hk1 & Hi1 & Hc1 & Hm1); [|exact Hread].
  apply (on_track_id E) in H2 as (T2 & -> & Hi2 & Hc2 & Hm2 & _); [|exact Hid|exact T1].
  apply (on_track_key E env c1 cl2 m2) in H3 as (T3 & Hk3 & Ha3 & Hn3 & Hst3); [|exact T2].
  apply (on_track_certificate E) in H4 as (T4 & -> & Hi4 & Hcert & Hm4 & Hskip);
    [|exact Hempty|exact T3].
  assert (Hadv : advertiseAddr c3 = advertiseAddr c).
  { rewrite Ha3, Ha1. reflexivity. }
  assert (Hkeep : advertiseAddr c = "" → Certificate cl4 = Certificate cl0).
  { intros Ha. rewrite <- Hadv in Ha. destruct (Hskip Ha) as [-> _]. congruence. }
  rewrite Hadv in Hcert.
  destruct T4 as (Hs & Hn & Hc & Hp & Hr).
  exists cl0, cl4, m4.
  rewrite setup_store_eq in H5. destruct m4.
  - destruct (json_Marshal_Cluster E cl4) as [msg|raw] eqn:Hm; [discriminate|].
    rewrite Hs in H5. injection H5 as <-. unfold stored_identity, stored_at. simpl.
    rewrite lookup_insert_eq, (Hrt _ _ Hm).
    repeat split; try assumption; try congruence.
    apply read_identity_written; assumption.
  - injection H5 as <-.
    repeat split; try assumption; try congruence.
    + apply Hr. reflexivity.
    + unfold stored_at in *. rewrite Hst3, Hb1. reflexivity.
    + rewrite Hn3. apply Hm1. auto.
Qed.

(** A successful run ends on a settled core. *)
Lemma setupCluster_settles env c c' t :
  codec_roundtrip E → parse_rejects_empty E →
  (∀ id, uuid_GenerateUUID_id env = inr id → id ≠ "") →
  setupCluster E env c = (Ok tt, c', t) →
  settled E c'.
Proof.
  intros Hrt Hempty Hid H.
  destruct (setupCluster_Ok_summary env c c' t Hrt Hempty Hid H)
    as (cl0 & cl & m & _ & Hread & Hs & Hk & Ha & Hn & Hi & Hc & _).
  unfold settled. rewrite Ha. eauto 10.
Qed.

(** On a settled core a run reads the identity and does nothing else. *)
Lemma settled_fixed env c :
  settled E c →
  ∃ pool, setupCluster E env c =
    (Ok tt, set_localClusterCertPool pool c, [EvGet coreLocalClusterInfoPath]).
Proof.
  intros (Hs & [key Hk] & cl & Hread & Hn & Hi & Hc).
  destruct (Core_Cluster_Ok c cl Hread) as [pool H0]. exists pool.
  apply is_empty_false in Hn, Hi.
  rewrite (setupCluster_steps env c pool cl cl false (set_localClusterCertPool pool c) []
             cl false (set_localClusterCertPool pool c) []
             false (set_localClusterCertPool pool c) []
             cl false (set_localClusterCertPool pool c) []
             (Ok tt) (set_localClusterCertPool pool c) []); try reflexivity; try assumption.
  - rewrite setup_name_eq, Hn. reflexivity.
  - rewrite setup_id_eq, Hi. reflexivity.
  - rewrite setup_key_eq. simpl. rewrite Hk. reflexivity.
  - rewrite setup_certificate_eq. simpl. rewrite Hk.
    destruct (is_empty (advertiseAddr c)) eqn:Ha.
    + rewrite andb_false_r. reflexivity.
    + apply is_empty_false in Ha. rewrite (Hc Ha). reflexivity.
Qed.

End Runs.

(** ** The sample collaborators keep the assumptions *)

Module SampleFacts.

Import Init.Byte.

Lemma unframe_count_frame (n : nat) (rest : bytes) :
  Sample.unframe_count (repeat x01 n ++ x00 :: rest) = Some (n, rest).
Proof.
  induction n as [|n IH]; simpl; [reflexivity|]. rewrite IH. reflexivity.
Qed.

Lemma unframe_frame (l rest : bytes) :
  Sample.unframe (Sample.frame l ++ rest) = Some (l, rest).
Proof.
  unfold Sample.unframe, Sample.frame.
  rewrite <- app_assoc. simpl. rewrite unframe_count_frame.
  rewrite length_app.
  destruct (Nat.leb_spec (length l) (length l + length rest)) as [_|Hlt]; [|lia].
  rewrite take_app_length, drop_app_length. reflexivity.
Qed.

Lemma roundtrip : codec_roundtrip Sample.E.
Proof.
  intros [name id cert] raw. simpl. unfold Sample.marshal_Cluster. simpl.
  intros [= <-]. unfold Sample.decode_Cluster.
  rewrite unframe_frame, unframe_frame.
  rewrite !string_of_list_byte_of_string.
  destruct cert as [der|]; simpl; [|reflexivity].
  rewrite <- (app_nil_r (Sample.frame der)), unframe_frame. reflexivity.
Qed.

Lemma rejects_empty : parse_rejects_empty Sample.E.
Proof. intros cert. discriminate. Qed.

Lemma id_nonempty : ∀ id, uuid_GenerateUUID_id Sample.env = inr id → id ≠ "".
Proof. intros id [= <-]. discriminate. Qed.

Lemma cooperative : cooperative Sample.E Sample.env.
Proof.
  unfold cooperative.
  split; [eexists; reflexivity|]. split; [eexists; reflexivity|].
  split; [eexists; reflexivity|]. split; [eexists; reflexivity|].
  split; [intros template parent pub priv; do 2 eexists; split; reflexivity|].
  split; [intros params|intros cluster]; eexists; reflexivity.
Qed.

End SampleFacts.

(** ** The stored identity across calls *)

Section Stability.

Context (E : Externals).

Lemma setup_key_frame env c r c' t :
  setup_key E env c = (r, c', t) →
  stored_at coreLocalClusterInfoPath c' = stored_at coreLocalClusterInfoPath c ∧
  sealed (barrier c') = sealed (barrier c) ∧
  clusterName c' = clusterName c ∧ advertiseAddr c' = advertiseAddr c.
Proof.
  rewrite setup_key_eq. unfold stored_at.
  destruct (localClusterPrivateKey c); [intros [= <- <- <-]; auto|].
  destruct (sealed (barrier c)) eqn:Hs; [intros [= <- <- <-]; auto|].
  destruct (entries (barrier c) !! coreLocalClusterKeyPath) as [value|].
  - destruct (jsonutil_DecodeJSON_privKeyParams E value) as [msg|params];
      [intros [= <- <- <-]; auto|].
    destruct (X params), (Y params), (D params); try (intros [= <- <- <-]; auto).
    destruct (String.eqb _ _); intros [= <- <- <-]; auto.
  - destruct (ecdsa_GenerateKey env P521) as [msg|k]; [intros [= <- <- <-]; auto|].
    destruct (json_Marshal_privKeyParams E _) as [msg|raw]; intros [= <- <- <-]; auto.
    simpl. rewrite lookup_insert_ne by apply paths_differ. auto.
Qed.

Lemma setup_certificate_frame env need cl m c r c' t :
  setup_certificate E env need cl m c = (r, c', t) →
  c' = c ∧ ∀ cl' m', r = Ok (cl', m') → Name cl' = Name cl ∧ ID cl' = ID cl.
Proof.
  rewrite setup_certificate_eq.
  destruct (_ && _).
  - destruct (localClusterPrivateKey c) as [key|];
      [|intros [= <- <- <-]; split; [reflexivity|discriminate]].
    destruct (uuid_GenerateUUID_host env) as [msg|host];
      [intros [= <- <- <-]; split; [reflexivity|discriminate]|].
    simpl.
    destruct (x509_CreateCertificate env _ _ _ _) as [msg|der];
      [intros [= <- <- <-]; split; [reflexivity|discriminate]|].
    destruct (x509_ParseCertificate E der);
      intros [= <- <- <-]; (split; [reflexivity|]).
    + discriminate.
    + intros cl' m' [= <- <-]. auto.
  - intros [= <- <- <-]. split; [reflexivity|]. intros cl' m' [= <- <-]. auto.
Qed.

Lemma setup_store_frame cl m c r c' t :
  setup_store E cl m c = (r, c', t) →
  clusterName c' = clusterName c ∧
  (stored_at coreLocalClusterInfoPath c' = stored_at coreLocalClusterInfoPath c ∨
   ∃ raw, json_Marshal_Cluster E cl = inr raw ∧
          stored_at coreLocalClusterInfoPath c' = Some raw).
Proof.
  rewrite setup_store_eq. unfold stored_at.
  destruct m; [|intros [= <- <- <-]; auto].
  destruct (json_Marshal_Cluster E cl) as [msg|raw] eqn:Hm; [intros [= <- <- <-]; auto|].
  destruct (sealed (barrier c)) eqn:Hs; intros [= <- <- <-]; [auto|].
  split; [reflexivity|]. right. exists raw. simpl. rewrite lookup_insert_eq. auto.
Qed.

(** The stored record with a name and an identifier, and what [Cluster]
    makes of it. *)
Lemma read_identity_of_stored c r cl0 :
  stored_identity E c = Some r →
  read_identity E (barrier c) (clusterName c) = Ok cl0 →
  cl0 = reported (clusterName c) r.
Proof.
  unfold stored_identity, stored_at, read_identity.
  destruct (sealed (barrier c)); [discriminate|].
  destruct (entries (barrier c) !! coreLocalClusterInfoPath) as [value|]; [|discriminate].
  destruct (jsonutil_DecodeJSON_Cluster E value) as [msg|r']; [discriminate|].
  intros [= <-].
  destruct (no_certificate r'); [congruence|].
  destruct (x509_ParseCertificate E _); congruence.
Qed.

(** One call of [setupCluster] on a stored record that has a name and an
    identifier. *)
Lemma setupCluster_keeps_identity env c r :
  codec_roundtrip E →
  stored_identity E c = Some r → Name r ≠ "" → ID r ≠ "" →
  ∃ r', stored_identity E (core_of (setupCluster E env c)) = Some r' ∧
        ID r' = ID r ∧
        (Name r' = Name r ∨ (clusterName c ≠ "" ∧ Name r' = clusterName c)).
Proof.
  intros Hrt Hst Hn Hi.
  destruct (setupCluster E env c) as [[res c'] t] eqn:H. unfold core_of. simpl.
  assert (Hsame : stored_at coreLocalClusterInfoPath c' = stored_at coreLocalClusterInfoPath c →
    ∃ r', stored_identity E c' = Some r' ∧ ID r' = ID r ∧
          (Name r' = Name r ∨ (clusterName c ≠ "" ∧ Name r' = clusterName c))).
  { intros Heq. exists r. unfold stored_identity in *. rewrite Heq. auto. }
  unfold setupCluster in H.
  destruct (Core_Cluster_spec E c) as [pool Hcl].
  apply bind_inv in H as [(e & H & ->) | (cl & c0 & t0 & ta & H0 & H & ->)].
  { rewrite Hcl in H. injection H as _ <- _. apply Hsame. reflexivity. }
  rewrite Hcl in H0.
  destruct (read_identity E (barrier c) (clusterName c)) as [cl0|e] eqn:Hread;
    [|discriminate].
  injection H0 as <- <- <-. simpl in H.
  pose proof (read_identity_of_stored c r cl0 Hst Hread) as ->.
  assert (Hn0 : is_empty (Name (reported (clusterName c) r)) = false).
  { apply is_empty_false. rewrite reported_Name.
    destruct (is_empty (clusterName c)) eqn:Hc; [exact Hn|]. apply is_empty_false, Hc. }
  assert (Hi0 : is_empty (ID (reported (clusterName c) r)) = false).
  { apply is_empty_false. rewrite reported_ID. exact Hi. }
  apply bind_inv in H as [(e & H & ->) | ([cl1 m1] & c1 & t1 & tb & H1 & H & ->)];
    rewrite setup_name_eq, Hn0 in *; [discriminate|]. injection H1 as <- <- <- <-.
  apply bind_inv in H as [(e & H & ->) | ([cl2 m2] & c2 & t2 & tc & H2 & H & ->)];
    rewrite setup_id_eq, Hi0 in *; [discriminate|]. injection H2 as <- <- <- <-.
  apply bind_inv in H as [(e & H & ->) | (need & c3 & t3 & td & H3 & H & ->)].
  { apply setup_key_frame in H as (Hk & _). apply Hsame. rewrite Hk. reflexivity. }
  apply setup_key_frame in H3 as (Hk & _ & Hkn & _).
  apply bind_inv in H as [(e & H & ->) | ([cl4 m4] & c4 & t4 & t5 & H4 & H & ->)].
  { apply setup_certificate_frame in H as (-> & _). apply Hsame. rewrite Hk. reflexivity. }
  apply setup_certificate_frame in H4 as (-> & Hcl4).
  destruct (Hcl4 _ _ eq_refl) as (Hname & Hid).
  apply setup_store_frame in H as (_ & [Hs | (raw & Hm & Hs)]).
  { apply Hsame. rewrite Hs, Hk. reflexivity. }
  exists cl4. unfold stored_identity. rewrite Hs, (Hrt _ _ Hm).
  split; [reflexivity|]. rewrite Hname, Hid, reported_ID, reported_Name.
  split; [reflexivity|].
  destruct (is_empty (clusterName c)) eqn:Hc; [left; reflexivity|].
  right. split; [apply is_empty_false, Hc|reflexivity].
Qed.

Lemma Core_Cluster_keeps_storage c : barrier (core_of (Core_Cluster E c)) = barrier c.
Proof.
  destruct (Core_Cluster_spec E c) as [pool ->]. reflexivity.
Qed.

End Stability.

(** C1, as amended.  Take a stored identity record with a non-empty name and
    a non-empty id.  Whatever calls of [Cluster] and [setupCluster] follow,
    on this node or on others sharing the storage and whatever name their
    configuration sets, the stored record keeps its id and keeps a non-empty
    name; and as long as the configured name of the calling cores is empty
    or equal to the stored name, the stored name stays the same too. *)
Theorem stored_identity_stable (E : Externals) (c : Core) (r : Cluster) :
  codec_roundtrip E →
  stored_identity E c = Some r → Name r ≠ "" → ID r ≠ "" →
  (∀ c', later E (λ _, True) c c' →
     ∃ r', stored_identity E c' = Some r' ∧ ID r' = ID r ∧ Name r' ≠ "") ∧
  (∀ c', later E (λ name, name = "" ∨ name = Name r) c c' →
     ∃ r', stored_identity E c' = Some r' ∧ ID r' = ID r ∧ Name r' = Name r).
Proof.
  intros Hrt Hst Hn Hi. split.
  - intros c' Hl.
    induction Hl as [c | c c' Hl IH _ | env c c' Hl IH _ | c c' c'' Hl IH Hb].
    + exists r. auto.
    + destruct (IH Hst) as (r' & Hs' & Hi' & Hn'). exists r'.
      unfold stored_identity, stored_at in *.
      rewrite Core_Cluster_keeps_storage. auto.
    + destruct (IH Hst) as (r' & Hs' & Hi' & Hn').
      destruct (setupCluster_keeps_identity E env c' r' Hrt Hs' Hn')
        as (r'' & Hs'' & Hi'' & Hn''); [congruence|].
      exists r''. split; [exact Hs''|]. split; [congruence|].
      destruct Hn'' as [-> | [Hc ->]]; assumption.
    + destruct (IH Hst) as (r' & Hs' & Hi' & Hn'). exists r'.
      unfold stored_identity, stored_at in *. rewrite Hb. auto.
  - intros c' Hl.
    induction Hl as [c | c c' Hl IH _ | env c c' Hl IH Hc | c c' c'' Hl IH Hb].
    + exists r. auto.
    + destruct (IH Hst) as (r' & Hs' & Hi' & Hn'). exists r'.
      unfold stored_identity, stored_at in *.
      rewrite Core_Cluster_keeps_storage. auto.
    + destruct (IH Hst) as (r' & Hs' & Hi' & Hn').
      destruct (setupCluster_keeps_identity E env c' r' Hrt Hs')
        as (r'' & Hs'' & Hi'' & Hn''); [congruence|congruence|].
      exists r''. split; [exact Hs''|]. split; [congruence|].
      destruct Hn'' as [-> | [Hne ->]]; [exact Hn'|].
      destruct Hc as [Hc | Hc]; [contradiction|exact Hc].
    + destruct (IH Hst) as (r' & Hs' & Hi' & Hn'). exists r'.
      unfold stored_identity, stored_at in *. rewrite Hb. auto.
Qed.

Lemma stored_identity_stable_witness :
  (∀ c', later Sample.E (λ _, True) Sample.renamed c' →
     ∃ r', stored_identity Sample.E c' = Some r' ∧ ID r' = ID Sample.named ∧ Name r' ≠ "") ∧
  (∀ c', later Sample.E (λ name, name = "" ∨ name = Name Sample.named) Sample.renamed c' →
     ∃ r', stored_identity Sample.E c' = Some r' ∧ ID r' = ID Sample.named
           ∧ Name r' = Name Sample.named).
Proof.
  apply (stored_identity_stable Sample.E Sample.renamed Sample.named).
  - exact SampleFacts.roundtrip.
  - vm_compute. reflexivity.
  - discriminate.
  - discriminate.
Defined.

(** C1 as it was stated fails: the node [Sample.renamed] finds the stored
    name "vault-cluster-abababab", has "testcluster" configured, generates
    the missing certificate and stores the record under the configured
    name. *)
Lemma stored_name_overwritten :
  stored_identity Sample.E Sample.renamed = Some Sample.named ∧
  Name Sample.named ≠ "" ∧ ID Sample.named ≠ "" ∧
  ∃ r', stored_identity Sample.E (core_of (setupCluster Sample.E Sample.env Sample.renamed))
          = Some r' ∧
        Name r' = "testcluster" ∧ Name r' ≠ Name Sample.named ∧ ID r' = ID Sample.named.
Proof.
  split; [vm_compute; reflexivity|].
  split; [discriminate|]. split; [discriminate|].
  eexists. split; [vm_compute; reflexivity|].
  simpl. split; [reflexivity|]. split; [discriminate|reflexivity].
Qed.

(** ** The certificate *)

Section Certificates.

Context (E : Externals).

Lemma created_app t1 t2 : created (t1 ++ t2) = created t1 ++ created t2.
Proof. apply omap_app. Qed.

Lemma generated_keys_app t1 t2 :
  generated_keys (t1 ++ t2) = generated_keys t1 ++ generated_keys t2.
Proof. apply omap_app. Qed.

Lemma writes_app t1 t2 : writes (t1 ++ t2) = writes t1 ++ writes t2.
Proof. apply omap_app. Qed.

Local Ltac quiet :=
  repeat split; try reflexivity; try discriminate;
  try (intros ? ? [= <- <-]; reflexivity).

Lemma setup_name_quiet env cl m c r c' t :
  setup_name env cl m c = (r, c', t) →
  created t = [] ∧ generated_keys t = [] ∧ writes t = [] ∧
  advertiseAddr c' = advertiseAddr c ∧
  ∀ cl' m', r = Ok (cl', m') → Certificate cl' = Certificate cl.
Proof.
  rewrite setup_name_eq.
  destruct (is_empty (Name cl)); [|intros [= <- <- <-]; quiet].
  destruct (is_empty (clusterName c)); [|intros [= <- <- <-]; quiet].
  destruct (uuid_GenerateRandomBytes env 4); intros [= <- <- <-]; quiet.
Qed.

Lemma setup_id_quiet env cl m c r c' t :
  setup_id env cl m c = (r, c', t) →
  created t = [] ∧ generated_keys t = [] ∧ writes t = [] ∧ c' = c ∧
  ∀ cl' m', r = Ok (cl', m') → Certificate cl' = Certificate cl.
Proof.
  rewrite setup_id_eq.
  destruct (is_empty (ID cl)); [|intros [= <- <- <-]; quiet].
  destruct (uuid_GenerateUUID_id env); intros [= <- <- <-]; quiet.
Qed.

Lemma setup_key_keys env c need c' t :
  setup_key E env c = (Ok need, c', t) →
  created t = [] ∧ generated_keys t = (if need then [P521] else []).
Proof.
  rewrite setup_key_eq.
  destruct (localClusterPrivateKey c); [intros [= <- <- <-]; auto|].
  destruct (sealed (barrier c)); [discriminate|].
  destruct (entries (barrier c) !! coreLocalClusterKeyPath) as [value|].
  - destruct (jsonutil_DecodeJSON_privKeyParams E value) as [msg|params]; [discriminate|].
    destruct (X params), (Y params), (D params); try discriminate.
    destruct (String.eqb _ _); [|discriminate]. intros [= <- <- <-]; auto.
  - destruct (ecdsa_GenerateKey env P521) as [msg|k]; [discriminate|].
    destruct (json_Marshal_privKeyParams E _) as [msg|raw]; [discriminate|].
    intros [= <- <- <-]; auto.
Qed.

Lemma setup_certificate_created env need cl m c cl' m' c' t :
  setup_certificate E env need cl m c = (Ok (cl', m'), c', t) →
  generated_keys t = [] ∧
  if (need || no_certificate cl) && negb (is_empty (advertiseAddr c)) then
    ∃ key host der,
      localClusterPrivateKey c = Some key ∧
      uuid_GenerateUUID_host env = inr host ∧
      let template :=
        certificate_template host (mathrand_Int63 env)
          (time_Now_NotBefore env) (time_Now_NotAfter env) in
      created t = [(template, template, Public key, key)] ∧
      x509_CreateCertificate env template template (Public key) key = inr der ∧
      cl' = with_Certificate (Some der) cl ∧ m' = true
  else created t = [] ∧ cl' = cl ∧ m' = m.
Proof.
  rewrite setup_certificate_eq.
  destruct (_ && _).
  - destruct (localClusterPrivateKey c) as [key|]; [|discriminate].
    destruct (uuid_GenerateUUID_host env) as [msg|host]; [discriminate|].
    simpl.
    destruct (x509_CreateCertificate env _ _ _ _) as [msg|der] eqn:Hc; [discriminate|].
    destruct (x509_ParseCertificate E der); [discriminate|].
    intros [= <- <- <- <-]. split; [reflexivity|].
    exists key, host, der. simpl. repeat split; auto.
  - intros [= <- <- <- <-]. auto.
Qed.

Lemma setup_certificate_no_keys env need cl m c r c' t :
  setup_certificate E env need cl m c = (r, c', t) → generated_keys t = [].
Proof.
  rewrite setup_certificate_eq.
  destruct (_ && _); [|intros [= <- <- <-]; reflexivity].
  destruct (localClusterPrivateKey c) as [key|]; [|intros [= <- <- <-]; reflexivity].
  destruct (uuid_GenerateUUID_host env) as [msg|host]; [intros [= <- <- <-]; reflexivity|].
  simpl.
  destruct (x509_CreateCertificate env _ _ _ _) as [msg|der];
    [intros [= <- <- <-]; reflexivity|].
  destruct (x509_ParseCertificate E der); intros [= <- <- <-]; reflexivity.
Qed.

Lemma setup_store_quiet cl m c r c' t :
  setup_store E cl m c = (r, c', t) → created t = [] ∧ generated_keys t = [].
Proof.
  rewrite setup_store_eq.
  destruct m; [|intros [= <- <- <-]; auto].
  destruct (json_Marshal_Cluster E cl); [intros [= <- <- <-]; auto|].
  destruct (sealed (barrier c)); intros [= <- <- <-]; auto.
Qed.

Lemma setup_store_writes cl c c' t :
  setup_store E cl true c = (Ok tt, c', t) →
  ∃ raw, json_Marshal_Cluster E cl = inr raw ∧
         writes t = [(coreLocalClusterInfoPath, raw)] ∧
         stored_at coreLocalClusterInfoPath c' = Some raw.
Proof.
  rewrite setup_store_eq.
  destruct (json_Marshal_Cluster E cl) as [msg|raw]; [discriminate|].
  destruct (sealed (barrier c)); [discriminate|].
  intros [= <- <-]. exists raw. unfold stored_at. simpl.
  rewrite lookup_insert_eq. auto.
Qed.

(** What [Cluster] read has the certificate that is stored. *)
Lemma read_identity_no_certificate c cl0 :
  read_identity E (barrier c) (clusterName c) = Ok cl0 →
  no_certificate cl0 = no_stored_certificate E c.
Proof.
  unfold read_identity, no_stored_certificate, stored_identity, stored_at.
  destruct (sealed (barrier c)); [discriminate|].
  destruct (entries (barrier c) !! coreLocalClusterInfoPath) as [value|].
  2:{ intros [= <-]. reflexivity. }
  destruct (jsonutil_DecodeJSON_Cluster E value) as [msg|r]; [discriminate|].
  destruct (no_certificate r) eqn:Hr.
  - intros [= <-]. rewrite reported_no_certificate. exact Hr.
  - destruct (x509_ParseCertificate E _); [discriminate|].
    intros [= <-]. rewrite reported_no_certificate. exact Hr.
Qed.

Lemma template_usages host serial now1 now2 :
  let cert := certificate_template host serial now1 now2 in
  has_usage cert KeyUsageDigitalSignature = true ∧
  has_usage cert KeyUsageKeyEncipherment = true ∧
  has_usage cert KeyUsageKeyAgreement = true ∧
  has_usage cert KeyUsageCertSign = true ∧
  has_usage cert KeyUsageContentCommitment = false ∧
  has_usage cert KeyUsageDataEncipherment = false ∧
  has_usage cert KeyUsageCRLSign = false ∧
  has_usage cert KeyUsageEncipherOnly = false ∧
  has_usage cert KeyUsageDecipherOnly = false.
Proof. repeat split; reflexivity. Qed.

Lemma setup_key_no_certificate env c r c' t :
  setup_key E env c = (r, c', t) → created t = [].
Proof.
  rewrite setup_key_eq.
  destruct (localClusterPrivateKey c); [intros [= <- <- <-]; reflexivity|].
  destruct (sealed (barrier c)); [intros [= <- <- <-]; reflexivity|].
  destruct (entries (barrier c) !! coreLocalClusterKeyPath) as [value|].
  - destruct (jsonutil_DecodeJSON_privKeyParams E value) as [msg|params];
      [intros [= <- <- <-]; reflexivity|].
    destruct (X params), (Y params), (D params); try (intros [= <- <- <-]; reflexivity).
    destruct (String.eqb _ _); intros [= <- <- <-]; reflexivity.
  - destruct (ecdsa_GenerateKey env P521) as [msg|k]; [intros [= <- <- <-]; reflexivity|].
    destruct (json_Marshal_privKeyParams E _) as [msg|raw];
      intros [= <- <- <-]; reflexivity.
Qed.

(** The certificate step, however it ends: nothing is created, or the
    condition of line 217 holds and one call of [x509.CreateCertificate] is
    made, with the template as its own parent and the loaded key. *)
Lemma setup_certificate_attempt env need cl m c r c' t :
  setup_certificate E env need cl m c = (r, c', t) →
  created t = [] ∨
  ((need || no_certificate cl) && negb (is_empty (advertiseAddr c)) = true ∧
   ∃ key host,
     uuid_GenerateUUID_host env = inr host ∧
     let template :=
       certificate_template host (mathrand_Int63 env)
         (time_Now_NotBefore env) (time_Now_NotAfter env) in
     created t = [(template, template, Public key, key)]).
Proof.
  rewrite setup_certificate_eq.
  destruct (_ && _); [|intros [= <- <- <-]; left; reflexivity].
  destruct (localClusterPrivateKey c) as [key|]; [|intros [= <- <- <-]; left; reflexivity].
  destruct (uuid_GenerateUUID_host env) as [msg|host];
    [intros [= <- <- <-]; left; reflexivity|].
  simpl. intros H. right. split; [reflexivity|]. exists key, host. split; [reflexivity|].
  revert H.
  destruct (x509_CreateCertificate env _ _ _ _) as [msg|der];
    [intros [= <- <- <-]; reflexivity|].
  destruct (x509_ParseCertificate E der); intros [= <- <- <-]; reflexivity.
Qed.

Lemma key_generated_app_r t1 t2 :
  generated_keys t1 = [] → key_generated (t1 ++ t2) = key_generated t2.
Proof. unfold key_generated. rewrite generated_keys_app. intros ->. reflexivity. Qed.

Lemma key_generated_app_l t1 t2 :
  generated_keys t2 = [] → key_generated (t1 ++ t2) = key_generated t1.
Proof.
  unfold key_generated. rewrite generated_keys_app. intros ->.
  rewrite app_nil_r. reflexivity.
Qed.

(** A call of [setupCluster], however it ends: no certificate is created, or
    the condition holds and one is. *)
Lemma setupCluster_attempt env c :
  let t := events_of (setupCluster E env c) in
  created t = [] ∨
  ((key_generated t || no_stored_certificate E c) && negb (is_empty (advertiseAddr c))
   = true ∧
   ∃ key host,
     uuid_GenerateUUID_host env = inr host ∧
     let template :=
       certificate_template host (mathrand_Int63 env)
         (time_Now_NotBefore env) (time_Now_NotAfter env) in
     created t = [(template, template, Public key, key)]).
Proof.
  destruct (setupCluster E env c) as [[res c'] t] eqn:H. unfold events_of. simpl.
  unfold setupCluster in H.
  destruct (Core_Cluster_spec E c) as [pool Hcl].
  apply bind_inv in H as [(e & H & ->) | (cl & c0 & t0 & ta & H0 & H & ->)].
  { rewrite Hcl in H. injection H as _ _ <-. left. reflexivity. }
  rewrite Hcl in H0.
  destruct (read_identity E (barrier c) (clusterName c)) as [cl0|e] eqn:Hread;
    [|discriminate].
  injection H0 as <- <- <-. simpl in H.
  apply bind_inv in H as [(e & H & ->) | ([cl1 m1] & c1 & t1 & tb & H1 & H & ->)].
  { apply setup_name_quiet in H as (Hc & _). left. simpl. exact Hc. }
  apply setup_name_quiet in H1 as (Hc1 & Hg1 & _ & Ha1 & Hcert1).
  apply bind_inv in H as [(e & H & ->) | ([cl2 m2] & c2 & t2 & tc & H2 & H & ->)].
  { apply setup_id_quiet in H as (Hc & _). left. simpl. rewrite created_app, Hc1, Hc.
    reflexivity. }
  apply setup_id_quiet in H2 as (Hc2 & Hg2 & _ & -> & Hcert2).
  apply bind_inv in H as [(e & H & ->) | (need & c3 & t3 & td & H3 & H & ->)].
  { apply setup_key_no_certificate in H. left. simpl.
    rewrite !created_app, Hc1, Hc2, H. reflexivity. }
  pose proof (setup_key_keys _ _ _ _ _ H3) as (Hc3 & Hg3).
  apply setup_key_frame in H3 as (_ & _ & _ & Ha3).
  assert (Hnocert : no_certificate cl2 = no_stored_certificate E c).
  { rewrite <- (read_identity_no_certificate c cl0 Hread). unfold no_certificate.
    rewrite (Hcert2 _ _ eq_refl), (Hcert1 _ _ eq_refl). reflexivity. }
  assert (Hstep : ∃ r4 c4 t4 t5,
    setup_certificate E env need cl2 m2 c3 = (r4, c4, t4) ∧
    td = t4 ++ t5 ∧ created t5 = [] ∧ generated_keys t5 = []).
  { apply bind_inv in H as [(e & H & ->) | ([cl4 m4] & c4 & t4 & t5 & H4 & H & ->)].
    - exists (Err e), c', td, []. rewrite app_nil_r. auto.
    - apply setup_store_quiet in H as (Hc5 & Hg5). exists (Ok (cl4, m4)), c4, t4, t5. auto. }
  destruct Hstep as (r4 & c4 & t4 & t5 & H4 & -> & Hc5 & Hg5).
  pose proof (setup_certificate_no_keys _ _ _ _ _ _ _ _ H4) as Hg4.
  apply setup_certificate_attempt in H4 as [Hc4 | (Hcond & key & host & Hh & Hc4)].
  { left. simpl. rewrite !created_app, Hc1, Hc2, Hc3, Hc4, Hc5. reflexivity. }
  right. split.
  - assert (Hkg : key_generated
                    ([EvGet coreLocalClusterInfoPath] ++ t1 ++ t2 ++ t3 ++ t4 ++ t5) = need).
    { rewrite (key_generated_app_r [_]) by reflexivity.
      rewrite (key_generated_app_r t1) by exact Hg1.
      rewrite (key_generated_app_r t2) by exact Hg2.
      rewrite (key_generated_app_l t3).
      - unfold key_generated. rewrite Hg3. destruct need; reflexivity.
      - rewrite generated_keys_app, Hg4, Hg5. reflexivity. }
    simpl in Hkg, Ha1. simpl. rewrite Hkg, <- Hnocert, <- Ha1, <- Ha3. exact Hcond.
  - exists key, host. split; [exact Hh|]. simpl.
    rewrite !created_app, Hc1, Hc2, Hc3, Hc4, Hc5. reflexivity.
Qed.

End Certificates.

(** C3.  A call of [setupCluster] creates a certificate only when a key was
    generated in this call or no certificate is stored, and the advertise
    address is not empty; and when that holds and the call returns without
    error, it has created exactly one, which the record stored at the end
    carries.  A created certificate is self-signed, from a template whose
    common name and only DNS name are the host identifier drawn for it,
    which is a CA with the server-auth and client-auth extended usages and
    the digital-signature, key-encipherment, key-agreement and cert-sign
    usages and no other, valid from 30 seconds before the first clock
    reading to 30 years of 8766 hours after the second. *)
Theorem setupCluster_certificate (E : Externals) (env : Env) (c : Core) :
  let run := setupCluster E env c in
  let t := events_of run in
  let c' := core_of run in
  let wanted :=
    (key_generated t || no_stored_certificate E c) && negb (is_empty (advertiseAddr c)) in
  (created t ≠ [] → wanted = true) ∧
  (result_of run = Ok tt → wanted = true →
   ∃ template key der cluster raw,
     created t = [(template, template, Public key, key)] ∧
     x509_CreateCertificate env template template (Public key) key = inr der ∧
     Certificate cluster = Some der ∧
     json_Marshal_Cluster E cluster = inr raw ∧
     stored_at coreLocalClusterInfoPath c' = Some raw) ∧
  (∀ template parent pub priv,
     (template, parent, pub, priv) ∈ created t →
     parent = template ∧ pub = Public priv ∧
     ∃ host,
       uuid_GenerateUUID_host env = inr host ∧
       CommonName (Subject template) = host ∧
       DNSNames template = [host] ∧
       IsCA template = true ∧ BasicConstraintsValid template = true ∧
       ExtKeyUsage template = [ExtKeyUsageServerAuth; ExtKeyUsageClientAuth] ∧
       has_usage template KeyUsageDigitalSignature = true ∧
       has_usage template KeyUsageKeyEncipherment = true ∧
       has_usage template KeyUsageKeyAgreement = true ∧
       has_usage template KeyUsageCertSign = true ∧
       has_usage template KeyUsageContentCommitment = false ∧
       has_usage template KeyUsageDataEncipherment = false ∧
       has_usage template KeyUsageCRLSign = false ∧
       has_usage template KeyUsageEncipherOnly = false ∧
       has_usage template KeyUsageDecipherOnly = false ∧
       SerialNumber template = mathrand_Int63 env ∧
       NotBefore template = (time_Now_NotBefore env - 30 * time_Second)%Z ∧
       NotAfter template = (time_Now_NotAfter env + 30 * (8766 * time_Hour))%Z).
Proof.
  intros run t c' wanted.
  pose proof (setupCluster_attempt E env c) as Hattempt. simpl in Hattempt.
  fold run in Hattempt. fold t in Hattempt. fold wanted in Hattempt.
  split; [|split].
  - intros Hne. destruct Hattempt as [Hnil | [Hw _]]; [contradiction|exact Hw].
  - intros Hok Hw.
    assert (H : setupCluster E env c = (Ok tt, c', t)).
    { rewrite (triple_eta (setupCluster E env c)) at 1. fold run. rewrite Hok. reflexivity. }
    apply setupCluster_Ok_inv in H
      as (pool & cl0 & cl1 & m1 & c1 & t1 & cl2 & m2 & c2 & t2 & need & c3 & t3
          & cl4 & m4 & c4 & t4 & t5 & Hread & H1 & H2 & H3 & H4 & H5 & Ht).
    apply setup_name_quiet in H1 as (Hc1 & Hg1 & _ & Ha1 & Hcert1).
    apply setup_id_quiet in H2 as (Hc2 & Hg2 & _ & -> & Hcert2).
    pose proof (setup_key_keys E _ _ _ _ _ H3) as (Hc3 & Hg3).
    apply setup_key_frame in H3 as (_ & _ & _ & Ha3).
    pose proof (setup_certificate_frame E _ _ _ _ _ _ _ _ H4) as (-> & _).
    apply setup_certificate_created in H4 as (Hg4 & H4).
    pose proof (setup_store_quiet E _ _ _ _ _ _ H5) as (Hc5 & Hg5).
    assert (Hkeys : key_generated t = need).
    { unfold key_generated. rewrite Ht. simpl.
      rewrite !generated_keys_app, Hg1, Hg2, Hg3, Hg4, Hg5. simpl.
      destruct need; reflexivity. }
    assert (Hnocert : no_certificate cl2 = no_stored_certificate E c).
    { rewrite <- (read_identity_no_certificate E c cl0 Hread). unfold no_certificate.
      rewrite (Hcert2 _ _ eq_refl), (Hcert1 _ _ eq_refl). reflexivity. }
    assert (Hcreated : created t = created t4).
    { rewrite Ht. simpl. rewrite !created_app, Hc1, Hc2, Hc3, Hc5. simpl.
      rewrite app_nil_r. reflexivity. }
    rewrite Ha3, Ha1, Hnocert, <- Hkeys in H4. simpl in H4. fold wanted in H4.
    rewrite Hw in H4.
    destruct H4 as (key & host & der & Hk & Hh & Hcr & Hx & -> & ->).
    apply setup_store_writes in H5 as (raw & Hm & _ & Hs).
    eexists _, key, der, (with_Certificate (Some der) cl2), raw.
    rewrite Hcreated. repeat split; eassumption.
  - intros template parent pub priv Hin.
    destruct Hattempt as [Hnil | (_ & key & host & Hh & Hc)].
    { rewrite Hnil in Hin. apply elem_of_nil in Hin. contradiction. }
    rewrite Hc in Hin. apply list_elem_of_singleton in Hin.
    injection Hin as -> -> -> ->.
    split; [reflexivity|]. split; [reflexivity|].
    exists host. repeat split; try assumption; reflexivity.
Qed.

Lemma setupCluster_certificate_witness :
  let first := setupCluster Sample.E Sample.env (Sample.fresh "" "https://127.0.0.1:8201") in
  ∃ template key,
    created (events_of first) = [(template, template, Public key, key)] ∧
    CommonName (Subject template) = "f81d4fae-7dec-11d0-a765-00a0c91e6bf6" ∧
    IsCA template = true.
Proof.
  intros first.
  destruct (setupCluster_certificate Sample.E Sample.env
              (Sample.fresh "" "https://127.0.0.1:8201")) as (_ & Hmade & Hshape).
  destruct Hmade as (template & key & der & cluster & raw & Hc & _);
    [vm_compute; reflexivity..|].
  fold first in Hc.
  destruct (Hshape template template (Public key) key)
    as (_ & _ & host & Hh & Hcn & _ & Hca & _).
  { fold first. rewrite Hc. apply list_elem_of_singleton. reflexivity. }
  exists template, key. split; [exact Hc|]. split; [|exact Hca].
  rewrite Hcn. injection Hh as <-. reflexivity.
Defined.

(** ** Running [setupCluster] forward *)

Section Forward.

Context (E : Externals).

(** The steps before the key succeed when the identity can be read and the
    random sources answer. *)
Lemma setupCluster_prefix env c cl0 :
  read_identity E (barrier c) (clusterName c) = Ok cl0 →
  (Name cl0 = "" → clusterName c = "" → ∃ b, uuid_GenerateRandomBytes env 4 = inr b) →
  (ID cl0 = "" → ∃ id, uuid_GenerateUUID_id env = inr id) →
  ∃ pool cl1 m1 c1 t1 cl2 m2 t2,
    Core_Cluster E c =
      (Ok (Some cl0), set_localClusterCertPool pool c, [EvGet coreLocalClusterInfoPath]) ∧
    setup_name env cl0 false (set_localClusterCertPool pool c) = (Ok (cl1, m1), c1, t1) ∧
    setup_id env cl1 m1 c1 = (Ok (cl2, m2), c1, t2) ∧
    barrier c1 = barrier c ∧
    localClusterPrivateKey c1 = localClusterPrivateKey c ∧
    advertiseAddr c1 = advertiseAddr c.
Proof.
  intros Hread Hname Hid.
  destruct (Core_Cluster_Ok E c cl0 Hread) as [pool H0].
  assert (H1 : ∃ cl1 m1 c1 t1,
    setup_name env cl0 false (set_localClusterCertPool pool c) = (Ok (cl1, m1), c1, t1) ∧
    ID cl1 = ID cl0 ∧ barrier c1 = barrier c ∧
    localClusterPrivateKey c1 = localClusterPrivateKey c ∧
    advertiseAddr c1 = advertiseAddr c).
  { rewrite setup_name_eq. simpl.
    destruct (is_empty (Name cl0)) eqn:Hn; [|repeat eexists].
    destruct (is_empty (clusterName c)) eqn:Hc; [|repeat eexists].
    apply is_empty_true in Hn, Hc. destruct (Hname Hn Hc) as [b ->]. repeat eexists. }
  destruct H1 as (cl1 & m1 & c1 & t1 & H1 & Hi1 & Hb & Hk & Ha).
  assert (H2 : ∃ cl2 m2 t2, setup_id env cl1 m1 c1 = (Ok (cl2, m2), c1, t2)).
  { rewrite setup_id_eq.
    destruct (is_empty (ID cl1)) eqn:Hi; [|repeat eexists].
    apply is_empty_true in Hi. rewrite Hi1 in Hi. destruct (Hid Hi) as [id ->].
    repeat eexists. }
  destruct H2 as (cl2 & m2 & t2 & H2).
  exists pool, cl1, m1, c1, t1, cl2, m2, t2. auto 10.
Qed.

(** The run from the key step on. *)
Lemma setupCluster_from_key env c pool cl0 cl1 m1 c1 t1 cl2 m2 t2 :
  Core_Cluster E c =
    (Ok (Some cl0), set_localClusterCertPool pool c, [EvGet coreLocalClusterInfoPath]) →
  setup_name env cl0 false (set_localClusterCertPool pool c) = (Ok (cl1, m1), c1, t1) →
  setup_id env cl1 m1 c1 = (Ok (cl2, m2), c1, t2) →
  ∀ rest : bool → M unit,
    (rest = λ needNewCert,
       '(cluster, modified) ← setup_certificate E env needNewCert cl2 m2;
       setup_store E cluster modified) →
    let x := (setup_key E env ≫= rest) c1 in
    setupCluster E env c =
      (result_of x, core_of x,
       [EvGet coreLocalClusterInfoPath] ++ t1 ++ t2 ++ events_of x).
Proof.
  intros H0 H1 H2 rest -> x. unfold setupCluster.
  rewrite (bind_Ok _ _ _ _ _ _ H0). simpl.
  rewrite (bind_Ok _ _ _ _ _ _ H1). simpl.
  rewrite (bind_Ok _ _ _ _ _ _ H2). reflexivity.
Qed.

Lemma setup_store_keeps_key cl m c r c' t :
  setup_store E cl m c = (r, c', t) →
  localClusterPrivateKey c' = localClusterPrivateKey c.
Proof.
  rewrite setup_store_eq.
  destruct m; [|intros [= <- <- <-]; reflexivity].
  destruct (json_Marshal_Cluster E cl); [intros [= <- <- <-]; reflexivity|].
  destruct (sealed (barrier c)); intros [= <- <- <-]; reflexivity.
Qed.

(** What follows the key step keeps the loaded key, however it ends. *)
Lemma after_key_keeps_key env need cl m c :
  let x := ('(cluster, modified) ← setup_certificate E env need cl m;
            setup_store E cluster modified) c in
  localClusterPrivateKey (core_of x) = localClusterPrivateKey c.
Proof.
  intros x. destruct x as [[r c'] t] eqn:Hx. subst x. unfold core_of. simpl.
  apply bind_inv in Hx as [(e & H & ->) | ([cl4 m4] & c4 & t4 & t5 & H4 & H & ->)].
  - apply setup_certificate_frame in H as (-> & _). reflexivity.
  - apply setup_certificate_frame in H4 as (-> & _).
    apply setup_store_keeps_key in H. exact H.
Qed.

End Forward.

(** ** Stored key material *)

Section StoredKey.

Context (E : Externals).

Lemma identity_in_reach_prefix env c :
  identity_in_reach E env c →
  sealed (barrier c) = false ∧
  ∃ pool cl0 cl1 m1 c1 t1 cl2 m2 t2,
    Core_Cluster E c =
      (Ok (Some cl0), set_localClusterCertPool pool c, [EvGet coreLocalClusterInfoPath]) ∧
    setup_name env cl0 false (set_localClusterCertPool pool c) = (Ok (cl1, m1), c1, t1) ∧
    setup_id env cl1 m1 c1 = (Ok (cl2, m2), c1, t2) ∧
    barrier c1 = barrier c ∧
    localClusterPrivateKey c1 = localClusterPrivateKey c ∧
    advertiseAddr c1 = advertiseAddr c ∧
    writes t1 = [] ∧ writes t2 = [].
Proof.
  intros (cl0 & Hread & Hname & Hid).
  split; [exact (read_identity_unsealed E _ _ _ Hread)|].
  destruct (setupCluster_prefix E env c cl0 Hread Hname Hid)
    as (pool & cl1 & m1 & c1 & t1 & cl2 & m2 & t2 & H0 & H1 & H2 & Hb & Hk & Ha).
  exists pool, cl0, cl1, m1, c1, t1, cl2, m2, t2.
  pose proof (setup_name_quiet _ _ _ _ _ _ _ H1) as (_ & _ & Hw1 & _).
  pose proof (setup_id_quiet _ _ _ _ _ _ _ H2) as (_ & _ & Hw2 & _).
  auto 12.
Qed.

Lemma stored_key_rejected env c value params :
  identity_in_reach E env c →
  localClusterPrivateKey c = None →
  stored_at coreLocalClusterKeyPath c = Some value →
  jsonutil_DecodeJSON_privKeyParams E value = inr params →
  X params = None ∨ Y params = None ∨ D params = None
    ∨ Type_ params ≠ corePrivateKeyTypeP521 →
  ∃ e, result_of (setupCluster E env c) = Err e ∧ InvalidKeyMaterial e ∧
       localClusterPrivateKey (core_of (setupCluster E env c)) = None ∧
       writes (events_of (setupCluster E env c)) = [].
Proof.
  intros Hreach Hnone Hst Hdec Hbad.
  destruct (identity_in_reach_prefix env c Hreach)
    as (Hs & pool & cl0 & cl1 & m1 & c1 & t1 & cl2 & m2 & t2
        & H0 & H1 & H2 & Hb & Hk & Ha & Hw1 & Hw2).
  rewrite (setupCluster_from_key E env c _ _ _ _ _ _ _ _ _ H0 H1 H2 _ eq_refl).
  unfold result_of, core_of, events_of. simpl.
  assert (Hkey : ∃ e, setup_key E env c1 = (Err e, c1, [EvGet coreLocalClusterKeyPath])
                      ∧ InvalidKeyMaterial e).
  { rewrite setup_key_eq, Hk, Hnone, Hb, Hs. unfold stored_at in Hst. rewrite Hst, Hdec.
    unfold InvalidKeyMaterial.
    destruct (X params); [|eauto]. destruct (Y params); [|eauto].
    destruct (D params); [|eauto].
    destruct (String.eqb_spec (Type_ params) corePrivateKeyTypeP521) as [Heq|Hne]; [|eauto].
    exfalso. destruct Hbad as [?|[?|[?|?]]]; congruence. }
  destruct Hkey as (e & Hkey & He).
  rewrite (bind_Err _ _ _ _ _ _ Hkey). simpl.
  exists e. rewrite !writes_app, Hw1, Hw2. simpl.
  repeat split; try assumption; congruence.
Qed.

Lemma stored_key_loaded env c value params x y d :
  identity_in_reach E env c →
  localClusterPrivateKey c = None →
  stored_at coreLocalClusterKeyPath c = Some value →
  jsonutil_DecodeJSON_privKeyParams E value = inr params →
  X params = Some x → Y params = Some y → D params = Some d →
  Type_ params = corePrivateKeyTypeP521 →
  localClusterPrivateKey (core_of (setupCluster E env c)) = Some (key_of_params x y d) ∧
  generated_keys (events_of (setupCluster E env c)) = [].
Proof.
  intros Hreach Hnone Hst Hdec Hx Hy Hd Hty.
  destruct (identity_in_reach_prefix env c Hreach)
    as (Hs & pool & cl0 & cl1 & m1 & c1 & t1 & cl2 & m2 & t2
        & H0 & H1 & H2 & Hb & Hk & Ha & Hw1 & Hw2).
  rewrite (setupCluster_from_key E env c _ _ _ _ _ _ _ _ _ H0 H1 H2 _ eq_refl).
  unfold result_of at 1, core_of at 1, events_of at 1. simpl.
  assert (Hkey : setup_key E env c1 =
    (Ok false, set_localClusterPrivateKey (Some (key_of_params x y d)) c1,
     [EvGet coreLocalClusterKeyPath])).
  { rewrite setup_key_eq, Hk, Hnone, Hb, Hs. unfold stored_at in Hst.
    rewrite Hst, Hdec, Hx, Hy, Hd, Hty. reflexivity. }
  rewrite (bind_Ok _ _ _ _ _ _ Hkey).
  unfold core_of at 1, events_of at 1. simpl.
  split.
  - rewrite after_key_keeps_key. reflexivity.
  - pose proof (setup_name_quiet _ _ _ _ _ _ _ H1) as (_ & Hg1 & _).
    pose proof (setup_id_quiet _ _ _ _ _ _ _ H2) as (_ & Hg2 & _).
    rewrite !generated_keys_app, Hg1, Hg2. simpl.
    match goal with |- generated_keys (events_of ?x) = [] => destruct x as [[r c'] t] eqn:Hrun end.
    unfold events_of. simpl.
    apply bind_inv in Hrun as [(e & H & ->) | ([cl4 m4] & c4 & t4 & t5 & H4 & H & ->)].
    + apply (setup_certificate_no_keys E) in H. exact H.
    + apply setup_certificate_created in H4 as (Hg4 & _).
      apply setup_store_quiet in H as (_ & Hg5).
      rewrite generated_keys_app, Hg4, Hg5. reflexivity.
Qed.

End StoredKey.

(** C9.  Let the private key not be loaded yet and let the key entry in
    storage decode to [params]; let the steps before the key have what they
    need.  If one of X, Y, D is missing, or the tag is not "p521",
    [setupCluster] returns one of the two invalid-key-material errors,
    loads no key and writes nothing.  Otherwise it loads the P-521 key with
    exactly the stored X, Y and D, generating none; and any other node that
    runs [setupCluster] over the same stored entry loads the same key. *)
Theorem setupCluster_stored_key (E : Externals) (env : Env) (c : Core)
    (value : bytes) (params : privKeyParams) :
  identity_in_reach E env c →
  localClusterPrivateKey c = None →
  stored_at coreLocalClusterKeyPath c = Some value →
  jsonutil_DecodeJSON_privKeyParams E value = inr params →
  let run := setupCluster E env c in
  (X params = None ∨ Y params = None ∨ D params = None
     ∨ Type_ params ≠ corePrivateKeyTypeP521 →
   ∃ e, result_of run = Err e ∧ InvalidKeyMaterial e ∧
        localClusterPrivateKey (core_of run) = None ∧
        writes (events_of run) = []) ∧
  (∀ x y d,
     X params = Some x → Y params = Some y → D params = Some d →
     Type_ params = corePrivateKeyTypeP521 →
     localClusterPrivateKey (core_of run)
       = Some {| PublicKey := {| pub_Curve := P521; pub_X := x; pub_Y := y |};
                 priv_D := d |} ∧
     generated_keys (events_of run) = [] ∧
     ∀ env' c',
       identity_in_reach E env' c' →
       localClusterPrivateKey c' = None →
       stored_at coreLocalClusterKeyPath c' = Some value →
       localClusterPrivateKey (core_of (setupCluster E env' c'))
         = localClusterPrivateKey (core_of run)).
Proof.
  intros Hreach Hnone Hst Hdec run. split.
  - intros Hbad. apply (stored_key_rejected E env c value params); assumption.
  - intros x y d Hx Hy Hd Hty.
    destruct (stored_key_loaded E env c value params x y d) as [Hk Hg]; try assumption.
    split; [exact Hk|]. split; [exact Hg|].
    intros env' c' Hreach' Hnone' Hst'.
    destruct (stored_key_loaded E env' c' value params x y d) as [Hk' _]; try assumption.
    subst run. rewrite Hk, Hk'. reflexivity.
Qed.

(** ** The TLS configuration *)

Section TLS.

Context (E : Externals).

Lemma CertPool_AddCert_elem pool cert : cert ∈ CertPool_AddCert pool cert.
Proof.
  unfold CertPool_AddCert. case_bool_decide as Hin; [exact Hin|].
  apply elem_of_app. right. apply list_elem_of_singleton. reflexivity.
Qed.

(** [ClusterTLSConfig], case by case; the pool of the configuration is the
    pool the core holds afterwards. *)
Lemma ClusterTLSConfig_eq (c : Core) :
  ∃ pool,
    ClusterTLSConfig E c =
      (match read_identity E (barrier c) (clusterName c) with
       | Err e => Err e
       | Ok cl =>
           if no_certificate cl then Err (Errorf "cluster certificate is nil")
           else
             match x509_ParseCertificate E (default [] (Certificate cl)) with
             | inl msg =>
                 Err (Errorf ("error parsing local cluster certificate: " ++ msg))
             | inr parsedCert =>
                 Ok (cluster_tls_config (Certificate cl) (localClusterPrivateKey c)
                       pool parsedCert)
             end
       end,
       set_localClusterCertPool pool c,
       [EvGet coreLocalClusterInfoPath]) ∧
    ∀ cl parsedCert,
      read_identity E (barrier c) (clusterName c) = Ok cl →
      no_certificate cl = false →
      x509_ParseCertificate E (default [] (Certificate cl)) = inr parsedCert →
      ∃ certs, pool = Some certs ∧ parsedCert ∈ certs.
Proof.
  unfold ClusterTLSConfig, Core_Cluster, read_identity, reported, no_certificate,
    cluster_tls_config, mbind, M_bind, barrier_Get.
  destruct c as [[sl en] name addr key pool f ch1 ch2 conn chs sv wt]; simpl.
  destruct sl; [eexists; split; [reflexivity|discriminate]|].
  destruct (en !! coreLocalClusterInfoPath) as [value|];
    [|eexists; split; [reflexivity|intros ? ? [= <-]; discriminate]].
  destruct (jsonutil_DecodeJSON_Cluster E value) as [msg|[n i cert]]; simpl;
    [eexists; split; [reflexivity|discriminate]|].
  destruct (is_empty name), pool as [p|], cert as [der|]; simpl;
    try (eexists; split; [reflexivity|intros ? ? [= <-] Hno; discriminate Hno]);
    destruct (length der =? 0)%nat eqn:Hlen; simpl; rewrite ?Hlen; simpl;
    try (eexists; split;
         [reflexivity
         |intros ? ? [= <-] Hno; simpl in Hno; rewrite Hlen in Hno; discriminate Hno]);
    destruct (x509_ParseCertificate E der) as [msg|parsed] eqn:Hp;
    repeat (progress (simpl; rewrite ?Hlen, ?Hp));
    (eexists; split; [reflexivity|]);
    intros cl parsedCert [= <-] _; simpl; rewrite Hp; intros [= <-];
    eexists; (split; [reflexivity|apply CertPool_AddCert_elem]).
Qed.

End TLS.

Lemma read_identity_stored (E : Externals) (c : Core) (name : string) (r : Cluster) :
  sealed (barrier c) = false →
  stored_identity E c = Some r →
  read_identity E (barrier c) name =
    if no_certificate r then Ok (reported name r)
    else
      match x509_ParseCertificate E (default [] (Certificate r)) with
      | inl msg => Err (Errorf ("error parsing local cluster certificate: " ++ msg))
      | inr _ => Ok (reported name r)
      end.
Proof.
  unfold stored_identity, stored_at, read_identity. intros -> H.
  destruct (entries (barrier c) !! coreLocalClusterInfoPath) as [value|]; [|discriminate].
  destruct (jsonutil_DecodeJSON_Cluster E value) as [msg|r']; [discriminate|].
  injection H as ->. reflexivity.
Qed.


Lemma read_identity_absent (E : Externals) (c : Core) (name : string) :
  sealed (barrier c) = false →
  stored_at coreLocalClusterInfoPath c = None →
  read_identity E (barrier c) name = Ok zero_Cluster.
Proof.
  unfold stored_at, read_identity. intros -> ->. reflexivity.
Qed.

(** C4.  On an unsealed barrier: when the identity record is absent, or is
    there with an empty certificate field, [ClusterTLSConfig] fails with the
    no-identity error.  When the record holds a certificate that parses, it
    returns a configuration with exactly one certificate, made of the stored
    bytes and the loaded private key; that requires and verifies client
    certificates against the core's certificate pool, uses the same pool
    for the root CAs, the pool holding the parsed certificate; whose server
    name is the common name of the stored certificate; and whose only
    protocol is "h2". *)
Theorem ClusterTLSConfig_correct (E : Externals) (c : Core) :
  sealed (barrier c) = false →
  let run := ClusterTLSConfig E c in
  ((stored_at coreLocalClusterInfoPath c = None ∨
    ∃ r, stored_identity E c = Some r ∧ no_certificate r = true) →
   ∃ e, result_of run = Err e ∧ NoIdentity e) ∧
  (∀ r der parsedCert,
     stored_identity E c = Some r →
     Certificate r = Some der → der ≠ [] →
     x509_ParseCertificate E der = inr parsedCert →
     ∃ cfg certs,
       result_of run = Ok cfg ∧
       Certificates cfg =
         [ {| chain := [Some der]; PrivateKey := localClusterPrivateKey c |} ] ∧
       ClientAuth cfg = RequireAndVerifyClientCert ∧
       ClientCAs cfg = Some certs ∧
       RootCAs cfg = Some certs ∧
       localClusterCertPool (core_of run) = Some certs ∧
       parsedCert ∈ certs ∧
       ServerName cfg = CommonName (Subject parsedCert) ∧
       NextProtos cfg = ["h2"]).
Proof.
  intros Hs run.
  destruct (ClusterTLSConfig_eq E c) as (pool & Hrun & Hpool).
  subst run. rewrite Hrun. unfold result_of, core_of. simpl. split.
  - intros [Habs | (r & Hst & Hno)].
    + rewrite (read_identity_absent E c _ Hs Habs). simpl.
      eexists. split; [reflexivity|]. right. reflexivity.
    + rewrite (read_identity_stored E c _ r Hs Hst), Hno.
      rewrite reported_no_certificate, Hno.
      eexists. split; [reflexivity|]. right. reflexivity.
  - intros r der parsedCert Hst Hder Hne Hparse.
    assert (Hno : no_certificate r = false).
    { unfold no_certificate. rewrite Hder. simpl. destruct der; [contradiction|reflexivity]. }
    assert (Hread : read_identity E (barrier c) (clusterName c)
                    = Ok (reported (clusterName c) r)).
    { rewrite (read_identity_stored E c _ r Hs Hst), Hno, Hder. simpl.
      rewrite Hparse. reflexivity. }
    destruct (Hpool (reported (clusterName c) r) parsedCert) as (certs & -> & Hin).
    { exact Hread. }
    { rewrite reported_no_certificate. exact Hno. }
    { rewrite reported_Certificate, Hder. exact Hparse. }
    rewrite Hread, reported_no_certificate, Hno, reported_Certificate, Hder. simpl.
    rewrite Hparse. eexists. exists certs. repeat split; auto.
Qed.

(** ** No advertise address *)

Section NoAdvertise.

Context (E : Externals).






End NoAdvertise.


(** ** Forwarding *)

Section Forwarding.

Context (E : Externals).

Lemma ForwardRequest_eq (req : http_Request) (c : Core) :
  ForwardRequest E req c =
    match requestForwardingConnection c with
    | None => (Err ErrCannotForward, c, [EvRLock; EvRUnlock])
    | Some ac =>
        if is_empty (clusterAddr ac)
        then (Err ErrCannotForward, c, [EvRLock; EvRUnlock])
        else
          match requestutil_GenerateForwardedRequest E req (clusterAddr ac) with
          | inl msg => (Err (Foreign msg), c, [EvRLock; EvRUnlock])
          | inr freq =>
              (match http_Client_Do E (Client ac) freq with
               | inl msg => Err (Foreign msg)
               | inr resp => Ok resp
               end,
               c, [EvRLock; EvDo (Client ac) freq; EvRUnlock])
          end
    end.
Proof.
  unfold ForwardRequest, defer, mbind, M_bind. simpl.
  destruct (requestForwardingConnection c) as [ac|]; [|reflexivity].
  destruct (is_empty (clusterAddr ac)); [reflexivity|].
  destruct (requestutil_GenerateForwardedRequest E req (clusterAddr ac)) as [msg|freq];
    [reflexivity|]. simpl.
  destruct (http_Client_Do E (Client ac) freq); reflexivity.
Qed.

Lemma refreshRequestForwardingConnection_eq (addr : string) (c : Core) :
  refreshRequestForwardingConnection E addr c =
    match requestForwardingConnection c with
    | None =>
        if is_empty addr then (Ok tt, c, [EvRLock; EvRUnlock])
        else
          match ClusterTLSConfig E c with
          | (Err e, c1, t) => (Err e, c1, [EvRLock; EvRUnlock; EvLock] ++ t ++ [EvUnlock])
          | (Ok tlsConfig, c1, t) =>
              match http2_ConfigureTransport E {| TLSClientConfig := tlsConfig |} with
              | inl msg =>
                  (Err (Foreign msg), c1, [EvRLock; EvRUnlock; EvLock] ++ t ++ [EvUnlock])
              | inr tp =>
                  (Ok tt,
                   set_requestForwardingConnection
                     (Some {| Client := {| Transport := tp |}; clusterAddr := addr |}) c1,
                   [EvRLock; EvRUnlock; EvLock] ++ t ++ [EvUnlock])
              end
          end
    | Some ac =>
        if String.eqb (clusterAddr ac) addr then (Ok tt, c, [EvRLock; EvRUnlock])
        else if is_empty addr
        then (Ok tt, set_requestForwardingConnection None c,
              [EvRLock; EvRUnlock; EvLock; EvUnlock])
        else (Ok tt,
              set_requestForwardingConnection
                (Some {| Client := Client ac; clusterAddr := addr |}) c,
              [EvRLock; EvRUnlock; EvLock; EvUnlock])
    end.
Proof.
  unfold refreshRequestForwardingConnection, defer, addr_is, mbind, M_bind. simpl.
  destruct (requestForwardingConnection c) as [ac|] eqn:Hconn; simpl.
  - destruct (String.eqb (clusterAddr ac) addr) eqn:Heq; [reflexivity|]. simpl.
    rewrite Hconn, Heq. destruct (is_empty addr); [reflexivity|]. simpl.
    rewrite Hconn, Heq. reflexivity.
  - destruct (is_empty addr) eqn:Ha; [reflexivity|]. simpl. rewrite Hconn. simpl.
    destruct (ClusterTLSConfig E c) as [[[cfg|e] c1] t]; simpl; [|reflexivity].
    destruct (http2_ConfigureTransport E _) as [msg|tp]; simpl; rewrite ?app_nil_r;
      [reflexivity|].
    destruct addr as [|a s]; [discriminate Ha|]. simpl. rewrite ?app_nil_r.
    destruct c1; reflexivity.
Qed.

End Forwarding.

(** C5.  [ForwardRequest] returns [ErrCannotForward] exactly when there is
    no connection or the address of the connection is empty; then it sends
    nothing and leaves the core, the connection in it, as it was.  In every
    other case it asks for a copy of the request addressed to the stored
    cluster address, sends that copy, and no other request, through the
    client of the connection and returns what the client returns; should
    the copy not be made, the error of the request transformation comes
    back and nothing is sent.  The core is never changed. *)
Theorem ForwardRequest_correct (E : Externals) (req : http_Request) (c : Core) :
  let run := ForwardRequest E req c in
  (result_of run = Err ErrCannotForward ↔
   (requestForwardingConnection c = None ∨
    ∃ ac, requestForwardingConnection c = Some ac ∧ clusterAddr ac = "")) ∧
  (result_of run = Err ErrCannotForward → sent (events_of run) = [] ∧ core_of run = c) ∧
  (∀ ac,
     requestForwardingConnection c = Some ac → clusterAddr ac ≠ "" →
     core_of run = c ∧
     match requestutil_GenerateForwardedRequest E req (clusterAddr ac) with
     | inr freq =>
         sent (events_of run) = [(Client ac, freq)] ∧
         result_of run =
           match http_Client_Do E (Client ac) freq with
           | inl msg => Err (Foreign msg)
           | inr resp => Ok resp
           end
     | inl msg => sent (events_of run) = [] ∧ result_of run = Err (Foreign msg)
     end).
Proof.
  intros run. subst run. rewrite ForwardRequest_eq.
  destruct (requestForwardingConnection c) as [ac|] eqn:Hconn.
  2:{ unfold result_of, core_of, events_of. simpl.
      split; [split; auto|]. split; [auto|]. intros ac' [=]. }
  destruct (is_empty (clusterAddr ac)) eqn:Ha.
  { apply is_empty_true in Ha. unfold result_of, core_of, events_of. simpl.
    split; [split; eauto|]. split; [auto|].
    intros ac' [= <-] Hne. contradiction. }
  apply is_empty_false in Ha.
  assert (Hnot : ¬ (Some ac = None ∨ ∃ ac', Some ac = Some ac' ∧ clusterAddr ac' = "")).
  { intros [[=] | (ac' & [= <-] & Hempty)]. contradiction. }
  destruct (requestutil_GenerateForwardedRequest E req (clusterAddr ac)) as [msg|freq] eqn:Hg;
    unfold result_of, core_of, events_of; simpl.
  - split; [split; [discriminate|intros H; destruct (Hnot H)]|].
    split; [discriminate|]. intros ac' [= <-] _. rewrite Hg. auto.
  - destruct (http_Client_Do E (Client ac) freq) as [msg|resp] eqn:Hdo.
    + split; [split; [discriminate|intros H; destruct (Hnot H)]|].
      split; [discriminate|]. intros ac' [= <-] _. rewrite Hg, Hdo. auto.
    + split; [split; [discriminate|intros H; destruct (Hnot H)]|].
      split; [discriminate|]. intros ac' [= <-] _. rewrite Hg, Hdo. auto.
Qed.

(** C6.  [refreshRequestForwardingConnection]: when there is no connection
    and the address asked for is empty, or the connection has the address
    asked for, it returns no error, changes nothing and does not take the
    write lock.  Otherwise, with an empty address it drops the connection;
    with a non-empty address and a connection, it keeps the client of the
    connection and changes the stored address only.  With a non-empty
    address and no connection it asks for a fresh [ClusterTLSConfig]: the
    error of that call, or else the error of [http2.ConfigureTransport] on
    the transport made from the configuration, is returned with still no
    connection in place; and when both answer it returns no error and has
    installed the connection whose client uses that transport and whose
    address is the one asked for.  So a client is made only where there
    was no connection. *)
Theorem refreshRequestForwardingConnection_correct (E : Externals) (addr : string)
    (c : Core) :
  let run := refreshRequestForwardingConnection E addr c in
  ((requestForwardingConnection c = None ∧ addr = "") ∨
   (∃ ac, requestForwardingConnection c = Some ac ∧ clusterAddr ac = addr) →
   result_of run = Ok tt ∧ core_of run = c ∧ took_write_lock (events_of run) = false) ∧
  (∀ ac,
     requestForwardingConnection c = Some ac → clusterAddr ac ≠ addr → addr = "" →
     result_of run = Ok tt ∧
     core_of run = set_requestForwardingConnection None c) ∧
  (∀ ac,
     requestForwardingConnection c = Some ac → clusterAddr ac ≠ addr → addr ≠ "" →
     result_of run = Ok tt ∧
     core_of run =
       set_requestForwardingConnection
         (Some {| Client := Client ac; clusterAddr := addr |}) c) ∧
  (requestForwardingConnection c = None → addr ≠ "" →
   let tls := ClusterTLSConfig E c in
   match result_of tls with
   | Err e =>
       result_of run = Err e ∧ core_of run = core_of tls ∧
       requestForwardingConnection (core_of run) = None
   | Ok tlsConfig =>
       match http2_ConfigureTransport E {| TLSClientConfig := tlsConfig |} with
       | inl msg =>
           result_of run = Err (Foreign msg) ∧ core_of run = core_of tls ∧
           requestForwardingConnection (core_of run) = None
       | inr tp =>
           result_of run = Ok tt ∧
           core_of run =
             set_requestForwardingConnection
               (Some {| Client := {| Transport := tp |}; clusterAddr := addr |})
               (core_of tls)
       end
   end) ∧
  (∀ ac client,
     requestForwardingConnection c = Some ac →
     In client (map Client (option_list (requestForwardingConnection (core_of run)))) →
     client = Client ac).
Proof.
  intros run. subst run. rewrite refreshRequestForwardingConnection_eq.
  destruct (requestForwardingConnection c) as [ac|] eqn:Hconn.
  - destruct (String.eqb_spec (clusterAddr ac) addr) as [Heq|Hne].
    + unfold result_of, core_of, events_of. simpl.
      split; [auto|]. split; [intros ac' [= <-] Hne; contradiction|].
      split; [intros ac' [= <-] Hne; contradiction|]. split; [discriminate|].
      intros ac' client [= <-]. rewrite Hconn. simpl. intros [<-|[]]. reflexivity.
    + assert (Hnot : ¬ ((Some ac = None ∧ addr = "") ∨
                        ∃ ac', Some ac = Some ac' ∧ clusterAddr ac' = addr)).
      { intros [[[=] _] | (ac' & [= <-] & Heq)]. contradiction. }
      destruct (is_empty addr) eqn:Ha;
        [apply is_empty_true in Ha|apply is_empty_false in Ha];
        unfold result_of, core_of, events_of; simpl.
      * split; [intros H; destruct (Hnot H)|].
        split; [intros ac' [= <-] _ _; auto|].
        split; [intros ac' [= <-] _ Hn; contradiction|]. split; [discriminate|].
        intros ac' client _. destruct c; simpl. intros [].
      * split; [intros H; destruct (Hnot H)|].
        split; [intros ac' [= <-] _ He; contradiction|].
        split; [intros ac' [= <-] _ _; auto|]. split; [discriminate|].
        intros ac' client [= <-]. destruct c; simpl. intros [<-|[]]. reflexivity.
  - destruct (is_empty addr) eqn:Ha;
      [apply is_empty_true in Ha|apply is_empty_false in Ha].
    + unfold result_of, core_of, events_of. simpl.
      split; [auto|]. split; [intros ac' [=]|].
      split; [intros ac' [=]|]. split; [intros _ Hne; contradiction|].
      intros ac' client [=].
    + assert (Hnot : ¬ (((None : option activeConnection) = None ∧ addr = "") ∨
                        ∃ ac' : activeConnection, None = Some ac' ∧ clusterAddr ac' = addr)).
      { intros [[_ He] | (ac' & [=] & _)]. contradiction. }
      destruct (ClusterTLSConfig_eq E c) as (pool & Htls & _).
      destruct (ClusterTLSConfig E c) as [[[cfg|e] c1] t] eqn:Hrun.
      * destruct (http2_ConfigureTransport E _) as [msg|tp] eqn:Htp;
          unfold result_of, core_of, events_of; simpl; rewrite ?Htp.
        -- split; [intros H; destruct (Hnot H)|].
           split; [intros ac' [=]|]. split; [intros ac' [=]|].
           split; [|intros ac' client [=]].
           intros _ _. injection Htls as _ -> _. simpl. auto.
        -- split; [intros H; destruct (Hnot H)|].
           split; [intros ac' [=]|]. split; [intros ac' [=]|].
           split; [|intros ac' client [=]].
           intros _ _. auto.
      * unfold result_of, core_of, events_of; simpl.
        split; [intros H; destruct (Hnot H)|].
        split; [intros ac' [=]|]. split; [intros ac' [=]|].
        split; [|intros ac' client [=]].
        intros _ _. injection Htls as _ -> _. simpl. auto.
Qed.

(** C7.  [startClusterListener] returns the already-running error whenever
    the shutdown channel exists, and the not-configured error whenever the
    channel does not exist and no setup function is registered; in both
    cases, and so whenever one of the two conditions holds, the core is left
    as it was (no channel made, no serving loop, no waiting goroutine) and
    nothing at all was done. *)
Theorem startClusterListener_refuses (E : Externals) (c : Core) :
  (clusterListenerShutdownCh c ≠ None →
   startClusterListener E c = (Err AlreadyRunning, c, [])) ∧
  (clusterListenerShutdownCh c = None → clusterListenerSetupFunc c = None →
   startClusterListener E c = (Err NotConfigured, c, [])) ∧
  (clusterListenerShutdownCh c ≠ None ∨ clusterListenerSetupFunc c = None →
   ∃ e, result_of (startClusterListener E c) = Err e ∧
        (e = AlreadyRunning ∨ e = NotConfigured) ∧
        core_of (startClusterListener E c) = c ∧
        events_of (startClusterListener E c) = []).
Proof.
  unfold startClusterListener, mbind, M_bind. simpl.
  destruct (clusterListenerShutdownCh c) as [ch|]; simpl.
  - repeat split; try discriminate. intros _. exists AlreadyRunning. auto.
  - destruct (clusterListenerSetupFunc c) as [f|]; simpl.
    + repeat split; try discriminate; try contradiction.
      intros [Hne | [=]]. contradiction.
    + repeat split; try contradiction. intros _. exists NotConfigured. auto.
Qed.

(** ** The listener *)

Section Listener.

Context (E : Externals).

Local Arguments ClusterTLSConfig : simpl never.

Lemma serve_each_eq lns handler tlsConfig tlsLns c :
  let wrap := λ ln, {| inner := ln; config := tlsConfig |} in
  serve_each lns handler tlsConfig tlsLns c =
    (Ok (tlsLns ++ map wrap lns),
     set_serving (serving c ++ map (λ ln, (wrap ln, handler)) lns) c,
     map (λ ln, EvServe (wrap ln) handler) lns).
Proof.
  intros wrap. revert tlsLns c.
  induction lns as [|ln rest IH]; intros tlsLns c.
  - simpl. rewrite !app_nil_r. destruct c; reflexivity.
  - simpl. unfold mbind, M_bind. simpl. rewrite IH. simpl.
    rewrite <- !app_assoc. destruct c; reflexivity.
Qed.

Local Arguments serve_each : simpl never.

Lemma ClusterTLSConfig_ready c :
  tls_ready E c →
  ∃ cfg pool,
    ClusterTLSConfig E c =
      (Ok cfg, set_localClusterCertPool pool c, [EvGet coreLocalClusterInfoPath]).
Proof.
  intros (Hs & r & der & parsed & Hst & Hder & Hne & Hparse).
  destruct (ClusterTLSConfig_eq E c) as (pool & -> & _).
  assert (Hno : no_certificate r = false).
  { unfold no_certificate. rewrite Hder. simpl. destruct der; [contradiction|reflexivity]. }
  rewrite (read_identity_stored E c _ r Hs Hst), Hno, Hder. simpl. rewrite Hparse.
  rewrite reported_no_certificate, Hno, reported_Certificate, Hder. simpl. rewrite Hparse.
  eauto.
Qed.

(** The errors [ClusterTLSConfig] can return are not the already-running
    error. *)
Lemma ClusterTLSConfig_not_already c :
  result_of (ClusterTLSConfig E c) ≠ Err AlreadyRunning.
Proof.
  destruct (ClusterTLSConfig_eq E c) as (pool & -> & _).
  unfold result_of, read_identity, AlreadyRunning. simpl.
  destruct (sealed (barrier c)); [discriminate|].
  destruct (entries (barrier c) !! coreLocalClusterInfoPath) as [value|]; [|discriminate].
  destruct (jsonutil_DecodeJSON_Cluster E value) as [msg|r]; [discriminate|].
  destruct (no_certificate r) eqn:Hno.
  - rewrite reported_no_certificate, Hno. discriminate.
  - destruct (x509_ParseCertificate E (default [] (Certificate r))) eqn:Hp; [discriminate|].
    rewrite reported_no_certificate, Hno, reported_Certificate, Hp. discriminate.
Qed.

Lemma startClusterListener_not_already c :
  clusterListenerShutdownCh c = None →
  result_of (startClusterListener E c) ≠ Err AlreadyRunning.
Proof.
  intros Hch. unfold startClusterListener, mbind, M_bind. simpl. rewrite Hch. simpl.
  destruct (clusterListenerSetupFunc c) as [[msg|[lns handler]]|]; simpl;
    try discriminate.
  pose proof (ClusterTLSConfig_not_already c) as Htls.
  destruct (ClusterTLSConfig E c) as [[[cfg|e] c1] t]; simpl in *.
  - rewrite serve_each_eq. simpl. discriminate.
  - unfold result_of in *. simpl in *. intros [= ->]. apply Htls. reflexivity.
Qed.

(** A start that goes through: the two channels are new and open, and one
    goroutine waits on the first to signal on the second. *)
Lemma startClusterListener_starts c lns handler :
  clusterListenerShutdownCh c = None →
  clusterListenerSetupFunc c = Some (inr (lns, handler)) →
  tls_ready E c →
  ∃ c1 t tlsLns,
    startClusterListener E c = (Ok tt, c1, t) ∧
    clusterListenerShutdownCh c1 = Some (length (channels c)) ∧
    clusterListenerShutdownSuccessCh c1 = Some (S (length (channels c))) ∧
    channels c1 = channels c ++ [false; false] ∧
    waiting c1 = waiting c ++ [ {| waits_on := length (channels c);
                                   listeners := tlsLns;
                                   signals := S (length (channels c)) |} ] ∧
    barrier c1 = barrier c ∧
    clusterListenerSetupFunc c1 = clusterListenerSetupFunc c.
Proof.
  intros Hch Hf Hready.
  destruct (ClusterTLSConfig_ready c Hready) as (cfg & pool & Htls).
  unfold startClusterListener, mbind, M_bind. simpl. rewrite Hch. simpl.
  rewrite Hf. simpl. rewrite Htls. rewrite serve_each_eq. simpl.
  do 3 eexists. split; [reflexivity|]. simpl.
  rewrite length_app, <- app_assoc. simpl.
  replace (length (channels c) + 1) with (S (length (channels c))) by lia.
  auto 10.
Qed.

End Listener.

Section Stopping.

Lemma close_chan_fields ch c c' :
  close_chan ch c = Some c' →
  c' = set_channels (<[ch := true]> (channels c)) c.
Proof.
  unfold close_chan. destruct (channels c !! ch) as [[|]|]; congruence.
Qed.

(** The coordinators touch channels, serving loops and themselves only. *)
Lemma run_coordinators_fields fuel c t c' t' :
  run_coordinators fuel c t = Some (c', t') →
  clusterListenerShutdownCh c' = clusterListenerShutdownCh c ∧
  clusterListenerShutdownSuccessCh c' = clusterListenerShutdownSuccessCh c ∧
  barrier c' = barrier c ∧
  clusterListenerSetupFunc c' = clusterListenerSetupFunc c.
Proof.
  revert c t. induction fuel as [|fuel IH]; intros c t; simpl.
  - intros [= <- <-]. auto.
  - destruct (pick_ready c (waiting c)) as [[co others]|]; [|intros [= <- <-]; auto].
    destruct (close_chan (signals co) _) as [c2|] eqn:Hclose; [|discriminate].
    intros Hrun. apply IH in Hrun as (H1 & H2 & H3 & H4).
    apply close_chan_fields in Hclose. subst c2. simpl in *. auto.
Qed.

Lemma stopClusterListener_idle c :
  clusterListenerShutdownCh c = None →
  clusterListenerShutdownSuccessCh c = None →
  stopClusterListener c = Returns c [].
Proof.
  intros H1 H2. unfold stopClusterListener. rewrite H1, H2. reflexivity.
Qed.

Lemma stopClusterListener_resets c c' t :
  stopClusterListener c = Returns c' t →
  clusterListenerShutdownCh c' = None ∧ clusterListenerShutdownSuccessCh c' = None.
Proof.
  unfold stopClusterListener.
  destruct (clusterListenerShutdownCh c) as [ch|] eqn:Hch.
  - destruct (close_chan ch c) as [c1|] eqn:Hclose; [|discriminate].
    apply close_chan_fields in Hclose. subst c1. simpl.
    destruct (clusterListenerShutdownSuccessCh c) as [successCh|] eqn:Hsu.
    + destruct (run_coordinators _ _ _) as [[c2 t2]|] eqn:Hrun; [|discriminate].
      destruct (is_closed successCh c2); [|discriminate].
      intros [= <- <-]. simpl. auto.
    + intros [= <- <-]. simpl. auto.
  - destruct (clusterListenerShutdownSuccessCh c) as [successCh|] eqn:Hsu.
    + destruct (run_coordinators _ _ _) as [[c2 t2]|] eqn:Hrun; [|discriminate].
      destruct (is_closed successCh c2); [|discriminate].
      intros [= <- <-]. simpl.
      apply run_coordinators_fields in Hrun as (H1 & _). rewrite H1, Hch. auto.
    + intros [= <- <-]. auto.
Qed.

(** Stopping what [startClusterListener] started: the goroutine wakes up,
    closes its listeners and signals, and the stop returns. *)
Lemma stopClusterListener_after_start c chs co :
  channels c = chs ++ [false; false] →
  clusterListenerShutdownCh c = Some (length chs) →
  clusterListenerShutdownSuccessCh c = Some (S (length chs)) →
  waiting c = [co] → waits_on co = length chs → signals co = S (length chs) →
  ∃ c' t,
    stopClusterListener c = Returns c' t ∧
    clusterListenerShutdownCh c' = None ∧
    clusterListenerShutdownSuccessCh c' = None ∧
    waiting c' = [] ∧
    barrier c' = barrier c ∧
    clusterListenerSetupFunc c' = clusterListenerSetupFunc c.
Proof.
  intros Hchs Hch Hsu Hw Hwait Hsig.
  assert (L0 : (chs ++ [false; false]) !! length chs = Some false).
  { apply list_lookup_middle. reflexivity. }
  assert (L1 : <[length chs := true]> (chs ++ [false; false]) = chs ++ [true; false]).
  { rewrite insert_app_r_alt by lia. rewrite Nat.sub_diag. reflexivity. }
  assert (L2 : (chs ++ [true; false]) !! length chs = Some true).
  { apply list_lookup_middle. reflexivity. }
  assert (L3 : (chs ++ [true; false]) !! S (length chs) = Some false).
  { rewrite lookup_app_r by lia. replace (S (length chs) - length chs) with 1 by lia.
    reflexivity. }
  assert (L4 : <[S (length chs) := true]> (chs ++ [true; false]) = chs ++ [true; true]).
  { rewrite insert_app_r_alt by lia. replace (S (length chs) - length chs) with 1 by lia.
    reflexivity. }
  assert (L5 : (chs ++ [true; true]) !! S (length chs) = Some true).
  { rewrite lookup_app_r by lia. replace (S (length chs) - length chs) with 1 by lia.
    reflexivity. }
  destruct c as [b name addr key pool f ch1 ch2 conn chans sv wt].
  destruct co as [w lns s]. simpl in *. subst.
  unfold stopClusterListener, close_chan, is_closed. simpl.
  rewrite L0. simpl. rewrite L1. unfold is_closed. simpl. rewrite L2. simpl.
  unfold close_chan. simpl. rewrite L3. simpl. rewrite L4.
  unfold is_closed. simpl. rewrite L5.
  do 2 eexists. split; [reflexivity|]. simpl. auto 10.
Qed.

End Stopping.

Lemma tls_ready_storage (E : Externals) (c c' : Core) :
  barrier c' = barrier c → tls_ready E c → tls_ready E c'.
Proof.
  unfold tls_ready, stored_identity, stored_at. intros ->. auto.
Qed.

Lemma cycle_keeps_idle (E : Externals) (c : Core) :
  listener_idle E c →
  ∃ c1 t1 c2 t2,
    startClusterListener E c = (Ok tt, c1, t1) ∧
    stopClusterListener c1 = Returns c2 t2 ∧
    listener_idle E c2.
Proof.
  intros (Hch & Hsu & Hw & (lns & handler & Hf) & Hready).
  destruct (startClusterListener_starts E c lns handler Hch Hf Hready)
    as (c1 & t1 & tlsLns & Hstart & Hch1 & Hsu1 & Hchs1 & Hw1 & Hb1 & Hf1).
  rewrite Hw in Hw1. simpl in Hw1.
  destruct (stopClusterListener_after_start c1 (channels c) _ Hchs1 Hch1 Hsu1 Hw1
              eq_refl eq_refl)
    as (c2 & t2 & Hstop & Hch2 & Hsu2 & Hw2 & Hb2 & Hf2).
  exists c1, t1, c2, t2. split; [exact Hstart|]. split; [exact Hstop|].
  unfold listener_idle. split; [exact Hch2|]. split; [exact Hsu2|]. split; [exact Hw2|].
  split.
  - exists lns, handler. rewrite Hf2, Hf1. exact Hf.
  - apply (tls_ready_storage E c c2); [congruence|exact Hready].
Qed.

(** C8.  [stopClusterListener] changes nothing when both channels are nil.
    Whenever it returns, both channels are nil afterwards, so a
    [startClusterListener] called next does not fail with the
    already-running error.  And on a core whose listener is idle, with a
    setup function registered and a certificate stored, any number of
    rounds of start and stop go through, each start succeeding and each
    stop returning, and leave the listener idle again. *)
Theorem stopClusterListener_cycle (E : Externals) (c : Core) :
  (clusterListenerShutdownCh c = None →
   clusterListenerShutdownSuccessCh c = None →
   stopClusterListener c = Returns c []) ∧
  (∀ c' t,
     stopClusterListener c = Returns c' t →
     clusterListenerShutdownCh c' = None ∧
     clusterListenerShutdownSuccessCh c' = None ∧
     result_of (startClusterListener E c') ≠ Err AlreadyRunning) ∧
  (listener_idle E c →
   ∀ n, ∃ c', cycles E n c = Some c' ∧ listener_idle E c').
Proof.
  split; [apply stopClusterListener_idle|]. split.
  - intros c' t Hstop.
    destruct (stopClusterListener_resets c c' t Hstop) as [H1 H2].
    split; [exact H1|]. split; [exact H2|].
    apply startClusterListener_not_already. exact H1.
  - intros Hidle n. revert c Hidle.
    induction n as [|n IH]; intros c Hidle.
    + exists c. split; [reflexivity|exact Hidle].
    + destruct (cycle_keeps_idle E c Hidle) as (c1 & t1 & c2 & t2 & Hstart & Hstop & Hidle2).
      destruct (IH c2 Hidle2) as (c' & Hc & Hidle').
      exists c'. split; [|exact Hidle'].
      simpl. rewrite Hstart, Hstop. exact Hc.
Qed.

(** ** The theorems at the sample instance *)

Lemma ClusterTLSConfig_correct_witness :
  ∃ cfg,
    result_of (ClusterTLSConfig Sample.E Sample.booted) = Ok cfg ∧
    ServerName cfg = "f81d4fae-7dec-11d0-a765-00a0c91e6bf6" ∧
    ClientAuth cfg = RequireAndVerifyClientCert ∧
    NextProtos cfg = ["h2"].
Proof.
  assert (Hs : sealed (barrier Sample.booted) = false) by (vm_compute; reflexivity).
  destruct (ClusterTLSConfig_correct Sample.E Sample.booted Hs) as [_ H].
  edestruct H as (cfg & certs & Hrun & _ & Hauth & _ & _ & _ & _ & Hname & Hprotos).
  - vm_compute. reflexivity.
  - reflexivity.
  - discriminate.
  - vm_compute. reflexivity.
  - exists cfg. rewrite Hname. auto.
Defined.

Lemma ForwardRequest_correct_witness :
  result_of (ForwardRequest Sample.E {| request_text := "PUT /core1" |} Sample.connected)
  = Ok {| response_text := "200 https://127.0.0.1:8202 PUT /core1" |}.
Proof.
  destruct (ForwardRequest_correct Sample.E {| request_text := "PUT /core1" |}
              Sample.connected) as (_ & _ & H).
  edestruct H as [_ Hsent].
  - vm_compute. reflexivity.
  - discriminate.
  - simpl in Hsent. destruct Hsent as [_ ->]. reflexivity.
Defined.

Lemma refreshRequestForwardingConnection_correct_witness :
  (∃ tp,
     result_of (refreshRequestForwardingConnection Sample.E "https://127.0.0.1:8202"
                  Sample.booted) = Ok tt ∧
     requestForwardingConnection
       (core_of (refreshRequestForwardingConnection Sample.E "https://127.0.0.1:8202"
                   Sample.booted))
     = Some {| Client := {| Transport := tp |}; clusterAddr := "https://127.0.0.1:8202" |} ∧
     ServerName (TLSClientConfig tp) = "f81d4fae-7dec-11d0-a765-00a0c91e6bf6") ∧
  core_of (refreshRequestForwardingConnection Sample.E "https://127.0.0.1:8202"
             Sample.connected)
  = Sample.connected ∧
  requestForwardingConnection
    (core_of (refreshRequestForwardingConnection Sample.E "" Sample.connected)) = None ∧
  ∃ ac,
    requestForwardingConnection Sample.connected = Some ac ∧
    requestForwardingConnection
      (core_of (refreshRequestForwardingConnection Sample.E "https://127.0.0.1:8203"
                  Sample.connected))
    = Some {| Client := Client ac; clusterAddr := "https://127.0.0.1:8203" |}.
Proof.
  assert (Hconn : ∃ ac, requestForwardingConnection Sample.connected = Some ac ∧
                        clusterAddr ac = "https://127.0.0.1:8202").
  { eexists. split; [vm_compute; reflexivity|reflexivity]. }
  destruct Hconn as (ac & Hconn & Haddr).
  split; [|split; [|split]].
  - destruct (refreshRequestForwardingConnection_correct Sample.E "https://127.0.0.1:8202"
                Sample.booted) as (_ & _ & _ & H & _).
    assert (Hnone : requestForwardingConnection Sample.booted = None)
      by (vm_compute; reflexivity).
    specialize (H Hnone ltac:(discriminate)). cbv zeta in H.
    destruct (ClusterTLSConfig Sample.E Sample.booted) as [[[cfg|e] c1] t] eqn:Htls;
      [|vm_compute in Htls; discriminate Htls].
    unfold result_of at 1, core_of at 2 in H. simpl in H. destruct H as [Hok Hcore].
    exists {| TLSClientConfig := cfg |}. split; [exact Hok|]. split.
    + rewrite Hcore. destruct c1; reflexivity.
    + vm_compute in Htls. injection Htls as <- _ _. reflexivity.
  - destruct (refreshRequestForwardingConnection_correct Sample.E "https://127.0.0.1:8202"
                Sample.connected) as (H & _).
    destruct H as (_ & Hcore & _); [|exact Hcore].
    right. exists ac. split; [exact Hconn|exact Haddr].
  - destruct (refreshRequestForwardingConnection_correct Sample.E ""
                Sample.connected) as (_ & H & _).
    destruct (H ac Hconn) as [_ ->]; [rewrite Haddr; discriminate|reflexivity|].
    destruct Sample.connected; reflexivity.
  - destruct (refreshRequestForwardingConnection_correct Sample.E "https://127.0.0.1:8203"
                Sample.connected) as (_ & _ & H & _).
    exists ac. split; [exact Hconn|].
    destruct (H ac Hconn) as [_ ->]; [rewrite Haddr; discriminate|discriminate|].
    destruct Sample.connected; reflexivity.
Defined.

Lemma startClusterListener_refuses_witness :
  startClusterListener Sample.E Sample.booted = (Err NotConfigured, Sample.booted, []).
Proof.
  destruct (startClusterListener_refuses Sample.E Sample.booted) as (_ & H & _).
  apply H; vm_compute; reflexivity.
Defined.

Lemma sample_ready_idle : listener_idle Sample.E Sample.ready.
Proof.
  split; [vm_compute; reflexivity|]. split; [vm_compute; reflexivity|].
  split; [vm_compute; reflexivity|]. split.
  - do 2 eexists. vm_compute. reflexivity.
  - split; [vm_compute; reflexivity|].
    do 3 eexists. split; [vm_compute; reflexivity|].
    split; [reflexivity|]. split; [discriminate|vm_compute; reflexivity].
Qed.

Lemma stopClusterListener_cycle_witness :
  ∃ c', cycles Sample.E 3 Sample.ready = Some c' ∧ listener_idle Sample.E c'.
Proof.
  destruct (stopClusterListener_cycle Sample.E Sample.ready) as (_ & _ & H).
  apply H. exact sample_ready_idle.
Defined.

Lemma setupCluster_stored_key_witness :
  localClusterPrivateKey (core_of (setupCluster Sample.E Sample.env Sample.joining))
  = Some Sample.key.
Proof.
  edestruct (setupCluster_stored_key Sample.E Sample.env Sample.joining) as [_ H].
  - eexists. split; [vm_compute; reflexivity|]. split; discriminate.
  - reflexivity.
  - vm_compute. reflexivity.
  - vm_compute. reflexivity.
  - edestruct H as [Hkey _]; [reflexivity..|]. exact Hkey.
Defined.



(** ** The identity record is written only when something was modified *)

Section Writes.

Context (E : Externals).

Lemma setup_key_writes env c r c' t key value :
  setup_key E env c = (r, c', t) →
  (key, value) ∈ writes t → key = coreLocalClusterKeyPath.
Proof.
  rewrite setup_key_eq.
  destruct (localClusterPrivateKey c);
    [intros [= <- <- <-] Hin; apply elem_of_nil in Hin; contradiction|].
  destruct (sealed (barrier c));
    [intros [= <- <- <-] Hin; apply elem_of_nil in Hin; contradiction|].
  destruct (entries (barrier c) !! coreLocalClusterKeyPath) as [v|].
  - destruct (jsonutil_DecodeJSON_privKeyParams E v) as [msg|params];
      [intros [= <- <- <-] Hin; apply elem_of_nil in Hin; contradiction|].
    destruct (X params), (Y params), (D params);
      try (intros [= <- <- <-] Hin; apply elem_of_nil in Hin; contradiction).
    destruct (String.eqb _ _);
      intros [= <- <- <-] Hin; apply elem_of_nil in Hin; contradiction.
  - destruct (ecdsa_GenerateKey env P521) as [msg|k];
      [intros [= <- <- <-] Hin; apply elem_of_nil in Hin; contradiction|].
    destruct (json_Marshal_privKeyParams E _) as [msg|raw];
      intros [= <- <- <-] Hin; simpl in Hin.
    + apply elem_of_nil in Hin. contradiction.
    + apply list_elem_of_singleton in Hin. congruence.
Qed.

Lemma setup_certificate_writes env need cl m c r c' t :
  setup_certificate E env need cl m c = (r, c', t) →
  writes t = [] ∧
  ∀ cl' m', r = Ok (cl', m') → m' = true → m = true ∨ created t ≠ [].
Proof.
  rewrite setup_certificate_eq.
  destruct (_ && _).
  - destruct (localClusterPrivateKey c) as [k|];
      [|intros [= <- <- <-]; split; [reflexivity|discriminate]].
    destruct (uuid_GenerateUUID_host env) as [msg|host];
      [intros [= <- <- <-]; split; [reflexivity|discriminate]|].
    simpl.
    destruct (x509_CreateCertificate env _ _ _ _) as [msg|der];
      [intros [= <- <- <-]; split; [reflexivity|discriminate]|].
    destruct (x509_ParseCertificate E der);
      intros [= <- <- <-]; (split; [reflexivity|]); [discriminate|].
    intros cl' m' _ _. right. discriminate.
  - intros [= <- <- <-]. split; [reflexivity|]. intros cl' m' [= <- <-]. auto.
Qed.

Lemma setup_store_written cl m c r c' t value :
  setup_store E cl m c = (r, c', t) →
  (coreLocalClusterInfoPath, value) ∈ writes t → m = true ∧ created t = [].
Proof.
  rewrite setup_store_eq.
  destruct m; [|intros [= <- <- <-] Hin; apply elem_of_nil in Hin; contradiction].
  destruct (json_Marshal_Cluster E cl);
    [intros [= <- <- <-] Hin; apply elem_of_nil in Hin; contradiction|].
  destruct (sealed (barrier c)); intros [= <- <- <-] _; auto.
Qed.

(** In any call, whatever its result: when the identity record is written,
    the name read was empty, or the identifier was, or a certificate was
    created. *)
Lemma setupCluster_writes_only_if_modified env c value :
  (coreLocalClusterInfoPath, value) ∈ writes (events_of (setupCluster E env c)) →
  ∃ cl0,
    read_identity E (barrier c) (clusterName c) = Ok cl0 ∧
    (Name cl0 = "" ∨ ID cl0 = "" ∨ created (events_of (setupCluster E env c)) ≠ []).
Proof.
  destruct (setupCluster E env c) as [[res c'] t] eqn:H. unfold events_of. simpl.
  unfold setupCluster in H.
  destruct (Core_Cluster_spec E c) as [pool Hcl].
  apply bind_inv in H as [(e & H & ->) | (cl & c0 & t0 & ta & H0 & H & ->)].
  { rewrite Hcl in H. injection H as _ _ <-. intros Hin.
    apply elem_of_nil in Hin. contradiction. }
  rewrite Hcl in H0.
  destruct (read_identity E (barrier c) (clusterName c)) as [cl0|e] eqn:Hread;
    [|discriminate].
  injection H0 as <- <- <-. simpl in H. rewrite writes_app. simpl.
  intros Hin. exists cl0. split; [reflexivity|].
  apply bind_inv in H as [(e & H & ->) | ([cl1 m1] & c1 & t1 & tb & H1 & H & ->)].
  { apply setup_name_quiet in H as (_ & _ & Hw & _). rewrite Hw in Hin.
    apply elem_of_nil in Hin. contradiction. }
  pose proof (setup_name_eq env cl0 false (set_localClusterCertPool pool c)) as Hname.
  rewrite H1 in Hname.
  apply setup_name_quiet in H1 as (Hc1 & _ & Hw1 & _).
  rewrite writes_app, Hw1 in Hin. simpl in Hin.
  destruct (is_empty (Name cl0)) eqn:Hn; [left; apply is_empty_true, Hn|].
  injection Hname as -> -> _ _.
  apply bind_inv in H as [(e & H & ->) | ([cl2 m2] & c2 & t2 & tc & H2 & H & ->)].
  { apply setup_id_quiet in H as (_ & _ & Hw & _). rewrite Hw in Hin.
    apply elem_of_nil in Hin. contradiction. }
  pose proof (setup_id_eq env cl0 false c1) as Hid. rewrite H2 in Hid.
  apply setup_id_quiet in H2 as (Hc2 & _ & Hw2 & _).
  rewrite writes_app, Hw2 in Hin. simpl in Hin.
  destruct (is_empty (ID cl0)) eqn:Hi; [right; left; apply is_empty_true, Hi|].
  injection Hid as -> -> _ _.
  right. right. rewrite !created_app, Hc1, Hc2. simpl.
  apply bind_inv in H as [(e & H & ->) | (need & c3 & t3 & td & H3 & H & ->)].
  { apply (setup_key_writes _ _ _ _ _ _ _ H) in Hin. destruct (paths_differ (eq_sym Hin)). }
  rewrite writes_app in Hin. apply elem_of_app in Hin as [Hin | Hin].
  { apply (setup_key_writes _ _ _ _ _ _ _ H3) in Hin. destruct (paths_differ (eq_sym Hin)). }
  apply bind_inv in H as [(e & H & ->) | ([cl4 m4] & c4 & t4 & t5 & H4 & H & ->)].
  { apply setup_certificate_writes in H as (Hw & _). rewrite Hw in Hin.
    apply elem_of_nil in Hin. contradiction. }
  apply setup_certificate_writes in H4 as (Hw4 & Hm4).
  rewrite writes_app, Hw4 in Hin. simpl in Hin.
  apply (setup_store_written _ _ _ _ _ _ _ H) in Hin as (-> & _).
  destruct (Hm4 _ _ eq_refl eq_refl) as [[=] | Hcreated].
  rewrite !created_app. intros Hnil.
  apply app_eq_nil in Hnil as [_ Hnil]. apply app_eq_nil in Hnil as [Hnil _].
  contradiction.
Qed.

End Writes.

(** ** A call that fails though the collaborators answer *)

Section Failing.

Context (E : Externals).

Lemma setup_key_rejected env c :
  key_rejected E c →
  ∃ e, setup_key E env c = (Err e, c, [EvGet coreLocalClusterKeyPath]).
Proof.
  intros (Hk & Hs & value & Hst & Hbad). unfold stored_at in Hst.
  rewrite setup_key_eq, Hk, Hs, Hst.
  destruct (jsonutil_DecodeJSON_privKeyParams E value) as [msg|params]; [eauto|].
  destruct (X params); [|eauto]. destruct (Y params); [|eauto].
  destruct (D params); [|eauto].
  destruct (String.eqb_spec (Type_ params) corePrivateKeyTypeP521) as [Heq|Hne]; [|eauto].
  exfalso. destruct Hbad as [?|[?|[?|?]]]; congruence.
Qed.

Lemma setup_name_keeps env cl m c r c' t :
  setup_name env cl m c = (r, c', t) →
  barrier c' = barrier c ∧ localClusterPrivateKey c' = localClusterPrivateKey c.
Proof.
  rewrite setup_name_eq.
  destruct (is_empty (Name cl)); [|intros [= <- <- <-]; auto].
  destruct (is_empty (clusterName c)); [|intros [= <- <- <-]; auto].
  destruct (uuid_GenerateRandomBytes env 4); intros [= <- <- <-]; auto.
Qed.

(** With unusable key material no call writes anything. *)
Lemma key_rejected_no_writes env c :
  key_rejected E c →
  writes (events_of (setupCluster E env c)) = [] ∧
  barrier (core_of (setupCluster E env c)) = barrier c.
Proof.
  intros Hrej.
  destruct (setupCluster E env c) as [[res c'] t] eqn:H. unfold events_of, core_of. simpl.
  unfold setupCluster in H.
  destruct (Core_Cluster_spec E c) as [pool Hcl].
  apply bind_inv in H as [(e & H & ->) | (cl & c0 & t0 & ta & H0 & H & ->)].
  { rewrite Hcl in H. injection H as _ <- <-. auto. }
  rewrite Hcl in H0. injection H0 as _ <- <-. simpl in H.
  apply bind_inv in H as [(e & H & ->) | ([cl1 m1] & c1 & t1 & tb & H1 & H & ->)].
  { pose proof (setup_name_keeps _ _ _ _ _ _ _ H) as (Hb & _).
    apply setup_name_quiet in H as (_ & _ & Hw & _). simpl. rewrite Hw, Hb. auto. }
  pose proof (setup_name_keeps _ _ _ _ _ _ _ H1) as (Hb1 & Hk1).
  apply setup_name_quiet in H1 as (_ & _ & Hw1 & _).
  apply bind_inv in H as [(e & H & ->) | ([cl2 m2] & c2 & t2 & tc & H2 & H & ->)].
  { apply setup_id_quiet in H as (_ & _ & Hw & -> & _).
    simpl. rewrite writes_app, Hw1, Hw, Hb1. auto. }
  apply setup_id_quiet in H2 as (_ & _ & Hw2 & -> & _).
  assert (Hrej1 : key_rejected E c1).
  { unfold key_rejected, stored_at in *. rewrite Hk1, Hb1. exact Hrej. }
  destruct (setup_key_rejected env c1 Hrej1) as [e Hkey].
  rewrite (bind_Err _ _ _ _ _ _ Hkey) in H. injection H as _ <- <-.
  simpl. rewrite !writes_app, Hw1, Hw2, Hb1. auto.
Qed.

(** When the collaborators answer, a call fails only because the identity
    cannot be read or because the stored key material cannot be used; the
    storage is as it was. *)
Lemma setupCluster_fails_on_storage env c e c' t :
  cooperative E env →
  setupCluster E env c = (Err e, c', t) →
  barrier c' = barrier c ∧
  ((∃ e', read_identity E (barrier c) (clusterName c) = Err e' ∧
          clusterName c' = clusterName c) ∨
   key_rejected E c').
Proof.
  intros (Hbytes & Hid & Hgen & Hhost & Hcreate & Hmk & Hmc) H.
  unfold setupCluster in H.
  destruct (Core_Cluster_spec E c) as [pool Hcl].
  apply bind_inv in H as [(e0 & H & _) | (cl & c0 & t0 & ta & H0 & H & ->)].
  { rewrite Hcl in H.
    destruct (read_identity E (barrier c) (clusterName c)) as [cl0|e'] eqn:Hread;
      [discriminate|].
    injection H as _ <- _. simpl. eauto. }
  rewrite Hcl in H0.
  destruct (read_identity E (barrier c) (clusterName c)) as [cl0|e'] eqn:Hread;
    [|discriminate].
  injection H0 as <- <- <-. simpl in H.
  pose proof (read_identity_unsealed E _ _ _ Hread) as Hs.
  apply bind_inv in H as [(e0 & H & _) | ([cl1 m1] & c1 & t1 & tb & H1 & H & ->)].
  { exfalso. revert H. rewrite setup_name_eq.
    destruct (is_empty (Name cl0)); [|discriminate].
    destruct (is_empty (clusterName _)); [|discriminate].
    destruct Hbytes as [b ->]. discriminate. }
  pose proof (setup_name_keeps _ _ _ _ _ _ _ H1) as (Hb1 & Hk1). simpl in Hb1, Hk1.
  apply bind_inv in H as [(e0 & H & _) | ([cl2 m2] & c2 & t2 & tc & H2 & H & ->)].
  { exfalso. revert H. rewrite setup_id_eq.
    destruct (is_empty (ID cl1)); [|discriminate].
    destruct Hid as [id ->]. discriminate. }
  apply setup_id_quiet in H2 as (_ & _ & _ & -> & _).
  apply bind_inv in H as [(e0 & H & _) | (need & c3 & t3 & td & H3 & H & ->)].
  { revert H. rewrite setup_key_eq.
    destruct (localClusterPrivateKey c1) eqn:Hk; [discriminate|].
    rewrite Hb1, Hs.
    destruct (entries (barrier c) !! coreLocalClusterKeyPath) as [value|] eqn:Hst.
    - intros H.
      assert (Hc' : c' = c1).
      { revert H.
        destruct (jsonutil_DecodeJSON_privKeyParams E value) as [msg|params];
          [intros [= _ <- _]; reflexivity|].
        destruct (X params), (Y params), (D params);
          try (intros [= _ <- _]; reflexivity).
        destruct (String.eqb _ _); [discriminate|intros [= _ <- _]; reflexivity]. }
      subst c'. split; [exact Hb1|]. right.
      unfold key_rejected, stored_at. rewrite Hk, Hb1, Hs, Hst.
      split; [reflexivity|]. split; [reflexivity|]. exists value. split; [reflexivity|].
      revert H.
      destruct (jsonutil_DecodeJSON_privKeyParams E value) as [msg|params]; [auto|].
      destruct (X params); [|auto]. destruct (Y params); [|auto].
      destruct (D params); [|auto].
      destruct (String.eqb_spec (Type_ params) corePrivateKeyTypeP521); [discriminate|auto].
    - destruct Hgen as [key ->]. destruct (Hmk (params_of_key key)) as [raw ->].
      discriminate. }
  exfalso.
  pose proof (setup_key_frame E _ _ _ _ _ H3) as (_ & Hs3 & _ & _).
  assert (Hloaded : is_Some (localClusterPrivateKey c3)).
  { revert H3. rewrite setup_key_eq.
    destruct (localClusterPrivateKey c1) eqn:Hk; [intros [= _ <- _]; eauto|].
    destruct (sealed (barrier c1)); [discriminate|].
    destruct (entries (barrier c1) !! coreLocalClusterKeyPath) as [value|].
    - destruct (jsonutil_DecodeJSON_privKeyParams E value) as [msg|params]; [discriminate|].
      destruct (X params), (Y params), (D params); try discriminate.
      destruct (String.eqb _ _); [intros [= _ <- _]; simpl; eauto|discriminate].
    - destruct (ecdsa_GenerateKey env P521); [discriminate|].
      destruct (json_Marshal_privKeyParams E _); [discriminate|].
      intros [= _ <- _]. simpl. eauto. }
  destruct Hloaded as [key Hkey].
  apply bind_inv in H as [(e0 & H & _) | ([cl4 m4] & c4 & t4 & t5 & H4 & H & _)].
  { revert H. rewrite setup_certificate_eq, Hkey.
    destruct (_ && _); [|discriminate].
    destruct Hhost as [host ->]. simpl.
    destruct (Hcreate (certificate_template host (mathrand_Int63 env)
                         (time_Now_NotBefore env) (time_Now_NotAfter env))
                      (certificate_template host (mathrand_Int63 env)
                         (time_Now_NotBefore env) (time_Now_NotAfter env))
                      (Public key) key) as (der & cert & -> & ->).
    discriminate. }
  apply setup_certificate_frame in H4 as (-> & _).
  revert H. rewrite setup_store_eq.
  destruct m4; [|discriminate].
  destruct (Hmc cl4) as [raw ->]. rewrite Hs3, Hb1, Hs. discriminate.
Qed.

(** When the identity cannot be read, a call does nothing but try. *)
Lemma unreadable_no_writes env c e :
  read_identity E (barrier c) (clusterName c) = Err e →
  writes (events_of (setupCluster E env c)) = [] ∧
  barrier (core_of (setupCluster E env c)) = barrier c.
Proof.
  intros Hread. unfold setupCluster.
  destruct (Core_Cluster_spec E c) as [pool Hcl]. rewrite Hread in Hcl.
  rewrite (bind_Err _ _ _ _ _ _ Hcl). auto.
Qed.

End Failing.

(** ** Idempotence *)

(** C2.  Call [setupCluster] twice in a row, the second time with whatever
    the random sources hand out then.  If the first call returned without
    error, or failed although its collaborators answered (so because of what
    is stored), the second call writes nothing to the barrier, and every
    stored entry, the identity record and the key material among them, is
    byte for byte as the first call left it; and if the first call returned
    without error, so does the second.  In any call at all, the identity
    record is written only when something was modified: the name read was
    empty, or the id was, or a certificate was created.  The codec is
    assumed to decode what it encoded, the certificate parser to reject an
    empty input and the identifier generator to return a non-empty text. *)
Theorem setupCluster_idempotent (E : Externals) (env1 env2 : Env) (c : Core) :
  codec_roundtrip E →
  parse_rejects_empty E →
  (∀ id, uuid_GenerateUUID_id env1 = inr id → id ≠ "") →
  let first := setupCluster E env1 c in
  let c1 := core_of first in
  let second := setupCluster E env2 c1 in
  result_of first = Ok tt ∨ cooperative E env1 →
  writes (events_of second) = [] ∧
  barrier (core_of second) = barrier c1 ∧
  stored_at coreLocalClusterInfoPath (core_of second)
    = stored_at coreLocalClusterInfoPath c1 ∧
  stored_at coreLocalClusterKeyPath (core_of second)
    = stored_at coreLocalClusterKeyPath c1 ∧
  (result_of first = Ok tt → result_of second = Ok tt) ∧
  (∀ env' c0 value,
     (coreLocalClusterInfoPath, value) ∈ writes (events_of (setupCluster E env' c0)) →
     ∃ cl0,
       read_identity E (barrier c0) (clusterName c0) = Ok cl0 ∧
       (Name cl0 = "" ∨ ID cl0 = "" ∨
        created (events_of (setupCluster E env' c0)) ≠ [])).
Proof.
  intros Hrt Hempty Hid first c1 second Hfirst.
  assert (Hgoal : writes (events_of second) = [] ∧ barrier (core_of second) = barrier c1 ∧
                  (result_of first = Ok tt → result_of second = Ok tt)).
  { pose proof (triple_eta first) as Heta. fold c1 in Heta.
    destruct (result_of first) as [[]|e] eqn:Hres.
    - pose proof (setupCluster_settles E env1 c c1 _ Hrt Hempty Hid Heta) as Hset.
      destruct (settled_fixed E env2 c1 Hset) as [pool Hsecond].
      subst second. rewrite Hsecond. auto.
    - destruct Hfirst as [[=] | Hcoop].
      destruct (setupCluster_fails_on_storage E env1 c e c1 _ Hcoop Heta)
        as (Hb & [(e' & Hread & Hname) | Hrej]).
      + rewrite <- Hb, <- Hname in Hread.
        destruct (unreadable_no_writes E env2 c1 e' Hread) as [Hw Hbar].
        subst second. split; [exact Hw|]. split; [exact Hbar|discriminate].
      + destruct (key_rejected_no_writes E env2 c1 Hrej) as [Hw Hbar].
        subst second. split; [exact Hw|]. split; [exact Hbar|discriminate]. }
  destruct Hgoal as (Hw & Hbar & Hok). unfold stored_at. rewrite Hbar.
  repeat split; auto.
  intros env' c0 value. apply setupCluster_writes_only_if_modified.
Qed.

Lemma setupCluster_idempotent_witness :
  let first := setupCluster Sample.E Sample.env (Sample.fresh "" "https://127.0.0.1:8201") in
  let second := setupCluster Sample.E Sample.env (core_of first) in
  result_of first = Ok tt ∧
  result_of second = Ok tt ∧
  writes (events_of second) = [] ∧
  barrier (core_of second) = barrier (core_of first).
Proof.
  intros first second.
  assert (Hok : result_of first = Ok tt) by (vm_compute; reflexivity).
  destruct (setupCluster_idempotent Sample.E Sample.env Sample.env
              (Sample.fresh "" "https://127.0.0.1:8201")
              SampleFacts.roundtrip SampleFacts.rejects_empty SampleFacts.id_nonempty
              (or_introl Hok))
    as (Hw & Hbar & _ & _ & Hsecond & _).
  split; [exact Hok|]. split; [exact (Hsecond Hok)|]. split; [exact Hw|exact Hbar].
Defined.

(** * Further properties *)

(** ** Reading, again *)

Section ReadingAgain.

Context (E : Externals).

(** [Cluster] in closed form, the pool included. *)
Lemma Core_Cluster_eq (c : Core) :
  Core_Cluster E c =
    (match read_identity E (barrier c) (clusterName c) with
     | Ok cl => Ok (Some cl)
     | Err e => Err e
     end,
     set_localClusterCertPool (pool_after E c) c,
     [EvGet coreLocalClusterInfoPath]).
Proof.
  unfold Core_Cluster, read_identity, pool_after, stored_identity, stored_at, reported,
    no_certificate, mbind, M_bind, barrier_Get.
  destruct c as [[sl en] name addr key pool f ch1 ch2 conn chs sv wt]; simpl.
  destruct sl; [reflexivity|].
  destruct (en !! coreLocalClusterInfoPath) as [value|]; [|reflexivity].
  destruct (jsonutil_DecodeJSON_Cluster E value) as [msg|[n i cert]]; simpl; [reflexivity|].
  destruct (is_empty name), pool as [p|], cert as [der|]; simpl; try reflexivity;
    destruct (length der =? 0)%nat; simpl; try reflexivity;
    destruct (x509_ParseCertificate E der); reflexivity.
Qed.

Lemma CertPool_AddCert_again pool cert :
  CertPool_AddCert (CertPool_AddCert pool cert) cert = CertPool_AddCert pool cert.
Proof.
  unfold CertPool_AddCert at 1.
  rewrite bool_decide_eq_true_2 by apply CertPool_AddCert_elem. reflexivity.
Qed.

Lemma CertPool_AddCert_keeps pool cert old :
  old ∈ pool → old ∈ CertPool_AddCert pool cert.
Proof.
  intros Hin. unfold CertPool_AddCert. case_bool_decide; [exact Hin|].
  apply elem_of_app. left. exact Hin.
Qed.

Lemma CertPool_AddCert_inv pool cert x :
  x ∈ CertPool_AddCert pool cert → x ∈ pool ∨ x = cert.
Proof.
  unfold CertPool_AddCert. case_bool_decide; [auto|].
  intros Hin. apply elem_of_app in Hin as [Hin|Hin]; [auto|].
  apply list_elem_of_singleton in Hin. auto.
Qed.

Lemma CertPool_AddCert_NoDup pool cert :
  NoDup pool → NoDup (CertPool_AddCert pool cert).
Proof.
  intros Hnd. unfold CertPool_AddCert. case_bool_decide as Hin; [exact Hnd|].
  apply NoDup_app. split; [exact Hnd|]. split.
  - intros x Hx Hc. apply list_elem_of_singleton in Hc. subst x. contradiction.
  - apply NoDup_singleton.
Qed.

Lemma pool_after_again (c : Core) :
  pool_after E (set_localClusterCertPool (pool_after E c) c) = pool_after E c.
Proof.
  unfold pool_after at 1 3. unfold stored_identity, stored_at. simpl.
  destruct (sealed (barrier c)) eqn:Hs.
  { unfold pool_after. rewrite Hs. reflexivity. }
  unfold pool_after, stored_identity, stored_at. rewrite Hs.
  destruct (entries (barrier c) !! coreLocalClusterInfoPath) as [value|]; [|reflexivity].
  destruct (jsonutil_DecodeJSON_Cluster E value) as [msg|r]; [reflexivity|].
  destruct (no_certificate r); [reflexivity|].
  destruct (x509_ParseCertificate E _) as [msg|cert]; [reflexivity|]. simpl.
  rewrite CertPool_AddCert_again. reflexivity.
Qed.

End ReadingAgain.

(** X1.  [Cluster] only reads.  It asks the barrier once, for the identity
    entry, and writes nothing; of the core it changes the certificate pool
    and nothing else; and when it returns no error its result is never the
    nil pointer.  When no identity entry is stored, the result is a record
    with every field empty and the core is left as it was, the pool not
    even created; when the entry does not decode, the error says so and
    carries the error of the decoder, and again the core is as it was. *)
Theorem Cluster_only_reads (E : Externals) (c : Core) :
  let run := Core_Cluster E c in
  events_of run = [EvGet coreLocalClusterInfoPath] ∧
  writes (events_of run) = [] ∧
  core_of run = set_localClusterCertPool (localClusterCertPool (core_of run)) c ∧
  barrier (core_of run) = barrier c ∧
  result_of run ≠ Ok None ∧
  (sealed (barrier c) = false → stored_at coreLocalClusterInfoPath c = None →
   run = (Ok (Some zero_Cluster), c, [EvGet coreLocalClusterInfoPath])) ∧
  (∀ value msg,
     sealed (barrier c) = false → stored_at coreLocalClusterInfoPath c = Some value →
     jsonutil_DecodeJSON_Cluster E value = inl msg →
     run = (Err (Errorf ("failed to decode cluster details: " ++ msg)), c,
            [EvGet coreLocalClusterInfoPath])).
Proof.
  intros run. subst run. rewrite Core_Cluster_eq.
  unfold events_of, core_of, result_of. simpl.
  split; [reflexivity|]. split; [reflexivity|]. split; [reflexivity|].
  split; [reflexivity|]. split; [|split].
  - destruct (read_identity E (barrier c) (clusterName c)); discriminate.
  - intros Hs Hst. unfold read_identity, pool_after, stored_identity.
    unfold stored_at in *. rewrite Hs, Hst, set_pool_same. reflexivity.
  - intros value msg Hs Hst Hdec. unfold read_identity, pool_after, stored_identity.
    unfold stored_at in *. rewrite Hs, Hst, Hdec, set_pool_same. reflexivity.
Qed.

(** X2.  Reading is repeatable.  A second call of [Cluster] right after the
    first returns what the first returned and leaves the core as the first
    left it: the pool is created once and the stored certificate is added
    once.  The same holds for [ClusterTLSConfig]. *)
Theorem Cluster_repeatable (E : Externals) (c : Core) :
  let first := Core_Cluster E c in
  let tls := ClusterTLSConfig E c in
  Core_Cluster E (core_of first) = (result_of first, core_of first, events_of first) ∧
  ClusterTLSConfig E (core_of tls) = (result_of tls, core_of tls, events_of tls).
Proof.
  intros first tls. split.
  - subst first. rewrite (Core_Cluster_eq E c). unfold core_of, result_of, events_of. simpl.
    rewrite Core_Cluster_eq. simpl. rewrite pool_after_again. reflexivity.
  - subst tls. unfold ClusterTLSConfig.
    pose proof (Core_Cluster_eq E c) as H1.
    destruct (read_identity E (barrier c) (clusterName c)) as [cl|e] eqn:Hread.
    + rewrite (bind_Ok _ _ _ _ _ _ H1).
      set (c1 := set_localClusterCertPool (pool_after E c) c).
      assert (H2 : Core_Cluster E c1 = (Ok (Some cl), c1, [EvGet coreLocalClusterInfoPath])).
      { subst c1. rewrite Core_Cluster_eq. simpl. rewrite Hread, pool_after_again.
        reflexivity. }
      destruct (no_certificate cl) eqn:Hno.
      * unfold core_of, result_of, events_of. simpl.
        rewrite (bind_Ok _ _ _ _ _ _ H2). rewrite Hno. reflexivity.
      * destruct (x509_ParseCertificate E (default [] (Certificate cl))) as [msg|cert] eqn:Hp;
          unfold core_of, result_of, events_of, mbind, M_bind; simpl.
        -- fold c1. rewrite H2. rewrite Hno. simpl. rewrite Hp. reflexivity.
        -- fold c1. rewrite H2. rewrite Hno. simpl. rewrite Hp. reflexivity.
    + rewrite (bind_Err _ _ _ _ _ _ H1). unfold core_of, result_of, events_of. simpl.
      apply bind_Err. rewrite Core_Cluster_eq. simpl. rewrite Hread, pool_after_again.
      reflexivity.
Qed.

(** X3.  The certificate pool only grows, and only by the stored
    certificate: every certificate the pool held before a call of [Cluster]
    is in it afterwards, whatever the call returns; a certificate that is
    new in the pool is the stored one, parsed; and a pool without
    duplicates stays without. *)
Theorem Cluster_pool_grows (E : Externals) (c : Core) :
  let pool := default [] (localClusterCertPool c) in
  let pool' := default [] (localClusterCertPool (core_of (Core_Cluster E c))) in
  (∀ cert, cert ∈ pool → cert ∈ pool') ∧
  (∀ cert, cert ∈ pool' → cert ∉ pool →
     ∃ r der, stored_identity E c = Some r ∧ Certificate r = Some der ∧ der ≠ [] ∧
              x509_ParseCertificate E der = inr cert) ∧
  (NoDup pool → NoDup pool') ∧
  (length pool ≤ length pool')%nat ∧ (length pool' ≤ S (length pool))%nat.
Proof.
  intros pool pool'. subst pool'. rewrite Core_Cluster_eq. unfold core_of. simpl.
  unfold pool_after. fold pool.
  destruct (sealed (barrier c)); [fold pool; repeat split; auto; try lia; contradiction|].
  destruct (stored_identity E c) as [r|]; [|fold pool; repeat split; auto; try lia; contradiction].
  destruct (no_certificate r) eqn:Hno; [simpl; repeat split; auto; try lia; contradiction|].
  destruct (x509_ParseCertificate E (default [] (Certificate r))) as [msg|cert] eqn:Hp;
    [simpl; repeat split; auto; try lia; contradiction|].
  simpl. split; [|split; [|split; [|split]]].
  - intros old. apply CertPool_AddCert_keeps.
  - intros x Hin Hout. apply CertPool_AddCert_inv in Hin as [Hin | ->]; [contradiction|].
    unfold no_certificate in Hno.
    destruct (Certificate r) as [der|] eqn:Hder; [|discriminate].
    exists r, der. split; [reflexivity|]. split; [exact Hder|].
    split; [|exact Hp]. intros ->. discriminate.
  - apply CertPool_AddCert_NoDup.
  - unfold CertPool_AddCert. case_bool_decide; [lia|]. rewrite length_app. simpl. lia.
  - unfold CertPool_AddCert. case_bool_decide; [lia|]. rewrite length_app. simpl. lia.
Qed.

(** ** Every way a call of [setupCluster] can go *)

Section AnyRun.

Context (E : Externals).

(** A call of [setupCluster], step by step, whatever its result: each step
    is run on what the step before left, and the first error is the
    result. *)
Lemma setupCluster_any env c r c' t :
  setupCluster E env c = (r, c', t) →
  let c0 := set_localClusterCertPool (pool_after E c) c in
  match read_identity E (barrier c) (clusterName c) with
  | Err e => r = Err e ∧ c' = c0 ∧ t = [EvGet coreLocalClusterInfoPath]
  | Ok cl0 =>
      ∃ r1 c1 t1,
        setup_name env cl0 false c0 = (r1, c1, t1) ∧
        match r1 with
        | Err e => r = Err e ∧ c' = c1 ∧ t = EvGet coreLocalClusterInfoPath :: t1
        | Ok (cl1, m1) =>
            ∃ r2 t2,
              setup_id env cl1 m1 c1 = (r2, c1, t2) ∧
              match r2 with
              | Err e =>
                  r = Err e ∧ c' = c1 ∧ t = EvGet coreLocalClusterInfoPath :: t1 ++ t2
              | Ok (cl2, m2) =>
                  ∃ r3 c3 t3,
                    setup_key E env c1 = (r3, c3, t3) ∧
                    match r3 with
                    | Err e =>
                        r = Err e ∧ c' = c3 ∧
                        t = EvGet coreLocalClusterInfoPath :: t1 ++ t2 ++ t3
                    | Ok need =>
                        ∃ r4 t4,
                          setup_certificate E env need cl2 m2 c3 = (r4, c3, t4) ∧
                          match r4 with
                          | Err e =>
                              r = Err e ∧ c' = c3 ∧
                              t = EvGet coreLocalClusterInfoPath :: t1 ++ t2 ++ t3 ++ t4
                          | Ok (cl4, m4) =>
                              ∃ t5,
                                setup_store E cl4 m4 c3 = (r, c', t5) ∧
                                t = EvGet coreLocalClusterInfoPath
                                      :: t1 ++ t2 ++ t3 ++ t4 ++ t5
                          end
                    end
              end
        end
  end.
Proof.
  intros H c0. unfold setupCluster in H.
  pose proof (Core_Cluster_eq E c) as Hcl. fold c0 in Hcl.
  apply bind_inv in H as [(e & H & ->) | (cl & c0' & t0 & ta & H0 & H & ->)].
  { rewrite Hcl in H.
    destruct (read_identity E (barrier c) (clusterName c)) as [cl0|e']; [discriminate|].
    injection H as <- <- <-. auto. }
  rewrite Hcl in H0.
  destruct (read_identity E (barrier c) (clusterName c)) as [cl0|e']; [|discriminate].
  injection H0 as <- <- <-. simpl in H.
  apply bind_inv in H as [(e & H & ->) | ([cl1 m1] & c1 & t1 & tb & H1 & H & ->)].
  { exists (Err e), c', ta. auto. }
  exists (Ok (cl1, m1)), c1, t1. split; [exact H1|].
  apply bind_inv in H as [(e & H & ->) | ([cl2 m2] & c2 & t2 & tc & H2 & H & ->)].
  { pose proof (setup_id_quiet _ _ _ _ _ _ _ H) as (_ & _ & _ & -> & _).
    exists (Err e), tb. auto. }
  pose proof (setup_id_quiet _ _ _ _ _ _ _ H2) as (_ & _ & _ & -> & _).
  exists (Ok (cl2, m2)), t2. split; [exact H2|].
  apply bind_inv in H as [(e & H & ->) | (need & c3 & t3 & td & H3 & H & ->)].
  { exists (Err e), c', tc. auto. }
  exists (Ok need), c3, t3. split; [exact H3|].
  apply bind_inv in H as [(e & H & ->) | ([cl4 m4] & c4 & t4 & t5 & H4 & H & ->)].
  { pose proof (setup_certificate_frame E _ _ _ _ _ _ _ _ H) as (-> & _).
    exists (Err e), td. auto. }
  pose proof (setup_certificate_frame E _ _ _ _ _ _ _ _ H4) as (-> & _).
  exists (Ok (cl4, m4)), t4. split; [exact H4|].
  exists t5. auto.
Qed.

(** The key step either leaves the storage alone or puts the parameters of
    the key it has just generated, and loads that key. *)
Lemma setup_key_puts env c r c' t :
  setup_key E env c = (r, c', t) →
  sealed (barrier c) = false →
  (writes t = [] ∧ barrier c' = barrier c) ∨
  (∃ key raw,
     ecdsa_GenerateKey env P521 = inr key ∧
     json_Marshal_privKeyParams E (params_of_key key) = inr raw ∧
     writes t = [(coreLocalClusterKeyPath, raw)] ∧
     barrier c' = apply_writes (barrier c) [(coreLocalClusterKeyPath, raw)] ∧
     localClusterPrivateKey c = None ∧
     localClusterPrivateKey c' = Some key ∧
     r = Ok true).
Proof.
  rewrite setup_key_eq. intros H Hs. rewrite Hs in H. revert H.
  destruct (localClusterPrivateKey c) eqn:Hk; [intros [= <- <- <-]; auto|].
  destruct (entries (barrier c) !! coreLocalClusterKeyPath) as [value|].
  - destruct (jsonutil_DecodeJSON_privKeyParams E value) as [msg|params];
      [intros [= <- <- <-]; auto|].
    destruct (X params), (Y params), (D params); try (intros [= <- <- <-]; auto).
    destruct (String.eqb _ _); intros [= <- <- <-]; auto.
  - destruct (ecdsa_GenerateKey env P521) as [msg|key]; [intros [= <- <- <-]; auto|].
    destruct (json_Marshal_privKeyParams E _) as [msg|raw] eqn:Hm;
      [intros [= <- <- <-]; auto|].
    intros [= <- <- <-]. right. exists key, raw. unfold apply_writes. simpl.
    rewrite Hs. auto 10.
Qed.

(** The last step either leaves the storage alone or puts the record. *)
Lemma setup_store_puts cl m c r c' t :
  setup_store E cl m c = (r, c', t) →
  sealed (barrier c) = false →
  localClusterPrivateKey c' = localClusterPrivateKey c ∧
  ((writes t = [] ∧ barrier c' = barrier c) ∨
   (∃ raw,
      json_Marshal_Cluster E cl = inr raw ∧ m = true ∧
      writes t = [(coreLocalClusterInfoPath, raw)] ∧
      barrier c' = apply_writes (barrier c) [(coreLocalClusterInfoPath, raw)])).
Proof.
  rewrite setup_store_eq. intros H Hs. rewrite Hs in H. revert H.
  destruct m; [|intros [= <- <- <-]; auto].
  destruct (json_Marshal_Cluster E cl) as [msg|raw]; [intros [= <- <- <-]; auto|].
  intros [= <- <- <-]. split; [reflexivity|]. right. exists raw.
  unfold apply_writes. simpl. rewrite Hs. auto.
Qed.

Lemma apply_writes_nil b : apply_writes b [] = b.
Proof. destruct b. reflexivity. Qed.

Lemma apply_writes_app b ws1 ws2 :
  apply_writes b (ws1 ++ ws2) = apply_writes (apply_writes b ws1) ws2.
Proof. unfold apply_writes. simpl. rewrite foldl_app. reflexivity. Qed.

Lemma apply_writes_other b ws key :
  (∀ w, w ∈ ws → w.1 ≠ key) →
  entries (apply_writes b ws) !! key = entries b !! key.
Proof.
  unfold apply_writes. simpl. generalize (entries b) as m.
  induction ws as [|w ws IH]; intros m Hne; [reflexivity|]. simpl.
  rewrite IH.
  - apply lookup_insert_ne. apply Hne. apply elem_of_cons. auto.
  - intros w' Hin. apply Hne. apply elem_of_cons. auto.
Qed.

(** A key step that goes through has a key loaded. *)
Lemma setup_key_loads env c need c' t :
  setup_key E env c = (Ok need, c', t) → is_Some (localClusterPrivateKey c').
Proof.
  rewrite setup_key_eq.
  destruct (localClusterPrivateKey c) eqn:Hk; [intros [= _ <- _]; eauto|].
  destruct (sealed (barrier c)); [discriminate|].
  destruct (entries (barrier c) !! coreLocalClusterKeyPath) as [value|].
  - destruct (jsonutil_DecodeJSON_privKeyParams E value) as [msg|params]; [discriminate|].
    destruct (X params), (Y params), (D params); try discriminate.
    destruct (String.eqb _ _); [intros [= _ <- _]; simpl; eauto|discriminate].
  - destruct (ecdsa_GenerateKey env P521); [discriminate|].
    destruct (json_Marshal_privKeyParams E _); [discriminate|].
    intros [= _ <- _]. simpl. eauto.
Qed.

(** Everything a call of [setupCluster] writes, and where. *)
Lemma setupCluster_puts env c r c' t :
  setupCluster E env c = (r, c', t) →
  ∃ wk wi,
    writes t = wk ++ wi ∧
    barrier c' = apply_writes (barrier c) (wk ++ wi) ∧
    (wk = [] ∨
     ∃ key raw,
       ecdsa_GenerateKey env P521 = inr key ∧
       json_Marshal_privKeyParams E (params_of_key key) = inr raw ∧
       wk = [(coreLocalClusterKeyPath, raw)] ∧
       localClusterPrivateKey c = None ∧
       localClusterPrivateKey c' = Some key) ∧
    (wi = [] ∨
     ∃ cluster raw,
       json_Marshal_Cluster E cluster = inr raw ∧
       wi = [(coreLocalClusterInfoPath, raw)] ∧ r = Ok tt).
Proof.
  intros H. apply setupCluster_any in H. simpl in H.
  destruct (read_identity E (barrier c) (clusterName c)) as [cl0|e] eqn:Hread.
  2:{ destruct H as (-> & -> & ->). exists [], []. simpl. rewrite apply_writes_nil. auto. }
  pose proof (read_identity_unsealed E _ _ _ Hread) as Hs.
  destruct H as (r1 & c1 & t1 & H1 & H).
  pose proof (setup_name_keeps _ _ _ _ _ _ _ H1) as (Hb1 & Hk1). simpl in Hb1, Hk1.
  pose proof (setup_name_quiet _ _ _ _ _ _ _ H1) as (_ & _ & Hw1 & _).
  destruct r1 as [[cl1 m1]|e].
  2:{ destruct H as (-> & -> & ->). exists [], []. simpl.
      rewrite Hw1, Hb1, apply_writes_nil. auto. }
  destruct H as (r2 & t2 & H2 & H).
  pose proof (setup_id_quiet _ _ _ _ _ _ _ H2) as (_ & _ & Hw2 & _).
  destruct r2 as [[cl2 m2]|e].
  2:{ destruct H as (-> & -> & ->). exists [], []. simpl.
      rewrite writes_app, Hw1, Hw2, Hb1, apply_writes_nil. auto. }
  destruct H as (r3 & c3 & t3 & H3 & H).
  assert (Hs1 : sealed (barrier c1) = false) by (rewrite Hb1; exact Hs).
  pose proof (setup_key_frame E _ _ _ _ _ H3) as (_ & Hs3 & _).
  rewrite Hs1 in Hs3.
  apply setup_key_puts in H3 as [(Hw3 & Hb3) | (key & raw & Hg & Hm & Hw3 & Hb3 & Hn & Hk3 & ->)];
    [| |exact Hs1].
  - (* the key step wrote nothing *)
    destruct r3 as [need|e].
    2:{ destruct H as (-> & -> & ->). exists [], []. simpl.
        rewrite !writes_app, Hw1, Hw2, Hw3, Hb3, Hb1, apply_writes_nil. auto. }
    destruct H as (r4 & t4 & H4 & H).
    pose proof (setup_certificate_writes E _ _ _ _ _ _ _ _ H4) as (Hw4 & _).
    destruct r4 as [[cl4 m4]|e].
    2:{ destruct H as (-> & -> & ->). exists [], []. simpl.
        rewrite !writes_app, Hw1, Hw2, Hw3, Hw4, Hb3, Hb1, apply_writes_nil. auto. }
    destruct H as (t5 & H5 & ->).
    pose proof (setup_store_eq E cl4 m4 c3) as Hres. rewrite H5 in Hres.
    apply setup_store_puts in H5 as (_ & [(Hw5 & Hb5) | (raw & Hm & -> & Hw5 & Hb5)]);
      [| |exact Hs3].
    + exists [], []. simpl.
      rewrite !writes_app, Hw1, Hw2, Hw3, Hw4, Hw5, Hb5, Hb3, Hb1, apply_writes_nil. auto.
    + exists [], [(coreLocalClusterInfoPath, raw)]. simpl.
      rewrite !writes_app, Hw1, Hw2, Hw3, Hw4, Hw5, Hb5, Hb3, Hb1.
      split; [reflexivity|]. split; [reflexivity|]. split; [auto|].
      right. exists cl4, raw. split; [exact Hm|]. split; [reflexivity|].
      rewrite Hm, Hs3 in Hres. injection Hres as -> _ _. reflexivity.
  - (* the key step stored a new key *)
    destruct H as (r4 & t4 & H4 & H).
    pose proof (setup_certificate_writes E _ _ _ _ _ _ _ _ H4) as (Hw4 & _).
    rewrite Hk1 in Hn. simpl in Hn.
    destruct r4 as [[cl4 m4]|e].
    2:{ destruct H as (-> & -> & ->). exists [(coreLocalClusterKeyPath, raw)], []. simpl.
        rewrite !writes_app, Hw1, Hw2, Hw3, Hw4, Hb3, Hb1.
        split; [reflexivity|]. split; [reflexivity|]. split; [|auto].
        right. exists key, raw. auto. }
    destruct H as (t5 & H5 & ->).
    pose proof (setup_store_eq E cl4 m4 c3) as Hres. rewrite H5 in Hres.
    apply setup_store_puts in H5 as (Hk5 & [(Hw5 & Hb5) | (raw5 & Hm5 & -> & Hw5 & Hb5)]);
      [| |exact Hs3].
    + exists [(coreLocalClusterKeyPath, raw)], []. simpl.
      rewrite !writes_app, Hw1, Hw2, Hw3, Hw4, Hw5, Hb5, Hb3, Hb1.
      split; [reflexivity|]. split; [reflexivity|]. split; [|auto].
      right. exists key, raw. rewrite Hk5. auto.
    + exists [(coreLocalClusterKeyPath, raw)], [(coreLocalClusterInfoPath, raw5)]. simpl.
      rewrite !writes_app, Hw1, Hw2, Hw3, Hw4, Hw5, Hb5, Hb3, Hb1.
      split; [reflexivity|]. split.
      { rewrite <- apply_writes_app. reflexivity. }
      split.
      * right. exists key, raw. rewrite Hk5. auto.
      * right. exists cl4, raw5. split; [exact Hm5|]. split; [reflexivity|].
        rewrite Hm5, Hs3 in Hres. injection Hres as -> _ _. reflexivity.
Qed.

End AnyRun.

(** X4.  What a call of [setupCluster] writes, whatever its result: at
    most the key material, and then at most the identity record, in this
    order and each at most once.  The key material written is the encoding
    of the key generated in this call, which the node holds from then on,
    so a call that fails after it stored a new key leaves that key in
    storage and in memory.  The storage afterwards is the storage before
    with these entries put; the entries under every other key are
    untouched. *)
Theorem setupCluster_writes_in_order (E : Externals) (env : Env) (c : Core) :
  let run := setupCluster E env c in
  ∃ wk wi,
    writes (events_of run) = wk ++ wi ∧
    (wk = [] ∨
     ∃ key raw,
       ecdsa_GenerateKey env P521 = inr key ∧
       json_Marshal_privKeyParams E (params_of_key key) = inr raw ∧
       wk = [(coreLocalClusterKeyPath, raw)] ∧
       localClusterPrivateKey (core_of run) = Some key) ∧
    (wi = [] ∨
     ∃ cluster raw,
       json_Marshal_Cluster E cluster = inr raw ∧
       wi = [(coreLocalClusterInfoPath, raw)]) ∧
    barrier (core_of run) = apply_writes (barrier c) (writes (events_of run)) ∧
    ∀ key,
      key ≠ coreLocalClusterKeyPath → key ≠ coreLocalClusterInfoPath →
      stored_at key (core_of run) = stored_at key c.
Proof.
  intros run. pose proof (triple_eta run) as Heta.
  apply setupCluster_puts in Heta
    as (wk & wi & Hw & Hb & Hk & Hi).
  exists wk, wi. split; [exact Hw|]. split; [|split; [|split]].
  - destruct Hk as [-> | (key & raw & Hg & Hm & -> & _ & Hl)]; [auto|].
    right. exists key, raw. auto.
  - destruct Hi as [-> | (cl & raw & Hm & -> & _)]; [auto|].
    right. exists cl, raw. auto.
  - rewrite Hw. exact Hb.
  - intros key Hnk Hni. unfold stored_at. rewrite Hb.
    apply apply_writes_other. intros w Hin.
    apply elem_of_app in Hin as [Hin | Hin].
    + destruct Hk as [-> | (k & raw & _ & _ & -> & _)].
      * apply elem_of_nil in Hin. contradiction.
      * apply list_elem_of_singleton in Hin. subst w. simpl. auto.
    + destruct Hi as [-> | (cl & raw & _ & -> & _)].
      * apply elem_of_nil in Hin. contradiction.
      * apply list_elem_of_singleton in Hin. subst w. simpl. auto.
Qed.

Section LoadedKey.

Context (E : Externals).

Lemma reads_app t1 t2 : reads (t1 ++ t2) = reads t1 ++ reads t2.
Proof. apply omap_app. Qed.

Lemma setup_name_reads env cl m c r c' t :
  setup_name env cl m c = (r, c', t) → reads t = [].
Proof.
  rewrite setup_name_eq.
  destruct (is_empty (Name cl)); [|intros [= <- <- <-]; reflexivity].
  destruct (is_empty (clusterName c)); [|intros [= <- <- <-]; reflexivity].
  destruct (uuid_GenerateRandomBytes env 4); intros [= <- <- <-]; reflexivity.
Qed.

Lemma setup_id_reads env cl m c r c' t :
  setup_id env cl m c = (r, c', t) → reads t = [].
Proof.
  rewrite setup_id_eq.
  destruct (is_empty (ID cl)); [|intros [= <- <- <-]; reflexivity].
  destruct (uuid_GenerateUUID_id env); intros [= <- <- <-]; reflexivity.
Qed.

Lemma setup_certificate_reads env need cl m c r c' t :
  setup_certificate E env need cl m c = (r, c', t) → reads t = [].
Proof.
  rewrite setup_certificate_eq.
  destruct (_ && _); [|intros [= <- <- <-]; reflexivity].
  destruct (localClusterPrivateKey c) as [key|]; [|intros [= <- <- <-]; reflexivity].
  destruct (uuid_GenerateUUID_host env) as [msg|host]; [intros [= <- <- <-]; reflexivity|].
  simpl.
  destruct (x509_CreateCertificate env _ _ _ _) as [msg|der];
    [intros [= <- <- <-]; reflexivity|].
  destruct (x509_ParseCertificate E der); intros [= <- <- <-]; reflexivity.
Qed.

Lemma setup_store_reads cl m c r c' t :
  setup_store E cl m c = (r, c', t) → reads t = [].
Proof.
  rewrite setup_store_eq.
  destruct m; [|intros [= <- <- <-]; reflexivity].
  destruct (json_Marshal_Cluster E cl); [intros [= <- <- <-]; reflexivity|].
  destruct (sealed (barrier c)); intros [= <- <- <-]; reflexivity.
Qed.

(** With a key loaded, a call reads the identity entry and nothing else,
    and generates no key. *)
Lemma loaded_key_quiet env c key :
  localClusterPrivateKey c = Some key →
  reads (events_of (setupCluster E env c)) = [coreLocalClusterInfoPath] ∧
  generated_keys (events_of (setupCluster E env c)) = [] ∧
  localClusterPrivateKey (core_of (setupCluster E env c)) = Some key.
Proof.
  intros Hk.
  pose proof (triple_eta (setupCluster E env c)) as Heta.
  apply setupCluster_any in Heta. simpl in Heta.
  destruct (read_identity E (barrier c) (clusterName c)) as [cl0|e].
  2:{ destruct Heta as (_ & -> & ->). auto. }
  destruct Heta as (r1 & c1 & t1 & H1 & H).
  pose proof (setup_name_keeps _ _ _ _ _ _ _ H1) as (_ & Hk1). simpl in Hk1.
  pose proof (setup_name_quiet _ _ _ _ _ _ _ H1) as (_ & Hg1 & _).
  pose proof (setup_name_reads _ _ _ _ _ _ _ H1) as Hr1.
  rewrite Hk in Hk1.
  destruct r1 as [[cl1 m1]|e].
  2:{ destruct H as (_ & -> & ->). simpl. rewrite Hr1, Hg1. auto. }
  destruct H as (r2 & t2 & H2 & H).
  pose proof (setup_id_quiet _ _ _ _ _ _ _ H2) as (_ & Hg2 & _).
  pose proof (setup_id_reads _ _ _ _ _ _ _ H2) as Hr2.
  destruct r2 as [[cl2 m2]|e].
  2:{ destruct H as (_ & -> & ->). simpl.
      rewrite reads_app, generated_keys_app, Hr1, Hr2, Hg1, Hg2. auto. }
  destruct H as (r3 & c3 & t3 & H3 & H).
  rewrite setup_key_eq, Hk1 in H3. injection H3 as <- <- <-.
  destruct H as (r4 & t4 & H4 & H).
  pose proof (setup_certificate_no_keys E _ _ _ _ _ _ _ _ H4) as Hg4.
  pose proof (setup_certificate_reads _ _ _ _ _ _ _ _ H4) as Hr4.
  destruct r4 as [[cl4 m4]|e].
  2:{ destruct H as (_ & -> & ->). simpl.
      rewrite !reads_app, !generated_keys_app, Hr1, Hr2, Hr4, Hg1, Hg2, Hg4. auto. }
  destruct H as (t5 & H5 & ->).
  pose proof (setup_store_quiet E _ _ _ _ _ _ H5) as (_ & Hg5).
  pose proof (setup_store_reads _ _ _ _ _ _ H5) as Hr5.
  pose proof (setup_store_keeps_key E _ _ _ _ _ _ H5) as Hk5.
  simpl. rewrite !reads_app, !generated_keys_app, Hr1, Hr2, Hr4, Hr5, Hg1, Hg2, Hg4, Hg5.
  rewrite Hk5. auto.
Qed.

End LoadedKey.

(** X5.  A node that holds its private key keeps it.  Whatever
    [setupCluster] returns, the key loaded before the call is the key loaded
    after it; the call generates no key, does not read the key entry of the
    storage and does not write it, whether the storage holds key material,
    other key material or none. *)
Theorem setupCluster_keeps_loaded_key (E : Externals) (env : Env) (c : Core)
    (key : ecdsa_PrivateKey) :
  localClusterPrivateKey c = Some key →
  let run := setupCluster E env c in
  localClusterPrivateKey (core_of run) = Some key ∧
  generated_keys (events_of run) = [] ∧
  (coreLocalClusterKeyPath ∉ reads (events_of run)) ∧
  (∀ value, (coreLocalClusterKeyPath, value) ∉ writes (events_of run)) ∧
  stored_at coreLocalClusterKeyPath (core_of run) = stored_at coreLocalClusterKeyPath c.
Proof.
  intros Hk run.
  destruct (loaded_key_quiet E env c key Hk) as (Hr & Hg & Hl). fold run in Hr, Hg, Hl.
  pose proof (triple_eta run) as Heta.
  apply setupCluster_puts in Heta as (wk & wi & Hw & Hb & Hwk & Hwi).
  assert (Hnil : wk = []).
  { destruct Hwk as [-> | (k & raw & _ & _ & _ & Hnone & _)]; [reflexivity|congruence]. }
  subst wk. simpl in Hw, Hb.
  assert (Hinfo : ∀ w, w ∈ wi → w.1 ≠ coreLocalClusterKeyPath).
  { intros w Hin. destruct Hwi as [-> | (cl & raw & _ & -> & _)].
    - apply elem_of_nil in Hin. contradiction.
    - apply list_elem_of_singleton in Hin. subst w. simpl.
      intros Heq. apply paths_differ. symmetry. exact Heq. }
  split; [exact Hl|]. split; [exact Hg|]. split; [|split].
  - rewrite Hr. intros Hin. apply list_elem_of_singleton in Hin.
    apply paths_differ. exact Hin.
  - intros value Hin. rewrite Hw in Hin. apply (Hinfo _ Hin). reflexivity.
  - unfold stored_at. rewrite Hb. apply apply_writes_other. exact Hinfo.
Qed.

Lemma setupCluster_keeps_loaded_key_witness :
  localClusterPrivateKey (core_of (setupCluster Sample.E Sample.env Sample.booted))
  = Some Sample.key.
Proof.
  apply (setupCluster_keeps_loaded_key Sample.E Sample.env Sample.booted Sample.key).
  vm_compute. reflexivity.
Defined.

(** ** Errors that cannot come *)

Section Unreachable.

Context (E : Externals).

Lemma read_identity_errors b name e :
  read_identity E b name = Err e →
  e = Foreign ErrBarrierSealed ∨
  (∃ msg, e = Errorf ("failed to decode cluster details: " ++ msg)) ∨
  (∃ msg, e = Errorf ("error parsing local cluster certificate: " ++ msg)).
Proof.
  unfold read_identity.
  destruct (sealed b); [intros [= <-]; auto|].
  destruct (entries b !! coreLocalClusterInfoPath) as [value|]; [|discriminate].
  destruct (jsonutil_DecodeJSON_Cluster E value) as [msg|r]; [intros [= <-]; eauto|].
  destruct (no_certificate r); [discriminate|].
  destruct (x509_ParseCertificate E _) as [msg|cert]; [intros [= <-]; eauto|discriminate].
Qed.

Lemma read_identity_error_kinds b name e :
  read_identity E b name = Err e → handed_on e ∨ error_heading e.
Proof.
  intros H. apply read_identity_errors in H as [-> | [[msg ->] | [msg ->]]].
  - left. eexists. reflexivity.
  - right. exists msg. auto.
  - right. exists msg. auto.
Qed.

(** Every error of [setupCluster], by where it comes from. *)
Lemma setupCluster_error_kinds env c e c' t :
  setupCluster E env c = (Err e, c', t) →
  handed_on e ∨ InvalidKeyMaterial e ∨ error_heading e.
Proof.
  intros H. apply setupCluster_any in H. simpl in H.
  destruct (read_identity E (barrier c) (clusterName c)) as [cl0|e0] eqn:Hread.
  2:{ destruct H as ([= <-] & _).
      apply read_identity_error_kinds in Hread as [Hh | Hh]; auto. }
  destruct H as (r1 & c1 & t1 & H1 & H).
  destruct r1 as [[cl1 m1]|e1].
  2:{ destruct H as ([= <-] & _). left. revert H1. rewrite setup_name_eq.
      destruct (is_empty (Name cl0)); [|discriminate].
      destruct (is_empty (clusterName _)); [|discriminate].
      destruct (uuid_GenerateRandomBytes env 4) as [msg|]; [|discriminate].
      intros [= <- _ _]. eexists. reflexivity. }
  destruct H as (r2 & t2 & H2 & H).
  destruct r2 as [[cl2 m2]|e2].
  2:{ destruct H as ([= <-] & _). left. revert H2. rewrite setup_id_eq.
      destruct (is_empty (ID cl1)); [|discriminate].
      destruct (uuid_GenerateUUID_id env) as [msg|]; [|discriminate].
      intros [= <- _]. eexists. reflexivity. }
  destruct H as (r3 & c3 & t3 & H3 & H).
  destruct r3 as [need|e3].
  2:{ destruct H as ([= <-] & _). revert H3. rewrite setup_key_eq.
      unfold InvalidKeyMaterial, handed_on.
      destruct (localClusterPrivateKey c1); [discriminate|].
      destruct (sealed (barrier c1)); [intros [= <- _ _]; eauto|].
      destruct (entries (barrier c1) !! coreLocalClusterKeyPath) as [value|].
      - destruct (jsonutil_DecodeJSON_privKeyParams E value) as [msg|params];
          [intros [= <- _ _]; eauto|].
        destruct (X params), (Y params), (D params);
          try (intros [= <- _ _]; auto).
        destruct (String.eqb _ _); [discriminate|intros [= <- _ _]; auto].
      - destruct (ecdsa_GenerateKey env P521); [intros [= <- _ _]; eauto|].
        destruct (json_Marshal_privKeyParams E _); [intros [= <- _ _]; eauto|].
        discriminate. }
  destruct (setup_key_loads E _ _ _ _ _ H3) as [key Hkey].
  destruct H as (r4 & t4 & H4 & H).
  destruct r4 as [[cl4 m4]|e4].
  2:{ destruct H as ([= <-] & _). revert H4. rewrite setup_certificate_eq, Hkey.
      unfold error_heading, handed_on.
      destruct (_ && _); [|discriminate].
      destruct (uuid_GenerateUUID_host env); [intros [= <- _]; eauto|]. simpl.
      destruct (x509_CreateCertificate env _ _ _ _) as [msg|der];
        [intros [= <- _]; right; right; exists msg; auto|].
      destruct (x509_ParseCertificate E _) as [msg|cert];
        [intros [= <- _]; right; right; exists msg; auto|discriminate]. }
  destruct H as (t5 & H5 & _). left. revert H5. rewrite setup_store_eq.
  unfold handed_on.
  destruct m4; [|discriminate].
  destruct (json_Marshal_Cluster E cl4); [intros [= <- _ _]; eauto|].
  destruct (sealed (barrier c3)); [intros [= <- _ _]; eauto|discriminate].
Qed.

Lemma kinds_not_missing e :
  handed_on e ∨ InvalidKeyMaterial e ∨ error_heading e →
  e ≠ MissingPrivateKey ∧ e ≠ NilInformation.
Proof.
  intros [[msg ->] | [[-> | ->] | [msg [-> | [-> | [-> | ->]]]]]]; split; discriminate.
Qed.

End Unreachable.

(** X6.  The errors that come back, and two that never do.  An error
    returned by [setupCluster] is the error of a collaborator handed on as
    it is (the barrier, a random source, the encoder), or one of the two
    errors about stored key material, or the error of the decoder, of the
    certificate parser or of the certificate generator under its heading.
    An error returned by [ClusterTLSConfig] is the error of the barrier
    handed on, the error of the decoder or of the parser under its heading,
    or "cluster certificate is nil".  So [setupCluster] never returns the
    error of line 221, "failed to find private key when generating new local
    cluster certificate": by the time the certificate is made the key step
    has loaded a key or has returned.  And [ClusterTLSConfig] never returns
    the error of line 367, "cluster information is nil": [Cluster] returns a
    record whenever it returns no error. *)
Theorem errors_returned (E : Externals) (env : Env) (c : Core) :
  (∀ e, result_of (setupCluster E env c) = Err e →
        handed_on e ∨ InvalidKeyMaterial e ∨ error_heading e) ∧
  (∀ e, result_of (ClusterTLSConfig E c) = Err e →
        handed_on e ∨ error_heading e ∨ e = Errorf "cluster certificate is nil") ∧
  result_of (setupCluster E env c) ≠ Err MissingPrivateKey ∧
  result_of (ClusterTLSConfig E c) ≠ Err NilInformation.
Proof.
  assert (Hsetup : ∀ e, result_of (setupCluster E env c) = Err e →
                        handed_on e ∨ InvalidKeyMaterial e ∨ error_heading e).
  { intros e He. pose proof (triple_eta (setupCluster E env c)) as Heta.
    rewrite He in Heta. apply (setupCluster_error_kinds E env c e _ _ Heta). }
  assert (Htls : ∀ e, result_of (ClusterTLSConfig E c) = Err e →
                      handed_on e ∨ error_heading e ∨ e = Errorf "cluster certificate is nil").
  { intros e. destruct (ClusterTLSConfig_eq E c) as (pool & -> & _).
    unfold result_of. simpl.
    destruct (read_identity E (barrier c) (clusterName c)) as [cl|e0] eqn:Hread.
    - destruct (no_certificate cl); [intros [= <-]; auto|].
      destruct (x509_ParseCertificate E _) as [msg|cert]; [|discriminate].
      intros [= <-]. right. left. exists msg. auto.
    - intros [= <-]. apply read_identity_error_kinds in Hread as [Hh | Hh]; auto. }
  split; [exact Hsetup|]. split; [exact Htls|]. split.
  - intros He. apply Hsetup in He. apply kinds_not_missing in He as [He _].
    contradiction.
  - intros He. apply Htls in He as [He | [He | He]].
    + assert (Hk : handed_on NilInformation ∨ InvalidKeyMaterial NilInformation
                   ∨ error_heading NilInformation) by auto.
      apply kinds_not_missing in Hk as [_ Hk]. contradiction.
    + assert (Hk : handed_on NilInformation ∨ InvalidKeyMaterial NilInformation
                   ∨ error_heading NilInformation) by auto.
      apply kinds_not_missing in Hk as [_ Hk]. contradiction.
    + discriminate He.
Qed.

(** ** One key for the cluster *)

Section SharedKey.

Context (E : Externals).

Lemma key_of_params_of_key (key : ecdsa_PrivateKey) :
  key_of_params (pub_X (PublicKey key)) (pub_Y (PublicKey key)) (priv_D key) = key.
Proof. destruct key as [[[] x y] d]. reflexivity. Qed.

End SharedKey.

(** X7.  One key for the whole cluster.  Let a call of [setupCluster] on
    one node write key material, whatever it returns afterwards.  Then any
    node that has no key loaded and runs [setupCluster] over the storage the
    first call left loads the very key the first node holds, and generates
    none.  The key material written is assumed to decode to the parameters
    it was encoded from; the second node is assumed to get as far as the
    key. *)
Theorem setupCluster_shares_key (E : Externals) (env1 env2 : Env) (c1 c2 : Core)
    (value : bytes) :
  key_decodes_back E value →
  let first := setupCluster E env1 c1 in
  let second := setupCluster E env2 c2 in
  (coreLocalClusterKeyPath, value) ∈ writes (events_of first) →
  barrier c2 = barrier (core_of first) →
  localClusterPrivateKey c2 = None →
  identity_in_reach E env2 c2 →
  is_Some (localClusterPrivateKey (core_of first)) ∧
  localClusterPrivateKey (core_of second) = localClusterPrivateKey (core_of first) ∧
  generated_keys (events_of second) = [].
Proof.
  intros Hrt first second Hin Hb Hnone Hreach.
  pose proof (triple_eta first) as Heta.
  apply setupCluster_puts in Heta as (wk & wi & Hw & Hbar & Hwk & Hwi).
  assert (Hkey : ∃ key,
    json_Marshal_privKeyParams E (params_of_key key) = inr value ∧
    wk = [(coreLocalClusterKeyPath, value)] ∧
    localClusterPrivateKey (core_of first) = Some key).
  { rewrite Hw in Hin. apply elem_of_app in Hin as [Hin | Hin].
    - destruct Hwk as [-> | (key & raw & _ & Hm & -> & _ & Hl)].
      + apply elem_of_nil in Hin. contradiction.
      + apply list_elem_of_singleton in Hin. injection Hin as ->. eauto.
    - destruct Hwi as [-> | (cl & raw & _ & -> & _)].
      + apply elem_of_nil in Hin. contradiction.
      + apply list_elem_of_singleton in Hin. discriminate Hin. }
  destruct Hkey as (key & Hm & -> & Hl).
  assert (Hst : stored_at coreLocalClusterKeyPath c2 = Some value).
  { unfold stored_at. rewrite Hb, Hbar, apply_writes_app.
    rewrite apply_writes_other.
    - unfold apply_writes. simpl. apply lookup_insert_eq.
    - intros w Hi. destruct Hwi as [-> | (cl & raw & _ & -> & _)].
      + apply elem_of_nil in Hi. contradiction.
      + apply list_elem_of_singleton in Hi. subst w. simpl.
        intros Heq. apply paths_differ. symmetry. exact Heq. }
  destruct (stored_key_loaded E env2 c2 value (params_of_key key)
              (pub_X (PublicKey key)) (pub_Y (PublicKey key)) (priv_D key))
    as [Hk Hg]; try reflexivity; try assumption.
  { apply Hrt. exact Hm. }
  fold second in Hk, Hg. rewrite key_of_params_of_key in Hk.
  split; [rewrite Hl; eauto|]. split; [congruence|exact Hg].
Qed.

Lemma sample_key_decodes_back :
  key_decodes_back Sample.E
    [Byte.x0b; Byte.x16; Byte.x21; Byte.x70; Byte.x35; Byte.x32; Byte.x31].
Proof.
  intros [ty x y d]. simpl. unfold Sample.marshal_privKeyParams. simpl.
  intros [= Hx Hy Hd Hty].
  assert (Hc : ∀ (z : option Z) (n : N) (b : Init.Byte.byte),
    Sample.byte_of_component z = b → b ≠ Byte.xff → Strings.Byte.to_N b = n →
    (0 < n)%N → z = Some (Z.of_N n)).
  { intros z n b Hb Hne Hn Hpos. destruct z as [v|]; simpl in Hb; [|congruence].
    destruct (Strings.Byte.of_N (Z.to_N v)) as [b'|] eqn:Hof; simpl in Hb; [|congruence].
    subst b'. apply Strings.Byte.to_of_N in Hof. f_equal. lia. }
  rewrite (Hc x 11%N _ Hx), (Hc y 22%N _ Hy), (Hc d 33%N _ Hd);
    try discriminate; try reflexivity.
  assert (Hl : list_byte_of_string ty = list_byte_of_string "p521") by exact Hty.
  apply (f_equal string_of_list_byte) in Hl.
  rewrite !string_of_list_byte_of_string in Hl. subst ty. reflexivity.
Qed.

Lemma setupCluster_shares_key_witness :
  localClusterPrivateKey (core_of (setupCluster Sample.E Sample.env Sample.joining))
  = localClusterPrivateKey Sample.booted.
Proof.
  apply (setupCluster_shares_key Sample.E Sample.env Sample.env
           (Sample.fresh "" "https://127.0.0.1:8201") Sample.joining
           [Byte.x0b; Byte.x16; Byte.x21; Byte.x70; Byte.x35; Byte.x32; Byte.x31]).
  - exact sample_key_decodes_back.
  - vm_compute. apply elem_of_cons. left. reflexivity.
  - reflexivity.
  - reflexivity.
  - eexists. split; [vm_compute; reflexivity|]. split; discriminate.
Defined.

(** ** The generated name *)

Section GeneratedName.

Lemma hex_pair_back (x : Init.Byte.byte) :
  let n := Strings.Byte.to_N x in
  unhex_digit (hex_digit (n / 16)) = Some (n / 16)%N ∧
  unhex_digit (hex_digit (n mod 16)) = Some (n mod 16)%N ∧
  Strings.Byte.of_N (16 * (n / 16) + n mod 16) = Some x.
Proof. destruct x; repeat split; reflexivity. Qed.

Lemma bytes_of_hex_of_bytes (b : bytes) : bytes_of_hex (hex_of_bytes b) = Some b.
Proof.
  induction b as [|x b IH]; [reflexivity|].
  destruct (hex_pair_back x) as (Hh & Hl & Hx). simpl in *.
  rewrite Hh, Hl, IH, Hx. reflexivity.
Qed.

Lemma length_hex_of_bytes (b : bytes) :
  String.length (hex_of_bytes b) = (2 * List.length b)%nat.
Proof. induction b as [|x b IH]; simpl; [reflexivity|]. rewrite IH. lia. Qed.

Lemma sprintf_08x_unpadded (b : bytes) :
  (4 ≤ List.length b)%nat → sprintf_08x b = hex_of_bytes b.
Proof.
  intros Hlen. unfold sprintf_08x. rewrite length_hex_of_bytes.
  replace (8 - 2 * List.length b)%nat with 0%nat by lia. reflexivity.
Qed.

Lemma append_cancel (p s1 s2 : string) : (p ++ s1 = p ++ s2)%string → s1 = s2.
Proof. induction p as [|a p IH]; simpl; [auto|]. intros [= H]. auto. Qed.

End GeneratedName.

(** X8.  The name made for a cluster that has none.  For the four random
    bytes drawn (for any four bytes or more), the name is "vault-cluster-"
    followed by two lower-case hexadecimal digits for each byte, eight
    digits for four bytes, with nothing added; the bytes can be read back
    from the digits, so two different draws give two different names. *)
Theorem generated_name_reads_back (b : bytes) :
  (4 ≤ List.length b)%nat →
  ∃ digits : string,
    sprintf_cluster_name b = ("vault-cluster-" ++ digits)%string ∧
    String.length digits = (2 * List.length b)%nat ∧
    bytes_of_hex digits = Some b ∧
    ∀ b', (4 ≤ List.length b')%nat →
          sprintf_cluster_name b' = sprintf_cluster_name b → b' = b.
Proof.
  intros Hlen. exists (hex_of_bytes b). unfold sprintf_cluster_name.
  rewrite (sprintf_08x_unpadded b Hlen).
  split; [reflexivity|]. split; [apply length_hex_of_bytes|].
  split; [apply bytes_of_hex_of_bytes|].
  intros b' Hlen' Heq. rewrite (sprintf_08x_unpadded b' Hlen') in Heq.
  apply append_cancel in Heq.
  apply (f_equal bytes_of_hex) in Heq. rewrite !bytes_of_hex_of_bytes in Heq.
  congruence.
Qed.

Lemma generated_name_reads_back_witness :
  ∃ digits : string,
    sprintf_cluster_name [Byte.xde; Byte.xad; Byte.xbe; Byte.xef]
    = ("vault-cluster-" ++ digits)%string ∧
    String.length digits = 8 ∧
    bytes_of_hex digits = Some [Byte.xde; Byte.xad; Byte.xbe; Byte.xef].
Proof.
  destruct (generated_name_reads_back [Byte.xde; Byte.xad; Byte.xbe; Byte.xef])
    as (digits & Hn & Hl & Hb & _).
  - simpl. lia.
  - exists digits. auto.
Defined.

(** ** Which name a call settles on *)

Section Names.

Context (E : Externals).

Lemma setup_id_Name env cl m c cl' m' c' t :
  setup_id env cl m c = (Ok (cl', m'), c', t) → Name cl' = Name cl.
Proof.
  rewrite setup_id_eq.
  destruct (is_empty (ID cl)); [|intros [= <- <- <- <-]; reflexivity].
  destruct (uuid_GenerateUUID_id env); [discriminate|].
  intros [= <- <- <- <-]. reflexivity.
Qed.

(** A successful run: the record [Cluster] reports afterwards, with the
    name it got in the name step. *)
Lemma setupCluster_Ok_names env c c' t :
  codec_roundtrip E → parse_rejects_empty E →
  (∀ id, uuid_GenerateUUID_id env = inr id → id ≠ "") →
  setupCluster E env c = (Ok tt, c', t) →
  ∃ pool cl0 cl1 m1 c1 t1 cl,
    read_identity E (barrier c) (clusterName c) = Ok cl0 ∧
    setup_name env cl0 false (set_localClusterCertPool pool c) = (Ok (cl1, m1), c1, t1) ∧
    read_identity E (barrier c') (clusterName c') = Ok cl ∧
    Name cl = Name cl1 ∧ clusterName c' = clusterName c1 ∧
    localClusterPrivateKey c' ≠ None ∧
    (advertiseAddr c ≠ "" → no_certificate cl = false).
Proof.
  intros Hrt Hempty Hid H.
  apply setupCluster_Ok_inv in H
    as (pool & cl0 & cl1 & m1 & c1 & t1 & cl2 & m2 & c2 & t2 & need & c3 & t3
        & cl4 & m4 & c4 & t4 & t5 & Hread & H1 & H2 & H3 & H4 & H5 & ->).
  pose proof (setup_id_Name _ _ _ _ _ _ _ _ H2) as Hn2.
  pose proof (setup_certificate_frame E _ _ _ _ _ _ _ _ H4) as (_ & Hn4).
  destruct (Hn4 _ _ eq_refl) as (Hn4' & _).
  pose proof (setup_store_frame E _ _ _ _ _ _ H5) as (Hc5 & _).
  pose proof (setup_store_keeps_key E _ _ _ _ _ _ H5) as Hk5.
  pose proof H1 as H1'.
  apply (on_track_name E) in H1 as (T1 & Hb1 & Ha1 & Hk1 & Hi1 & Hc1 & Hm1); [|exact Hread].
  apply (on_track_id E) in H2 as (T2 & -> & Hi2 & Hc2 & Hm2 & _); [|exact Hid|exact T1].
  apply (on_track_key E env c1 cl2 m2) in H3 as (T3 & Hk3 & Ha3 & Hcn3 & Hst3); [|exact T2].
  apply (on_track_certificate E) in H4 as (T4 & -> & Hi4 & Hcert & Hm4 & Hskip);
    [|exact Hempty|exact T3].
  exists pool, cl0, cl1, m1, c1, t1, cl4.
  split; [exact Hread|]. split; [exact H1'|].
  assert (Hread' : read_identity E (barrier c') (clusterName c') = Ok cl4).
  { destruct T4 as (Hs & Hn & Hc & Hp & Hr).
    rewrite setup_store_eq in H5. destruct m4.
    - destruct (json_Marshal_Cluster E cl4) as [msg|raw] eqn:Hm; [discriminate|].
      rewrite Hs in H5. injection H5 as <-. simpl.
      apply read_identity_written; assumption.
    - injection H5 as <-. apply Hr. reflexivity. }
  split; [exact Hread'|]. split; [congruence|]. split; [congruence|].
  split.
  - rewrite Hk5. destruct Hk3 as [k ->]. discriminate.
  - intros Ha. apply Hcert. rewrite Ha3. simpl in Ha1. rewrite Ha1. exact Ha.
Qed.

End Names.

(** X9.  The name a call of [setupCluster] settles on, when it returns no
    error.  If [Cluster] reported a name before (the configured name when
    there is one and a record is stored, else the stored name), that name
    stays and [c.clusterName] is not touched.  If it reported none and a
    name is configured, the configured name is taken.  If there is neither,
    four random bytes are drawn, the name is made of them, and
    [c.clusterName] is set to it.  In each case this is the name [Cluster]
    reports after the call, and it is not empty. *)
Theorem setupCluster_names (E : Externals) (env : Env) (c : Core) :
  codec_roundtrip E → parse_rejects_empty E →
  (∀ id, uuid_GenerateUUID_id env = inr id → id ≠ "") →
  let run := setupCluster E env c in
  let c' := core_of run in
  result_of run = Ok tt →
  ∃ cl0 cl,
    read_identity E (barrier c) (clusterName c) = Ok cl0 ∧
    read_identity E (barrier c') (clusterName c') = Ok cl ∧
    Name cl ≠ "" ∧
    (Name cl0 ≠ "" → Name cl = Name cl0 ∧ clusterName c' = clusterName c) ∧
    (Name cl0 = "" → clusterName c ≠ "" →
     Name cl = clusterName c ∧ clusterName c' = clusterName c) ∧
    (Name cl0 = "" → clusterName c = "" →
     ∃ b, uuid_GenerateRandomBytes env 4 = inr b ∧
          Name cl = sprintf_cluster_name b ∧ clusterName c' = sprintf_cluster_name b).
Proof.
  intros Hrt Hempty Hid run c' Hok.
  assert (H : setupCluster E env c = (Ok tt, c', events_of run)).
  { rewrite (triple_eta (setupCluster E env c)) at 1. fold run. rewrite Hok. reflexivity. }
  apply setupCluster_Ok_names in H
    as (pool & cl0 & cl1 & m1 & c1 & t1 & cl & Hread & H1 & Hread' & Hn & Hc & _);
    try assumption.
  exists cl0, cl. split; [exact Hread|]. split; [exact Hread'|].
  rewrite Hn, Hc. rewrite setup_name_eq in H1. simpl in H1.
  destruct (is_empty (Name cl0)) eqn:Hn0.
  - apply is_empty_true in Hn0.
    destruct (is_empty (clusterName c)) eqn:Hc0.
    + apply is_empty_true in Hc0.
      destruct (uuid_GenerateRandomBytes env 4) as [msg|b] eqn:Hb; [discriminate|].
      injection H1 as <- <- <- <-. simpl.
      split; [apply sprintf_cluster_name_nonempty|].
      split; [intros Hne; contradiction|].
      split; [intros _ Hne; contradiction|].
      intros _ _. exists b. auto.
    + apply is_empty_false in Hc0. injection H1 as <- <- <- <-. simpl.
      split; [exact Hc0|]. split; [intros Hne; contradiction|].
      split; [auto|]. intros _ He. contradiction.
  - apply is_empty_false in Hn0. injection H1 as <- <- <- <-. simpl.
    split; [exact Hn0|]. split; [auto|].
    split; intros He; contradiction.
Qed.

Lemma setupCluster_names_witness :
  ∃ cl,
    read_identity Sample.E
      (barrier (core_of (setupCluster Sample.E Sample.env (Sample.fresh "" ""))))
      (clusterName (core_of (setupCluster Sample.E Sample.env (Sample.fresh "" ""))))
    = Ok cl ∧
    Name cl = "vault-cluster-abababab".
Proof.
  destruct (setupCluster_names Sample.E Sample.env (Sample.fresh "" "")
              SampleFacts.roundtrip SampleFacts.rejects_empty SampleFacts.id_nonempty)
    as (cl0 & cl & Hread0 & Hread & _ & _ & _ & Hgen).
  - vm_compute. reflexivity.
  - exists cl. split; [exact Hread|].
    assert (Hcl0 : cl0 = zero_Cluster).
    { vm_compute in Hread0. injection Hread0 as <-. reflexivity. }
    subst cl0. destruct (Hgen eq_refl eq_refl) as (b & Hb & Hname & _).
    injection Hb as <-. exact Hname.
Defined.

(** X10.  From [setupCluster] to [ClusterTLSConfig].  After a call of
    [setupCluster] that returned no error on a node with an advertise
    address, [ClusterTLSConfig] returns a configuration; its one
    certificate is made of the certificate in the stored record and of the
    private key the node holds, which is not nil; and the parsed
    certificate is in the pool the configuration trusts. *)
Theorem setupCluster_then_ClusterTLSConfig (E : Externals) (env : Env) (c : Core) :
  codec_roundtrip E → parse_rejects_empty E →
  (∀ id, uuid_GenerateUUID_id env = inr id → id ≠ "") →
  let c' := core_of (setupCluster E env c) in
  result_of (setupCluster E env c) = Ok tt →
  advertiseAddr c ≠ "" →
  ∃ cfg r der key parsedCert certs,
    result_of (ClusterTLSConfig E c') = Ok cfg ∧
    stored_identity E c' = Some r ∧ Certificate r = Some der ∧ der ≠ [] ∧
    localClusterPrivateKey c' = Some key ∧
    Certificates cfg = [ {| chain := [Some der]; PrivateKey := Some key |} ] ∧
    x509_ParseCertificate E der = inr parsedCert ∧
    ServerName cfg = CommonName (Subject parsedCert) ∧
    RootCAs cfg = Some certs ∧ ClientCAs cfg = Some certs ∧ parsedCert ∈ certs.
Proof.
  intros Hrt Hempty Hid c' Hok Hadv.
  assert (H : setupCluster E env c = (Ok tt, c', events_of (setupCluster E env c))).
  { rewrite (triple_eta (setupCluster E env c)) at 1. rewrite Hok. reflexivity. }
  apply setupCluster_Ok_names in H
    as (pool & cl0 & cl1 & m1 & c1 & t1 & cl & _ & _ & Hread & _ & _ & Hkey & Hcert);
    try assumption.
  specialize (Hcert Hadv).
  destruct (read_identity_parses E _ _ _ Hread Hcert) as [parsedCert Hparse].
  destruct (localClusterPrivateKey c') as [key|] eqn:Hk; [|contradiction].
  assert (Hnamed : ∃ r, stored_identity E c' = Some r ∧ cl = reported (clusterName c') r).
  { revert Hread. unfold stored_identity, stored_at, read_identity.
    destruct (sealed (barrier c')); [discriminate|].
    destruct (entries (barrier c') !! coreLocalClusterInfoPath) as [value|].
    2:{ intros [= <-]. discriminate Hcert. }
    destruct (jsonutil_DecodeJSON_Cluster E value) as [msg|r]; [discriminate|].
    destruct (no_certificate r); [intros [= <-]; exists r; auto|].
    destruct (x509_ParseCertificate E (default [] (Certificate r))); [discriminate|].
    intros [= <-]. exists r. auto. }
  destruct Hnamed as (r & Hst & ->).
  rewrite reported_no_certificate in Hcert. rewrite reported_Certificate in Hparse.
  unfold no_certificate in Hcert.
  destruct (Certificate r) as [der|] eqn:Hder; [|discriminate]. simpl in Hparse, Hcert.
  destruct (ClusterTLSConfig_eq E c') as (pool' & Htls & Hpool).
  destruct (Hpool _ parsedCert Hread) as (certs & -> & Hin).
  { rewrite reported_no_certificate. unfold no_certificate. rewrite Hder. exact Hcert. }
  { rewrite reported_Certificate, Hder. exact Hparse. }
  rewrite Htls, Hread, reported_no_certificate. unfold no_certificate at 1.
  rewrite Hder. simpl. rewrite Hcert, reported_Certificate, Hder. simpl. rewrite Hparse.
  unfold result_of. simpl. rewrite Hk.
  eexists _, r, der, key, parsedCert, certs.
  split; [reflexivity|]. simpl.
  repeat split; try assumption; try reflexivity.
  intros ->. discriminate Hcert.
Qed.

Lemma setupCluster_then_ClusterTLSConfig_witness :
  ∃ cfg, result_of (ClusterTLSConfig Sample.E Sample.booted) = Ok cfg ∧
         Certificates cfg =
           [ {| chain := [Some (Byte.x30 :: list_byte_of_string
                                   "f81d4fae-7dec-11d0-a765-00a0c91e6bf6")];
                PrivateKey := Some Sample.key |} ].
Proof.
  destruct (setupCluster_then_ClusterTLSConfig Sample.E Sample.env
              (Sample.fresh "" "https://127.0.0.1:8201")
              SampleFacts.roundtrip SampleFacts.rejects_empty SampleFacts.id_nonempty)
    as (cfg & r & der & key & parsedCert & certs & Hcfg & Hst & Hder & _ & Hk & Hc & _).
  - vm_compute. reflexivity.
  - discriminate.
  - exists cfg. split; [exact Hcfg|]. rewrite Hc.
    vm_compute in Hst. injection Hst as <-. injection Hder as <-.
    vm_compute in Hk. injection Hk as <-. reflexivity.
Defined.

(** ** Starting and stopping, in detail *)

Section ListenerAgain.

Context (E : Externals).

Local Arguments ClusterTLSConfig : simpl never.
Local Arguments serve_each : simpl never.

Lemma served_app t1 t2 : served (t1 ++ t2) = served t1 ++ served t2.
Proof. apply omap_app. Qed.

Lemma served_map_EvServe (cfg : tls_Config) (handler : http_Handler) (lns : list net_Listener) :
  served (map (λ ln, EvServe {| inner := ln; config := cfg |} handler) lns)
  = map (λ ln, ({| inner := ln; config := cfg |}, handler)) lns.
Proof. induction lns as [|ln lns IH]; simpl; [reflexivity|]. rewrite <- IH. reflexivity. Qed.

Lemma ClusterTLSConfig_frame c :
  ∃ pool,
    core_of (ClusterTLSConfig E c) = set_localClusterCertPool pool c ∧
    events_of (ClusterTLSConfig E c) = [EvGet coreLocalClusterInfoPath].
Proof.
  destruct (ClusterTLSConfig_eq E c) as (pool & -> & _). exists pool. auto.
Qed.

(** A start that returns no error, in full. *)
Lemma startClusterListener_Ok c c' t :
  startClusterListener E c = (Ok tt, c', t) →
  ∃ lns handler cfg,
    clusterListenerShutdownCh c = None ∧
    clusterListenerSetupFunc c = Some (inr (lns, handler)) ∧
    result_of (ClusterTLSConfig E c) = Ok cfg ∧
    let wrap := λ ln, {| inner := ln; config := cfg |} in
    let sh := List.length (channels c) in
    let co := {| waits_on := sh; listeners := map wrap lns; signals := S sh |} in
    t = [EvSetupFunc; EvGet coreLocalClusterInfoPath]
          ++ map (λ ln, EvServe (wrap ln) handler) lns
          ++ [EvMakeChan sh; EvMakeChan (S sh); EvGo co] ∧
    clusterListenerShutdownCh c' = Some sh ∧
    clusterListenerShutdownSuccessCh c' = Some (S sh) ∧
    channels c' = channels c ++ [false; false] ∧
    serving c' = serving c ++ map (λ ln, (wrap ln, handler)) lns ∧
    waiting c' = waiting c ++ [co] ∧
    barrier c' = barrier c ∧
    clusterListenerSetupFunc c' = clusterListenerSetupFunc c ∧
    localClusterPrivateKey c' = localClusterPrivateKey c ∧
    requestForwardingConnection c' = requestForwardingConnection c.
Proof.
  unfold startClusterListener, mbind, M_bind. simpl.
  destruct (clusterListenerShutdownCh c) as [ch|] eqn:Hch; simpl; [discriminate|].
  destruct (clusterListenerSetupFunc c) as [[msg|[lns handler]]|] eqn:Hf; simpl;
    try discriminate.
  destruct (ClusterTLSConfig_frame c) as (pool & Hc1 & Ht1).
  destruct (ClusterTLSConfig E c) as [[[cfg|e] c1] t1] eqn:Htls; [|discriminate].
  unfold core_of, events_of in Hc1, Ht1. simpl in Hc1, Ht1. subst c1 t1.
  rewrite serve_each_eq. simpl.
  intros [= <- <-]. exists lns, handler, cfg. simpl.
  rewrite length_app, <- !app_assoc. simpl.
  replace (List.length (channels c) + 1) with (S (List.length (channels c))) by lia.
  rewrite Hf. repeat split; reflexivity.
Qed.

(** A start that returns an error has started nothing. *)
Lemma startClusterListener_Err c e c' t :
  startClusterListener E c = (Err e, c', t) →
  c' = set_localClusterCertPool (localClusterCertPool c') c ∧
  served t = [] ∧
  (∀ ev, ev ∈ t → ev = EvSetupFunc ∨ ev = EvGet coreLocalClusterInfoPath).
Proof.
  unfold startClusterListener, mbind, M_bind. simpl.
  destruct (clusterListenerShutdownCh c) as [ch|] eqn:Hch; simpl.
  { intros [= <- <- <-]. rewrite set_pool_same.
    split; [reflexivity|]. split; [reflexivity|].
    intros ev Hin. apply elem_of_nil in Hin. contradiction. }
  destruct (clusterListenerSetupFunc c) as [[msg|[lns handler]]|] eqn:Hf; simpl.
  - intros [= <- <- <-]. rewrite set_pool_same.
    split; [reflexivity|]. split; [reflexivity|].
    intros ev Hin. apply list_elem_of_singleton in Hin. auto.
  - destruct (ClusterTLSConfig_frame c) as (pool & Hc1 & Ht1).
    destruct (ClusterTLSConfig E c) as [[[cfg|e'] c1] t1] eqn:Htls.
    + rewrite serve_each_eq. simpl. discriminate.
    + unfold core_of, events_of in Hc1, Ht1. simpl in Hc1, Ht1. subst c1 t1.
      intros [= <- <- <-]. simpl.
      split; [reflexivity|]. split; [reflexivity|].
      intros ev Hin. apply elem_of_cons in Hin as [-> | Hin]; [auto|].
      apply list_elem_of_singleton in Hin. auto.
  - intros [= <- <- <-]. rewrite set_pool_same.
    split; [reflexivity|]. split; [reflexivity|].
    intros ev Hin. apply elem_of_nil in Hin. contradiction.
Qed.

End ListenerAgain.

(** X11.  What a start does.  When [startClusterListener] returns no
    error, the setup function was called once and gave listeners and a
    handler, and [ClusterTLSConfig] gave a configuration.  Every listener
    the setup function returned, and no other, is served, once and in the
    order given, wrapped in TLS with that one configuration and with the
    handler the setup function returned.  Two channels are made, new,
    distinct and open, and one goroutine is left waiting on the first to
    close the wrapped listeners and signal on the second.  The storage and
    the connection used for forwarding are untouched.  A second start
    directly afterwards is refused with the already-running error and
    changes nothing. *)
Theorem startClusterListener_serves (E : Externals) (c : Core) :
  let run := startClusterListener E c in
  let c' := core_of run in
  result_of run = Ok tt →
  ∃ lns handler cfg,
    clusterListenerSetupFunc c = Some (inr (lns, handler)) ∧
    result_of (ClusterTLSConfig E c) = Ok cfg ∧
    let tlsLns := map (λ ln, {| inner := ln; config := cfg |}) lns in
    let sh := List.length (channels c) in
    served (events_of run) = map (λ tlsLn, (tlsLn, handler)) tlsLns ∧
    serving c' = serving c ++ map (λ tlsLn, (tlsLn, handler)) tlsLns ∧
    clusterListenerShutdownCh c' = Some sh ∧
    clusterListenerShutdownSuccessCh c' = Some (S sh) ∧
    channels c !! sh = None ∧ channels c !! S sh = None ∧
    is_closed sh c' = false ∧ is_closed (S sh) c' = false ∧
    waiting c' = waiting c ++ [ {| waits_on := sh; listeners := tlsLns; signals := S sh |} ] ∧
    barrier c' = barrier c ∧
    requestForwardingConnection c' = requestForwardingConnection c ∧
    startClusterListener E c' = (Err AlreadyRunning, c', []).
Proof.
  intros run c' Hok.
  assert (H : startClusterListener E c = (Ok tt, c', events_of run)).
  { rewrite (triple_eta (startClusterListener E c)) at 1. fold run. rewrite Hok. reflexivity. }
  apply startClusterListener_Ok in H
    as (lns & handler & cfg & Hch & Hf & Htls & Ht & Hsh & Hsu & Hchs & Hsv & Hw & Hb & _ & _
        & Hconn).
  exists lns, handler, cfg. split; [exact Hf|]. split; [exact Htls|]. simpl.
  rewrite map_map. simpl.
  split.
  { rewrite Ht. simpl. rewrite served_app, served_map_EvServe. simpl.
    rewrite app_nil_r. reflexivity. }
  split; [rewrite Hsv; reflexivity|].
  split; [exact Hsh|]. split; [exact Hsu|].
  split; [apply lookup_ge_None; lia|]. split; [apply lookup_ge_None; lia|].
  unfold is_closed. rewrite Hchs.
  split.
  { rewrite (list_lookup_middle (channels c) [false] false _ eq_refl). reflexivity. }
  split.
  { rewrite lookup_app_r by lia.
    replace (S (List.length (channels c)) - List.length (channels c)) with 1 by lia.
    reflexivity. }
  split; [exact Hw|]. split; [exact Hb|]. split; [exact Hconn|].
  destruct (startClusterListener_refuses E c') as (Hrefuse & _).
  apply Hrefuse. rewrite Hsh. discriminate.
Qed.

Lemma startClusterListener_serves_witness :
  served (events_of (startClusterListener Sample.E Sample.ready))
  = serving (core_of (startClusterListener Sample.E Sample.ready)) ∧
  List.length (serving (core_of (startClusterListener Sample.E Sample.ready))) = 1.
Proof.
  destruct (startClusterListener_serves Sample.E Sample.ready)
    as (lns & handler & cfg & Hf & _ & Hserved & Hserving & _).
  - vm_compute. reflexivity.
  - rewrite Hserved, Hserving.
    vm_compute in Hf. injection Hf as <- <-. split; reflexivity.
Defined.

(** X12.  A start that fails has started nothing.  When
    [startClusterListener] returns an error, whichever it is, no listener
    is served, no channel is made and no goroutine is started: of the core
    only the certificate pool may have changed (it was read for the TLS
    configuration), so both channels are as before and a later start is not
    hindered by this one.  Nothing was done but, at most, calling the setup
    function and reading the identity entry. *)
Theorem startClusterListener_fails_cleanly (E : Externals) (c : Core) (e : error) :
  let run := startClusterListener E c in
  let c' := core_of run in
  result_of run = Err e →
  c' = set_localClusterCertPool (localClusterCertPool c') c ∧
  channels c' = channels c ∧ serving c' = serving c ∧ waiting c' = waiting c ∧
  clusterListenerShutdownCh c' = clusterListenerShutdownCh c ∧
  clusterListenerShutdownSuccessCh c' = clusterListenerShutdownSuccessCh c ∧
  served (events_of run) = [] ∧
  (∀ ev, ev ∈ events_of run → ev = EvSetupFunc ∨ ev = EvGet coreLocalClusterInfoPath).
Proof.
  intros run c' Herr.
  assert (H : startClusterListener E c = (Err e, c', events_of run)).
  { rewrite (triple_eta (startClusterListener E c)) at 1. fold run. rewrite Herr. reflexivity. }
  apply startClusterListener_Err in H as (Hc & Hs & Hev).
  split; [exact Hc|]. rewrite Hc. simpl. auto 10.
Qed.

Lemma startClusterListener_fails_cleanly_witness :
  channels (core_of (startClusterListener Sample.E Sample.booted)) = [] ∧
  clusterListenerShutdownCh (core_of (startClusterListener Sample.E Sample.booted)) = None.
Proof.
  destruct (startClusterListener_fails_cleanly Sample.E Sample.booted NotConfigured)
    as (_ & Hch & _ & _ & Hsh & _).
  - vm_compute. reflexivity.
  - rewrite Hch, Hsh. split; reflexivity.
Defined.

Section StoppingAgain.

Lemma closed_listeners_app t1 t2 :
  closed_listeners (t1 ++ t2) = closed_listeners t1 ++ closed_listeners t2.
Proof. apply omap_app. Qed.

Lemma closed_listeners_map lns : closed_listeners (map EvCloseListener lns) = lns.
Proof. induction lns as [|ln lns IH]; simpl; [reflexivity|]. rewrite IH. reflexivity. Qed.

Lemma tls_Listener_eqb_refl ln : tls_Listener_eqb ln ln = true.
Proof. unfold tls_Listener_eqb. apply String.eqb_refl. Qed.

(** Stopping a core on which one goroutine waits on the shutdown channel
    to signal on the other one, both channels being the last two made. *)
Lemma stopClusterListener_run c chs co :
  channels c = chs ++ [false; false] →
  clusterListenerShutdownCh c = Some (List.length chs) →
  clusterListenerShutdownSuccessCh c = Some (S (List.length chs)) →
  waiting c = [co] → waits_on co = List.length chs → signals co = S (List.length chs) →
  ∃ c',
    stopClusterListener c =
      Returns c' ([EvCloseChan (List.length chs)] ++ map EvCloseListener (listeners co)
                  ++ [EvCloseChan (S (List.length chs))]) ∧
    clusterListenerShutdownCh c' = None ∧
    clusterListenerShutdownSuccessCh c' = None ∧
    waiting c' = [] ∧
    channels c' = chs ++ [true; true] ∧
    serving c' =
      filter (λ s, negb (existsb (tls_Listener_eqb s.1) (listeners co))) (serving c) ∧
    barrier c' = barrier c ∧
    clusterListenerSetupFunc c' = clusterListenerSetupFunc c ∧
    localClusterPrivateKey c' = localClusterPrivateKey c ∧
    requestForwardingConnection c' = requestForwardingConnection c.
Proof.
  intros Hchs Hch Hsu Hw Hwait Hsig.
  assert (L0 : (chs ++ [false; false]) !! List.length chs = Some false).
  { apply list_lookup_middle. reflexivity. }
  assert (L1 : <[List.length chs := true]> (chs ++ [false; false]) = chs ++ [true; false]).
  { rewrite insert_app_r_alt by lia. rewrite Nat.sub_diag. reflexivity. }
  assert (L2 : (chs ++ [true; false]) !! List.length chs = Some true).
  { apply list_lookup_middle. reflexivity. }
  assert (L3 : (chs ++ [true; false]) !! S (List.length chs) = Some false).
  { rewrite lookup_app_r by lia.
    replace (S (List.length chs) - List.length chs) with 1 by lia. reflexivity. }
  assert (L4 : <[S (List.length chs) := true]> (chs ++ [true; false]) = chs ++ [true; true]).
  { rewrite insert_app_r_alt by lia.
    replace (S (List.length chs) - List.length chs) with 1 by lia. reflexivity. }
  assert (L5 : (chs ++ [true; true]) !! S (List.length chs) = Some true).
  { rewrite lookup_app_r by lia.
    replace (S (List.length chs) - List.length chs) with 1 by lia. reflexivity. }
  destruct c as [b name addr key pool f ch1 ch2 conn chans sv wt].
  destruct co as [w lns s]. simpl in *. subst.
  unfold stopClusterListener, close_chan, is_closed. simpl.
  rewrite L0. simpl. rewrite L1. unfold is_closed. simpl. rewrite L2. simpl.
  unfold close_chan. simpl. rewrite L3. simpl. rewrite L4.
  unfold is_closed. simpl. rewrite L5.
  eexists. split; [reflexivity|]. simpl. auto 12.
Qed.

End StoppingAgain.

(** X13.  A stop undoes a start.  Let no goroutine of an earlier start be
    left waiting, let [startClusterListener] return no error, and call
    [stopClusterListener] next.  The stop returns.  It closes the shutdown
    channel, then the goroutine closes every listener the start served, in
    the order they were served, and closes the success channel, which is
    what the stop had been waiting for.  Afterwards both channel fields are
    nil and no goroutine waits; none of the listeners of this start is
    served any more, and no serving loop has appeared; the storage is
    untouched. *)
Theorem stopClusterListener_undoes_start (E : Externals) (c : Core) :
  waiting c = [] →
  let start := startClusterListener E c in
  result_of start = Ok tt →
  ∃ c2 t,
    stopClusterListener (core_of start) = Returns c2 t ∧
    closed_listeners t = map fst (served (events_of start)) ∧
    t = [EvCloseChan (List.length (channels c))]
          ++ map EvCloseListener (map fst (served (events_of start)))
          ++ [EvCloseChan (S (List.length (channels c)))] ∧
    clusterListenerShutdownCh c2 = None ∧
    clusterListenerShutdownSuccessCh c2 = None ∧
    waiting c2 = [] ∧
    channels c2 = channels c ++ [true; true] ∧
    (∀ s, s ∈ serving c2 → s ∈ serving c) ∧
    (∀ s, s ∈ served (events_of start) → ∀ handler, (s.1, handler) ∉ serving c2) ∧
    barrier c2 = barrier c.
Proof.
  intros Hw start Hok.
  pose proof (triple_eta start) as Heta. rewrite Hok in Heta.
  apply startClusterListener_Ok in Heta
    as (lns & handler & cfg & _ & Hf & Htls & Ht & Hsh & Hsu & Hchs & Hserving & Hwait & Hb & _).
  simpl in Ht, Hsh, Hsu, Hserving, Hwait.
  fold start in Ht, Hsh, Hsu, Hchs, Hserving, Hwait, Hb.
  rewrite Hw in Hwait. simpl in Hwait.
  assert (Hserved : served (events_of start)
                    = map (λ ln, ({| inner := ln; config := cfg |}, handler)) lns).
  { rewrite Ht. simpl. rewrite served_app, served_map_EvServe. simpl.
    apply app_nil_r. }
  destruct (stopClusterListener_run (core_of start) (channels c) _ Hchs Hsh Hsu Hwait
              eq_refl eq_refl)
    as (c2 & Hstop & Hsh2 & Hsu2 & Hw2 & Hchs2 & Hsv2 & Hb2 & _).
  simpl in Hstop, Hsv2.
  set (tlsLns := map (λ ln, {| inner := ln; config := cfg |}) lns) in *.
  assert (Hfst : map fst (served (events_of start)) = tlsLns).
  { rewrite Hserved, map_map. simpl. reflexivity. }
  exists c2, ([EvCloseChan (List.length (channels c))] ++ map EvCloseListener tlsLns
              ++ [EvCloseChan (S (List.length (channels c)))]).
  split; [exact Hstop|].
  rewrite !closed_listeners_app, closed_listeners_map. simpl. rewrite app_nil_r.
  rewrite Hfst.
  split; [reflexivity|]. split; [reflexivity|].
  split; [exact Hsh2|]. split; [exact Hsu2|]. split; [exact Hw2|]. split; [exact Hchs2|].
  split; [|split].
  - intros s Hin. rewrite Hsv2, Hserving in Hin.
    apply list_elem_of_filter in Hin as [Hkeep Hin].
    apply elem_of_app in Hin as [Hin | Hin]; [exact Hin|].
    exfalso. apply list_elem_of_fmap in Hin as (ln & -> & Hin).
    simpl in Hkeep. apply negb_prop_elim in Hkeep. apply Hkeep.
    apply Is_true_true. apply existsb_exists. exists {| inner := ln; config := cfg |}.
    split; [|apply tls_Listener_eqb_refl].
    apply list_elem_of_In. apply list_elem_of_fmap. exists ln. auto.
  - intros s Hin h Hin2. rewrite Hsv2 in Hin2.
    apply list_elem_of_filter in Hin2 as [Hkeep _].
    simpl in Hkeep. apply negb_prop_elim in Hkeep. apply Hkeep.
    apply Is_true_true. apply existsb_exists. exists s.1.
    split; [|apply tls_Listener_eqb_refl].
    apply list_elem_of_In. rewrite <- Hfst. apply list_elem_of_fmap. exists s. auto.
  - congruence.
Qed.

Lemma stopClusterListener_undoes_start_witness :
  ∃ c2 t,
    stopClusterListener (core_of (startClusterListener Sample.E Sample.ready))
      = Returns c2 t ∧
    serving c2 = [] ∧ List.length (closed_listeners t) = 1.
Proof.
  destruct (stopClusterListener_undoes_start Sample.E Sample.ready)
    as (c2 & t & Hstop & _ & Ht & _ & _ & _ & _ & Hsv & _).
  - reflexivity.
  - vm_compute. reflexivity.
  - exists c2, t. split; [exact Hstop|]. split.
    + destruct (serving c2) as [|s rest] eqn:Hs; [reflexivity|].
      exfalso.
      assert (Hin : s ∈ serving Sample.ready) by (apply Hsv; apply elem_of_cons; auto).
      vm_compute in Hin. apply elem_of_nil in Hin. exact Hin.
    + rewrite Ht. vm_compute. reflexivity.
Defined.

(** ** Forwarding, call after call *)

Section ForwardingAgain.

Context (E : Externals).

(** A refresh that returns no error, by what it leaves. *)
Lemma refresh_Ok addr c c' t :
  refreshRequestForwardingConnection E addr c = (Ok tt, c', t) →
  match requestForwardingConnection c' with
  | None => addr = ""
  | Some ac' =>
      clusterAddr ac' = addr ∧
      (addr = "" → requestForwardingConnection c = Some ac') ∧
      (∀ ac, requestForwardingConnection c = Some ac → Client ac' = Client ac)
  end.
Proof.
  rewrite refreshRequestForwardingConnection_eq.
  destruct (requestForwardingConnection c) as [ac|] eqn:Hconn.
  - destruct (String.eqb_spec (clusterAddr ac) addr) as [Heq|Hne].
    + intros [= <- <-]. rewrite Hconn. split; [exact Heq|]. split; [auto|].
      intros ac0 [= <-]. reflexivity.
    + destruct (is_empty addr) eqn:Ha; intros [= <- <-]; simpl.
      * apply is_empty_true, Ha.
      * apply is_empty_false in Ha. split; [reflexivity|]. split; [contradiction|].
        intros ac0 [= <-]. reflexivity.
  - destruct (is_empty addr) eqn:Ha.
    + intros [= <- <-]. rewrite Hconn. apply is_empty_true, Ha.
    + apply is_empty_false in Ha.
      destruct (ClusterTLSConfig E c) as [[[cfg|e] c1] t1]; [|discriminate].
      destruct (http2_ConfigureTransport E _) as [msg|tp]; [discriminate|].
      intros [= <- <-]. simpl. split; [reflexivity|]. split; [contradiction|discriminate].
Qed.

Lemma refresh_events addr c :
  let t := events_of (refreshRequestForwardingConnection E addr c) in
  t = [EvRLock; EvRUnlock] ∨
  t = [EvRLock; EvRUnlock; EvLock; EvUnlock] ∨
  t = [EvRLock; EvRUnlock; EvLock; EvGet coreLocalClusterInfoPath; EvUnlock].
Proof.
  simpl. rewrite refreshRequestForwardingConnection_eq.
  destruct (requestForwardingConnection c) as [ac|].
  - destruct (String.eqb (clusterAddr ac) addr); [auto|].
    destruct (is_empty addr); auto.
  - destruct (is_empty addr); [auto|].
    destruct (ClusterTLSConfig_frame E c) as (pool & _ & Ht).
    destruct (ClusterTLSConfig E c) as [[[cfg|e] c1] t1]; unfold events_of in Ht;
      simpl in Ht; subst t1.
    + destruct (http2_ConfigureTransport E _); auto.
    + auto.
Qed.

End ForwardingAgain.

(** X14.  From a refresh to a forward.  After
    [refreshRequestForwardingConnection] has returned no error for an
    address: if the address is empty, [ForwardRequest] returns
    [ErrCannotForward], takes and releases the read lock and does nothing
    else; if the address is not empty, a connection with exactly this
    address is in place, [ForwardRequest] does not return
    [ErrCannotForward], and what it sends, if the copy of the request can be
    made, is the copy addressed to this address, through the client of that
    connection.  A refresh never installs a connection without an address.
    And refreshing again with the same address changes nothing and does not
    take the write lock. *)
Theorem refresh_then_ForwardRequest (E : Externals) (addr : string) (req : http_Request)
    (c : Core) :
  let c' := core_of (refreshRequestForwardingConnection E addr c) in
  let forward := ForwardRequest E req c' in
  result_of (refreshRequestForwardingConnection E addr c) = Ok tt →
  (addr = "" → forward = (Err ErrCannotForward, c', [EvRLock; EvRUnlock])) ∧
  (addr ≠ "" →
   ∃ ac,
     requestForwardingConnection c' = Some ac ∧ clusterAddr ac = addr ∧
     result_of forward ≠ Err ErrCannotForward ∧
     match requestutil_GenerateForwardedRequest E req addr with
     | inr freq => sent (events_of forward) = [(Client ac, freq)]
     | inl msg => sent (events_of forward) = [] ∧ result_of forward = Err (Foreign msg)
     end) ∧
  (∀ ac, requestForwardingConnection c' = Some ac → clusterAddr ac = "" →
         requestForwardingConnection c = Some ac) ∧
  refreshRequestForwardingConnection E addr c' = (Ok tt, c', [EvRLock; EvRUnlock]).
Proof.
  intros c' forward Hok.
  assert (H : refreshRequestForwardingConnection E addr c
              = (Ok tt, c', events_of (refreshRequestForwardingConnection E addr c))).
  { rewrite (triple_eta (refreshRequestForwardingConnection E addr c)) at 1.
    rewrite Hok. reflexivity. }
  apply refresh_Ok in H. subst forward. rewrite ForwardRequest_eq.
  rewrite (refreshRequestForwardingConnection_eq E addr c').
  destruct (requestForwardingConnection c') as [ac|] eqn:Hconn.
  - destruct H as (Haddr & Hsame & _). rewrite Haddr, String.eqb_refl.
    split; [|split; [|split]].
    + intros ->. reflexivity.
    + intros Hne. exists ac. split; [reflexivity|]. split; [exact Haddr|].
      apply is_empty_false in Hne. rewrite Hne.
      destruct (requestutil_GenerateForwardedRequest E req addr) as [msg|freq].
      * unfold result_of, events_of. simpl. split; [discriminate|auto].
      * unfold result_of, events_of. simpl.
        split; [destruct (http_Client_Do E (Client ac) freq); discriminate|reflexivity].
    + intros ac' [= <-] Hempty. apply Hsame. congruence.
    + reflexivity.
  - subst addr. simpl. split; [reflexivity|]. split; [contradiction|].
    split; [discriminate|reflexivity].
Qed.

Lemma refresh_then_ForwardRequest_witness :
  result_of (ForwardRequest Sample.E {| request_text := "PUT /core1" |}
               (core_of (refreshRequestForwardingConnection Sample.E "" Sample.connected)))
  = Err ErrCannotForward.
Proof.
  destruct (refresh_then_ForwardRequest Sample.E "" {| request_text := "PUT /core1" |}
              Sample.connected) as (H & _).
  - vm_compute. reflexivity.
  - rewrite (H eq_refl). reflexivity.
Defined.

(** X15.  The lock of the forwarding connection is used in order.  In
    [refreshRequestForwardingConnection] and in [ForwardRequest], whatever
    they return, every lock taken is released before the call returns, the
    read lock is released before the write lock is taken, and nothing is
    released that is not held.  [ForwardRequest] sends the request while it
    holds the read lock.  [refreshRequestForwardingConnection] changes the
    core only in calls that take the write lock, and reads the storage only
    while it holds it. *)
Theorem forwarding_lock_in_order (E : Externals) (addr : string) (req : http_Request)
    (c : Core) :
  let refresh := refreshRequestForwardingConnection E addr c in
  let forward := ForwardRequest E req c in
  locking Unlocked (events_of refresh) = Some Unlocked ∧
  locking Unlocked (events_of forward) = Some Unlocked ∧
  (∀ h, h ∈ held_at_Do Unlocked (events_of forward) → h = ReadLocked) ∧
  (core_of refresh ≠ c → took_write_lock (events_of refresh) = true) ∧
  (∀ before after key,
     events_of refresh = before ++ EvGet key :: after →
     locking Unlocked before = Some WriteLocked).
Proof.
  intros refresh forward. split; [|split; [|split; [|split]]].
  - destruct (refresh_events E addr c) as [H | [H | H]]; fold refresh in H; rewrite H;
      reflexivity.
  - subst forward. rewrite ForwardRequest_eq.
    destruct (requestForwardingConnection c) as [ac|]; [|reflexivity].
    destruct (is_empty (clusterAddr ac)); [reflexivity|].
    destruct (requestutil_GenerateForwardedRequest E req (clusterAddr ac));
      reflexivity.
  - subst forward. rewrite ForwardRequest_eq. intros h.
    destruct (requestForwardingConnection c) as [ac|];
      [|intros Hin; apply elem_of_nil in Hin; contradiction].
    destruct (is_empty (clusterAddr ac));
      [intros Hin; apply elem_of_nil in Hin; contradiction|].
    destruct (requestutil_GenerateForwardedRequest E req (clusterAddr ac));
      [intros Hin; apply elem_of_nil in Hin; contradiction|].
    unfold events_of. simpl. intros Hin. apply list_elem_of_singleton in Hin. exact Hin.
  - subst refresh. rewrite refreshRequestForwardingConnection_eq.
    destruct (requestForwardingConnection c) as [ac|].
    + destruct (String.eqb (clusterAddr ac) addr); [intros Hne; contradiction Hne; reflexivity|].
      destruct (is_empty addr); reflexivity.
    + destruct (is_empty addr); [intros Hne; contradiction Hne; reflexivity|].
      destruct (ClusterTLSConfig E c) as [[[cfg|e] c1] t1]; [|reflexivity].
      destruct (http2_ConfigureTransport E _); reflexivity.
  - intros before after key Hsplit.
    destruct (refresh_events E addr c) as [H | [H | H]]; fold refresh in H;
      rewrite H in Hsplit.
    + exfalso. assert (Hin : EvGet key ∈ [EvRLock; EvRUnlock]).
      { rewrite Hsplit. apply elem_of_app. right. apply elem_of_cons. auto. }
      repeat (apply elem_of_cons in Hin as [Hin | Hin]; [discriminate Hin|]).
      apply elem_of_nil in Hin. exact Hin.
    + exfalso. assert (Hin : EvGet key ∈ [EvRLock; EvRUnlock; EvLock; EvUnlock]).
      { rewrite Hsplit. apply elem_of_app. right. apply elem_of_cons. auto. }
      repeat (apply elem_of_cons in Hin as [Hin | Hin]; [discriminate Hin|]).
      apply elem_of_nil in Hin. exact Hin.
    + destruct before as [|e1 [|e2 [|e3 [|e4 [|e5 before]]]]]; simpl in Hsplit;
        try discriminate Hsplit.
      * injection Hsplit as <- <- <-. reflexivity.
      * injection Hsplit as _ _ _ _ _ Hnil. destruct before; discriminate Hnil.
Qed.

(** X16.  The client of the forwarding connection is kept.  Once a
    connection is in place, any number of calls of
    [refreshRequestForwardingConnection] with addresses that are not empty
    return no error and leave a connection with the client, and so the
    transport and TLS configuration, of the first one and with the address
    given last; the storage is not read again, and nothing else in the core
    changes. *)
Theorem refresh_each_keeps_client (E : Externals) (addrs : list string) (c : Core)
    (ac : activeConnection) :
  requestForwardingConnection c = Some ac →
  Forall (λ addr, addr ≠ "") addrs →
  let run := refresh_each E addrs c in
  result_of run = Ok tt ∧
  core_of run =
    set_requestForwardingConnection
      (Some {| Client := Client ac;
               clusterAddr := default (clusterAddr ac) (last addrs) |}) c ∧
  reads (events_of run) = [].
Proof.
  intros Hconn Hne. revert c ac Hconn.
  induction Hne as [|addr addrs Ha Hne IH]; intros c ac Hconn.
  - simpl. unfold result_of, core_of, events_of. simpl.
    split; [reflexivity|]. split; [|reflexivity].
    destruct c, ac. simpl in *. rewrite Hconn. reflexivity.
  - pose proof (refreshRequestForwardingConnection_eq E addr c) as Hstep.
    rewrite Hconn in Hstep. apply is_empty_false in Ha. rewrite Ha in Hstep.
    set (c1 := set_requestForwardingConnection
                 (Some {| Client := Client ac; clusterAddr := addr |}) c).
    assert (H1 : ∃ t1, refreshRequestForwardingConnection E addr c = (Ok tt, c1, t1)
                       ∧ reads t1 = []).
    { destruct (String.eqb_spec (clusterAddr ac) addr) as [Heq | Hneq].
      - exists [EvRLock; EvRUnlock]. split; [|reflexivity]. rewrite Hstep.
        subst c1. destruct c, ac. simpl in *. subst. reflexivity.
      - exists [EvRLock; EvRUnlock; EvLock; EvUnlock]. split; [|reflexivity].
        rewrite Hstep. reflexivity. }
    destruct H1 as (t1 & H1 & Hr1).
    specialize (IH c1 {| Client := Client ac; clusterAddr := addr |} eq_refl).
    simpl in IH. destruct IH as (Hres & Hcore & Hreads).
    intros run. subst run.
    change (refresh_each E (addr :: addrs))
      with (refreshRequestForwardingConnection E addr ≫= λ _, refresh_each E addrs).
    rewrite (bind_Ok _ _ _ _ _ _ H1).
    unfold result_of at 1, core_of at 1, events_of at 1. simpl.
    split; [exact Hres|]. split.
    + rewrite Hcore. subst c1. simpl.
      rewrite last_cons. destruct (last addrs); reflexivity.
    + rewrite reads_app, Hr1, Hreads. reflexivity.
Qed.

Lemma refresh_each_keeps_client_witness :
  ∃ ac,
    requestForwardingConnection
      (core_of (refresh_each Sample.E ["https://127.0.0.1:8206"; "https://127.0.0.1:8208"]
                  Sample.connected)) = Some ac ∧
    clusterAddr ac = "https://127.0.0.1:8208" ∧
    Some (Client ac) = Client <$> requestForwardingConnection Sample.connected.
Proof.
  destruct (requestForwardingConnection Sample.connected) as [ac|] eqn:Hconn;
    [|vm_compute in Hconn; discriminate Hconn].
  destruct (refresh_each_keeps_client Sample.E
              ["https://127.0.0.1:8206"; "https://127.0.0.1:8208"] Sample.connected ac Hconn)
    as (_ & Hcore & _).
  - repeat constructor; discriminate.
  - rewrite Hcore. simpl. eexists. split; [reflexivity|]. split; reflexivity.
Defined.

(** ** The helpers of vault/testing.go *)

Section TestHelpers.

Lemma length_written (buf data : bytes) :
  List.length (written buf data) = List.length buf.
Proof. unfold written. rewrite length_app, length_take, length_drop. lia. Qed.

Lemma length_make_bytes (n : Z) : List.length (make_bytes n) = Z.to_nat n.
Proof. unfold make_bytes. apply repeat_length. Qed.

Lemma copy_into_lookup {V : Type} (src dst : gmap string V) (k : string) :
  copy_into src dst !! k =
    match src !! k with
    | Some v => Some v
    | None => dst !! k
    end.
Proof.
  unfold copy_into.
  apply (map_fold_weak_ind
           (λ (r : gmap string V) (m : gmap string V),
              r !! k = match m !! k with Some v => Some v | None => dst !! k end)).
  - rewrite lookup_empty. reflexivity.
  - intros i x m r Hnone IH.
    destruct (decide (i = k)) as [-> | Hne].
    + rewrite !lookup_insert_eq. reflexivity.
    + rewrite !lookup_insert_ne by exact Hne. exact IH.
Qed.

End TestHelpers.

(** X17.  [GenerateRandBytes] returns the number of bytes asked for, or an
    error.  A negative length is refused and a length of zero gives the
    empty slice, in both cases without a call of the random source.
    Otherwise the source is asked once, for a buffer of that length; its
    error comes back unchanged, a count other than the length is an error
    that names both numbers, and when a slice is returned it has exactly the
    length asked for and holds what the source wrote. *)
Theorem GenerateRandBytes_exact (rand_Read : nat → bytes * Z * option string) (length : Z) :
  let run := GenerateRandBytes rand_Read length in
  ((length < 0)%Z → run = (Err (Errorf "length must be >= 0"), [])) ∧
  (length = 0%Z → run = (Ok [], [])) ∧
  ((0 < length)%Z →
   run.2 = [Z.to_nat length] ∧
   match rand_Read (Z.to_nat length) with
   | (_, _, Some msg) => run.1 = Err (Foreign msg)
   | (data, n, None) =>
       if (n =? length)%Z then run.1 = Ok (written (make_bytes length) data)
       else run.1 = Err (Errorf ("unable to read " ++ sprintf_d length
                                 ++ " bytes; only read " ++ sprintf_d n))
   end) ∧
  (∀ buf, run.1 = Ok buf → Z.of_nat (List.length buf) = length).
Proof.
  intros run. subst run. unfold GenerateRandBytes.
  destruct (Z.ltb_spec length 0) as [Hneg | Hnn].
  { split; [reflexivity|]. split; [lia|]. split; [lia|]. discriminate. }
  destruct (Z.eqb_spec length 0) as [-> | Hnz].
  { split; [lia|]. split; [reflexivity|]. split; [lia|].
    simpl. intros buf [= <-]. reflexivity. }
  rewrite length_make_bytes.
  split; [lia|]. split; [contradiction|].
  destruct (rand_Read (Z.to_nat length)) as [[data n] [msg|]]; simpl.
  { split; [auto|discriminate]. }
  destruct (Z.eqb_spec n length) as [-> | Hne]; simpl.
  - split; [auto|]. intros buf [= <-].
    rewrite length_written, length_make_bytes. lia.
  - split; [auto|discriminate].
Qed.

(** X18.  Test backends are registered by name and override the built-in
    ones.  [AddTestLogicalBackend] refuses an empty name, and then a nil
    factory, leaving what is registered as it was; otherwise the factory is
    registered under the name, in place of one registered there before, and
    the other names keep theirs.  The table of logical backends that
    [TestCoreWithSeal] hands to [NewCore] gives, for every name, the
    registered factory if there is one, also for the names "noop", "http"
    and "generic" that the helper fills in itself; the credential backends
    are "noop" and "http" whatever is registered. *)
Theorem AddTestLogicalBackend_registers (name : string) (factory : option logical_Factory)
    (registry : gmap string logical_Factory) (testSeal : option string) :
  let run := AddTestLogicalBackend name factory registry in
  let table := default ∅ (LogicalBackends (TestCoreWithSeal_config testSeal run.2)) in
  (name = "" → run = (Err (Errorf "Missing backend name"), registry)) ∧
  (name ≠ "" → factory = None →
   run = (Err (Errorf "Missing backend factory function"), registry)) ∧
  (∀ f, name ≠ "" → factory = Some f →
        run.1 = Ok tt ∧ run.2 !! name = Some f ∧ table !! name = Some f ∧
        ∀ other, other ≠ name → run.2 !! other = registry !! other) ∧
  (∀ key,
     table !! key =
       match run.2 !! key with
       | Some f => Some f
       | None =>
           if String.eqb key "generic" then Some LeasedPassthroughBackendFactory
           else if String.eqb key "http" then Some RawHTTPFactory
           else if String.eqb key "noop" then Some NoopBackendFactory
           else None
       end) ∧
  CredentialBackends (TestCoreWithSeal_config testSeal run.2)
  = Some (<["http" := RawHTTPFactory]> (<["noop" := NoopBackendFactory]> ∅)).
Proof.
  intros run table.
  assert (Htable : ∀ key,
    table !! key =
      match run.2 !! key with
      | Some f => Some f
      | None =>
          if String.eqb key "generic" then Some LeasedPassthroughBackendFactory
          else if String.eqb key "http" then Some RawHTTPFactory
          else if String.eqb key "noop" then Some NoopBackendFactory
          else None
      end).
  { intros key. subst table. simpl. rewrite copy_into_lookup.
    destruct (run.2 !! key); [reflexivity|].
    destruct (String.eqb_spec key "generic") as [-> | Hg].
    { apply lookup_insert_eq. }
    rewrite lookup_insert_ne by congruence. rewrite copy_into_lookup.
    destruct (String.eqb_spec key "http") as [-> | Hh].
    { rewrite lookup_insert_eq. reflexivity. }
    rewrite lookup_insert_ne by congruence.
    destruct (String.eqb_spec key "noop") as [-> | Hn].
    { rewrite lookup_insert_eq. reflexivity. }
    rewrite lookup_insert_ne by congruence. rewrite !lookup_empty. reflexivity. }
  split; [|split; [|split; [|split]]].
  - intros ->. reflexivity.
  - intros Hne ->. subst run. unfold AddTestLogicalBackend.
    apply is_empty_false in Hne. rewrite Hne. reflexivity.
  - intros f Hne ->. rewrite Htable. subst run. unfold AddTestLogicalBackend.
    apply is_empty_false in Hne. rewrite Hne. simpl. rewrite lookup_insert_eq.
    repeat split. intros other Ho. apply lookup_insert_ne. congruence.
  - exact Htable.
  - reflexivity.
Qed.

(** X19.  [TestCluster] needs three handlers and a base configuration.
    With handlers that are nil or not three, the test is stopped before
    anything is made.  With three handlers and a nil base, the helper
    panics on the nil pointer when it reads [base.ClusterAddr] (line 447),
    before the check for a nil base (line 453) and before any core is
    made.  When the three cores are made, [NewCore] was called three times
    with one set of backends: "generic" is the passthrough backend unless
    the base has a logical backend of that name, and every backend of the
    base is there.  The cluster address of the base, when not empty, is the
    cluster address of the first core only; the second and third always get
    their fixed addresses. *)
Theorem TestCluster_cores_configs {C : Type} (NewCore : CoreConfig → fallible C)
    (handlers : option (list (option http_Handler))) (base : option CoreConfig) :
  let run := TestCluster_cores NewCore handlers base in
  (len handlers ≠ 3 → run = (Fatal "handlers must be size 3", [])) ∧
  (len handlers = 3 → base = None → run = (Panicked nil_dereference, [])) ∧
  (∀ cores, run.1 = Returned cores →
     ∃ b config1 config2 config3 logical,
       base = Some b ∧ len handlers = 3 ∧
       run.2 = [config1; config2; config3] ∧
       NewCore config1 = inr cores.1.1 ∧ NewCore config2 = inr cores.1.2 ∧
       NewCore config3 = inr cores.2 ∧
       ClusterAddr config1
         = (if is_empty (ClusterAddr b) then "https://127.0.0.1:8203" else ClusterAddr b) ∧
       ClusterAddr config2 = "https://127.0.0.1:8207" ∧
       ClusterAddr config3 = "https://127.0.0.1:8209" ∧
       AdvertiseAddr config1 = "http://127.0.0.1:8202" ∧
       AdvertiseAddr config2 = "http://127.0.0.1:8206" ∧
       AdvertiseAddr config3 = "http://127.0.0.1:8208" ∧
       LogicalBackends config1 = Some logical ∧
       LogicalBackends config2 = Some logical ∧
       LogicalBackends config3 = Some logical ∧
       ∀ key,
         logical !! key =
           match default ∅ (LogicalBackends b) !! key with
           | Some f => Some f
           | None => if String.eqb key "generic" then Some PassthroughBackendFactory else None
           end).
Proof.
  intros run. subst run. unfold TestCluster_cores.
  destruct (Nat.eqb_spec (len handlers) 3) as [Hlen | Hlen]; simpl.
  2:{ split; [reflexivity|]. split; [contradiction|]. discriminate. }
  split; [contradiction|].
  destruct base as [b|]; [|split; [reflexivity|discriminate]].
  split; [discriminate|].
  intros cores.
  destruct (NewCore _) as [err|c1] eqn:H1; [discriminate|].
  destruct (NewCore _) as [err|c2] eqn:H2 in |- *; [discriminate|].
  destruct (NewCore _) as [err|c3] eqn:H3 in |- *; [discriminate|].
  simpl. intros [= <-].
  do 4 eexists. exists (copy_into (default ∅ (LogicalBackends b))
                          (<["generic" := PassthroughBackendFactory]> ∅)).
  split; [reflexivity|]. split; [exact Hlen|]. split; [reflexivity|].
  split; [exact H1|]. split; [exact H2|]. split; [exact H3|]. simpl.
  split; [destruct (is_empty (ClusterAddr b)); reflexivity|].
  repeat (split; [reflexivity|]).
  intros key. rewrite copy_into_lookup.
  destruct (default ∅ (LogicalBackends b) !! key); [reflexivity|].
  destruct (String.eqb_spec key "generic") as [-> | Hg].
  - apply lookup_insert_eq.
  - rewrite lookup_insert_ne by congruence. apply lookup_empty.
Qed.

(** ** What the tests of cluster_test.go look at *)

Section Fetching.

Context (E : Externals).

(** The key step on a node without a key, when it goes through: the key
    entry is stored afterwards and decodes to the key that is loaded. *)
Lemma setup_key_stored env c need c' t :
  generated_key_decodes E env →
  localClusterPrivateKey c = None →
  setup_key E env c = (Ok need, c', t) →
  ∃ value params x y d,
    stored_at coreLocalClusterKeyPath c' = Some value ∧
    jsonutil_DecodeJSON_privKeyParams E value = inr params ∧
    X params = Some x ∧ Y params = Some y ∧ D params = Some d ∧
    Type_ params = corePrivateKeyTypeP521 ∧
    localClusterPrivateKey c' = Some (key_of_params x y d).
Proof.
  intros Hdec Hnone. rewrite setup_key_eq, Hnone. unfold stored_at.
  destruct (sealed (barrier c)); [discriminate|].
  destruct (entries (barrier c) !! coreLocalClusterKeyPath) as [value|] eqn:Hst.
  - destruct (jsonutil_DecodeJSON_privKeyParams E value) as [msg|params] eqn:Hd;
      [discriminate|].
    destruct (X params) as [x|] eqn:Hx; [|discriminate].
    destruct (Y params) as [y|] eqn:Hy; [|discriminate].
    destruct (D params) as [d|] eqn:Hd'; [|discriminate].
    destruct (String.eqb_spec (Type_ params) corePrivateKeyTypeP521) as [Hty|];
      [|discriminate].
    intros [= <- <- <-]. exists value, params, x, y, d. simpl. auto 10.
  - destruct (ecdsa_GenerateKey env P521) as [msg|key] eqn:Hg; [discriminate|].
    destruct (json_Marshal_privKeyParams E _) as [msg|raw] eqn:Hm; [discriminate|].
    intros [= <- <- <-].
    exists raw, (params_of_key key), (pub_X (PublicKey key)), (pub_Y (PublicKey key)),
      (priv_D key).
    simpl. rewrite lookup_insert_eq, key_of_params_of_key.
    split; [reflexivity|]. split; [apply (Hdec key raw Hg Hm)|]. auto 10.
Qed.

End Fetching.

(** X20.  What [TestClusterFetching] and [TestClusterHAFetching] check,
    for every core.  Let a node without a private key run [setupCluster]
    and get no error.  Then [Cluster] returns a record whose name and id
    are not empty, and, when the node has an advertise address, whose
    certificate is not empty and parses.  The key entry is in the storage;
    it decodes to parameters with X, Y and D present and the type "p521";
    and these are the parameters of the key the node now holds.  A key
    generated in the call is assumed to decode to its parameters once
    encoded. *)
Theorem setupCluster_then_fetching (E : Externals) (env : Env) (c : Core) :
  codec_roundtrip E → parse_rejects_empty E →
  (∀ id, uuid_GenerateUUID_id env = inr id → id ≠ "") →
  generated_key_decodes E env →
  localClusterPrivateKey c = None →
  let c' := core_of (setupCluster E env c) in
  result_of (setupCluster E env c) = Ok tt →
  (∃ cluster,
     result_of (Core_Cluster E c') = Ok (Some cluster) ∧
     Name cluster ≠ "" ∧ ID cluster ≠ "" ∧
     (advertiseAddr c ≠ "" →
      ∃ der cert, Certificate cluster = Some der ∧ der ≠ [] ∧
                  x509_ParseCertificate E der = inr cert)) ∧
  (∃ value params x y d,
     stored_at coreLocalClusterKeyPath c' = Some value ∧
     jsonutil_DecodeJSON_privKeyParams E value = inr params ∧
     X params = Some x ∧ Y params = Some y ∧ D params = Some d ∧
     Type_ params = corePrivateKeyTypeP521 ∧
     localClusterPrivateKey c' = Some (key_of_params x y d)).
Proof.
  intros Hrt Hempty Hid Hdec Hnone c' Hok.
  assert (H : setupCluster E env c = (Ok tt, c', events_of (setupCluster E env c))).
  { rewrite (triple_eta (setupCluster E env c)) at 1. rewrite Hok. reflexivity. }
  split.
  - destruct (setupCluster_Ok_summary E env c c' _ Hrt Hempty Hid H)
      as (cl0 & cl & m & _ & Hread & _ & _ & _ & Hn & Hi & Hcert & _).
    exists cl. rewrite Core_Cluster_eq. unfold result_of. simpl. rewrite Hread.
    split; [reflexivity|]. split; [exact Hn|]. split; [exact Hi|].
    intros Hadv. specialize (Hcert Hadv).
    destruct (read_identity_parses E _ _ _ Hread Hcert) as [cert Hparse].
    unfold no_certificate in Hcert.
    destruct (Certificate cl) as [der|]; [|discriminate].
    exists der, cert. split; [reflexivity|]. split; [|exact Hparse].
    intros ->. discriminate Hcert.
  - apply setupCluster_Ok_inv in H
      as (pool & cl0 & cl1 & m1 & c1 & t1 & cl2 & m2 & c2 & t2 & need & c3 & t3
          & cl4 & m4 & c4 & t4 & t5 & Hread & H1 & H2 & H3 & H4 & H5 & _).
    pose proof (setup_name_keeps _ _ _ _ _ _ _ H1) as (_ & Hk1). simpl in Hk1.
    pose proof (setup_id_quiet _ _ _ _ _ _ _ H2) as (_ & _ & _ & -> & _).
    rewrite Hnone in Hk1.
    destruct (setup_key_stored E env c1 need c3 t3 Hdec Hk1 H3)
      as (value & params & x & y & d & Hst & Hd & Hx & Hy & Hd' & Hty & Hk3).
    pose proof (setup_certificate_frame E _ _ _ _ _ _ _ _ H4) as (-> & _).
    pose proof (setup_store_keeps_key E _ _ _ _ _ _ H5) as Hk5.
    exists value, params, x, y, d.
    split; [|rewrite Hk5; auto 10].
    revert H5. rewrite setup_store_eq. unfold stored_at in *.
    destruct m4; [|intros [= <-]; exact Hst].
    destruct (json_Marshal_Cluster E cl4); [discriminate|].
    destruct (sealed (barrier c3)); [discriminate|].
    intros [= <-]. simpl. rewrite lookup_insert_ne; [exact Hst|].
    intros Heq. apply paths_differ. symmetry. exact Heq.
Qed.

Lemma sample_generated_key_decodes : generated_key_decodes Sample.E Sample.env.
Proof. intros key raw [= <-] [= <-]. reflexivity. Qed.

Lemma setupCluster_then_fetching_witness :
  ∃ cluster,
    result_of (Core_Cluster Sample.E Sample.booted) = Ok (Some cluster) ∧
    Name cluster ≠ "" ∧ ID cluster ≠ "".
Proof.
  destruct (setupCluster_then_fetching Sample.E Sample.env
              (Sample.fresh "" "https://127.0.0.1:8201")
              SampleFacts.roundtrip SampleFacts.rejects_empty SampleFacts.id_nonempty
              sample_generated_key_decodes)
    as ((cluster & Hcl & Hn & Hi & _) & _).
  - reflexivity.
  - vm_compute. reflexivity.
  - exists cluster. auto.
Defined.

(** ** A sealed vault *)

(** X21.  Nothing happens on a sealed vault.  When the barrier is sealed,
    [Cluster], [setupCluster] and [ClusterTLSConfig] return the error of the
    barrier unchanged, after the one attempt to read the identity entry;
    [startClusterListener], if it is not running and has a setup function
    that answers, returns that error after calling the function, serving
    nothing; and [refreshRequestForwardingConnection], asked for an address
    while there is no connection, returns it and installs none.  In each
    case the core is left exactly as it was: no name, key or certificate is
    made, no pool, no channel. *)
Theorem sealed_vault_stops (E : Externals) (env : Env) (c : Core) (addr : string) :
  sealed (barrier c) = true →
  let e := Foreign ErrBarrierSealed in
  Core_Cluster E c = (Err e, c, [EvGet coreLocalClusterInfoPath]) ∧
  setupCluster E env c = (Err e, c, [EvGet coreLocalClusterInfoPath]) ∧
  ClusterTLSConfig E c = (Err e, c, [EvGet coreLocalClusterInfoPath]) ∧
  (∀ lns handler,
     clusterListenerShutdownCh c = None →
     clusterListenerSetupFunc c = Some (inr (lns, handler)) →
     startClusterListener E c = (Err e, c, [EvSetupFunc; EvGet coreLocalClusterInfoPath])) ∧
  (requestForwardingConnection c = None → addr ≠ "" →
   refreshRequestForwardingConnection E addr c
   = (Err e, c, [EvRLock; EvRUnlock; EvLock; EvGet coreLocalClusterInfoPath; EvUnlock])).
Proof.
  intros Hs e.
  assert (Hcl : Core_Cluster E c = (Err e, c, [EvGet coreLocalClusterInfoPath])).
  { rewrite Core_Cluster_eq. unfold read_identity, pool_after. rewrite Hs.
    rewrite set_pool_same. reflexivity. }
  assert (Htls : ClusterTLSConfig E c = (Err e, c, [EvGet coreLocalClusterInfoPath])).
  { unfold ClusterTLSConfig. apply bind_Err. exact Hcl. }
  split; [exact Hcl|]. split; [|split; [exact Htls|split]].
  - unfold setupCluster. apply bind_Err. exact Hcl.
  - intros lns handler Hch Hf.
    unfold startClusterListener, mbind, M_bind. simpl. rewrite Hch. simpl.
    rewrite Hf. simpl. rewrite Htls. reflexivity.
  - intros Hconn Hne. rewrite refreshRequestForwardingConnection_eq, Hconn, Htls.
    apply is_empty_false in Hne. rewrite Hne. reflexivity.
Qed.

Lemma sealed_vault_stops_witness :
  setupCluster Sample.E Sample.env
    (set_barrier {| sealed := true; entries := ∅ |} (Sample.fresh "" ""))
  = (Err (Foreign ErrBarrierSealed),
     set_barrier {| sealed := true; entries := ∅ |} (Sample.fresh "" ""),
     [EvGet coreLocalClusterInfoPath]).
Proof.
  apply (sealed_vault_stops Sample.E Sample.env
           (set_barrier {| sealed := true; entries := ∅ |} (Sample.fresh "" "")) "").
  reflexivity.
Defined.

(** ** The setup function *)

(** X22.  The setup function registered last is the one that counts.
    [SetClusterListenerSetupFunc] replaces the function and touches nothing
    else.  After a function has been registered, a start on a core that is
    not running calls it: its error is the error of the start, and then
    nothing has been started; the listeners it returns are the listeners
    served, each once and in order, all with the handler it returned.
    After nil has been registered the start is refused. *)
Theorem SetClusterListenerSetupFunc_decides (E : Externals)
    (f1 f2 : option (fallible (list net_Listener * http_Handler))) (c : Core) :
  let c1 := core_of (SetClusterListenerSetupFunc f1 c) in
  let c2 := core_of (SetClusterListenerSetupFunc f2 c1) in
  let start := startClusterListener E c2 in
  c2 = set_clusterListenerSetupFunc f2 c ∧
  (clusterListenerShutdownCh c = None → f2 = None →
   start = (Err NotConfigured, c2, [])) ∧
  (∀ msg, clusterListenerShutdownCh c = None → f2 = Some (inl msg) →
          start = (Err (Foreign msg), c2, [EvSetupFunc])) ∧
  (∀ lns handler, f2 = Some (inr (lns, handler)) → result_of start = Ok tt →
     map (λ s, inner s.1) (served (events_of start)) = lns ∧
     ∀ s, s ∈ served (events_of start) → s.2 = handler).
Proof.
  intros c1 c2 start.
  assert (Hc2 : c2 = set_clusterListenerSetupFunc f2 c) by reflexivity.
  split; [exact Hc2|]. split; [|split].
  - intros Hch ->. destruct (startClusterListener_refuses E c2) as (_ & H & _).
    apply H; rewrite Hc2; [exact Hch|reflexivity].
  - intros msg Hch ->. subst start.
    unfold startClusterListener, mbind, M_bind. simpl. rewrite Hch. reflexivity.
  - intros lns handler -> Hok.
    pose proof (triple_eta start) as Heta. rewrite Hok in Heta.
    apply startClusterListener_Ok in Heta
      as (lns' & handler' & cfg & _ & Hf & _ & Ht & _).
    rewrite Hc2 in Hf. simpl in Hf. injection Hf as <- <-.
    simpl in Ht. fold start in Ht. rewrite Ht. simpl.
    rewrite served_app, served_map_EvServe. simpl. rewrite app_nil_r.
    split.
    + rewrite map_map. simpl. apply map_id.
    + intros s Hin. apply list_elem_of_fmap in Hin as (ln & -> & _). reflexivity.
Qed.

(** ** What [Cluster] reports of a stored record *)

(** X23.  [Cluster] reports the stored record under the configured name.
    Let the storage hold a record that decodes.  The id and the certificate
    reported are the stored ones, and the name is the stored one unless the
    node has a name configured, which then takes its place.  A record
    without certificate, or with an empty one, is reported as it is and the
    pool is created empty if it was nil; a certificate that parses is added
    to the pool; and a certificate that does not parse gives the error of
    the parser under its heading, the pool having been created all the
    same. *)
Theorem Cluster_reports (E : Externals) (c : Core) (r : Cluster) :
  sealed (barrier c) = false →
  stored_identity E c = Some r →
  let run := Core_Cluster E c in
  let shown :=
    {| Name := if is_empty (clusterName c) then Name r else clusterName c;
       ID := ID r;
       Certificate := Certificate r |} in
  let pool := default [] (localClusterCertPool c) in
  (Certificate r = None ∨ Certificate r = Some [] →
   result_of run = Ok (Some shown) ∧ localClusterCertPool (core_of run) = Some pool) ∧
  (∀ der cert,
     Certificate r = Some der → der ≠ [] → x509_ParseCertificate E der = inr cert →
     result_of run = Ok (Some shown) ∧
     localClusterCertPool (core_of run) = Some (CertPool_AddCert pool cert)) ∧
  (∀ der msg,
     Certificate r = Some der → der ≠ [] → x509_ParseCertificate E der = inl msg →
     result_of run = Err (Errorf ("error parsing local cluster certificate: " ++ msg)) ∧
     localClusterCertPool (core_of run) = Some pool).
Proof.
  intros Hs Hst run shown pool.
  assert (Hshown : reported (clusterName c) r = shown).
  { subst shown. unfold reported, with_Name.
    destruct (is_empty (clusterName c)); simpl; [destruct r|]; reflexivity. }
  subst run. rewrite Core_Cluster_eq. unfold result_of, core_of. simpl.
  rewrite (read_identity_stored E c _ r Hs Hst). unfold pool_after.
  rewrite Hs, Hst, Hshown. fold pool.
  split; [|split].
  - intros Hnone.
    assert (Hno : no_certificate r = true).
    { unfold no_certificate. destruct Hnone as [-> | ->]; reflexivity. }
    rewrite Hno. auto.
  - intros der cert Hder Hne Hparse.
    assert (Hno : no_certificate r = false).
    { unfold no_certificate. rewrite Hder. simpl. destruct der; [contradiction|reflexivity]. }
    rewrite Hno, Hder. simpl. rewrite Hparse. auto.
  - intros der msg Hder Hne Hparse.
    assert (Hno : no_certificate r = false).
    { unfold no_certificate. rewrite Hder. simpl. destruct der; [contradiction|reflexivity]. }
    rewrite Hno, Hder. simpl. rewrite Hparse. auto.
Qed.

Lemma Cluster_reports_witness :
  result_of (Core_Cluster Sample.E Sample.renamed)
  = Ok (Some {| Name := "testcluster";
                ID := "6ba7b810-9dad-11d1-80b4-00c04fd430c8";
                Certificate := None |}).
Proof.
  destruct (Cluster_reports Sample.E Sample.renamed Sample.named) as (H & _).
  - reflexivity.
  - vm_compute. reflexivity.
  - destruct H as [H _]; [left; reflexivity|]. exact H.
Defined.
